(** * Courier: contact URN reconciliation, gateway status mapping,
    Twilio request signatures and the rate-limited priority queue.

  The development follows the Go sources:
  - [Rapidpro]  the [rapidpro] package file holding [DBContactURN]
    ([newDBContactURN], [contactURNsForContact], [setDefaultURN],
    [contactURNForURN], [insertContactURN], [updateContactURN]);
  - [Kannel]    handlers/kannel/kannel.go ([kannelStatusMapping], [StatusMessage]);
  - [Twilio]    the [twilio] package ([twStatusMapping], [StatusMessage],
    [twCalculateSignature]);
  - [Queue]     the queue engine exercised by queue/queue_test.go. *)

From Stdlib Require Import ZArith List String Ascii Bool Lia DecimalString OrderedTypeEx.
From stdpp Require Import base option list sorting gmap strings functions.
Import ListNotations.
Local Open Scope Z_scope.
Local Open Scope string_scope.
Local Open Scope list_scope.

(** ** Go values shared by the packages *)

(** [gopkg.in/guregu/null.v3]: a nullable integer / string is a struct of a
  value and a validity flag; Go's [==] and [!=] on it compare both fields. *)
Module null.

Record Int := mkInt { Int64 : Z; IntValid : bool }.
Record String := mkString { Str : string; StrValid : bool }.

Definition NewInt (i : Z) (valid : bool) : Int := mkInt i valid.

Definition int_eqb (a b : Int) : bool :=
  (Int64 a =? Int64 b)%Z && Bool.eqb (IntValid a) (IntValid b).

Definition string_eqb (a b : String) : bool :=
  String.eqb (Str a) (Str b) && Bool.eqb (StrValid a) (StrValid b).

(** What the SQL driver binds for a nullable value ([Value()]), and what
    [Scan] stores for a column. *)
Definition int_value (a : Int) : option Z :=
  if IntValid a then Some (Int64 a) else None.

Definition string_value (a : String) : option string :=
  if StrValid a then Some (Str a) else None.

Definition scan_int (c : option Z) : Int :=
  match c with Some i => mkInt i true | None => mkInt 0 false end.

Definition scan_string (c : option string) : String :=
  match c with Some s => mkString s true | None => mkString "" false end.

Lemma int_eqb_eq a b : int_eqb a b = true <-> a = b.
Proof.
  destruct a as [x v], b as [y w]; unfold int_eqb; simpl.
  rewrite andb_true_iff, Z.eqb_eq, Bool.eqb_true_iff.
  split; [intros [-> ->]; reflexivity | intros [= -> ->]; auto].
Qed.

Lemma string_eqb_eq a b : string_eqb a b = true <-> a = b.
Proof.
  destruct a as [x v], b as [y w]; unfold string_eqb; simpl.
  rewrite andb_true_iff, String.eqb_eq, Bool.eqb_true_iff.
  split; [intros [-> ->]; reflexivity | intros [= -> ->]; auto].
Qed.

Lemma value_scan_int c : int_value (scan_int c) = c.
Proof. destruct c; reflexivity. Qed.


End null.

(** [fmt]'s [%d] verb on an integer. *)
Definition fmt_d (i : Z) : string := NilZero.string_of_int (Z.to_int i).

(** Go's [error] values met in these files. *)
Inductive error : Type :=
| ErrNoRows                       (* sql.ErrNoRows *)
| Errorf (msg : string)           (* fmt.Errorf(...) *)
| ErrDriver (msg : string).       (* any other error of a dependency *)

(** ** The [rapidpro] package: contact URNs *)
Module Rapidpro.

(** [courier.URN] is used through its four accessors only. *)
Record URN := mkURN {
  urn_Identity : string;
  urn_Scheme : string;
  urn_Path : string;
  urn_Display : null.String
}.

(** Modelled from the spec: [courier.TelScheme] is declared outside these
    sources; the telephone scheme of the spec's URNs ([tel:+15551234]). *)
Definition TelScheme : string := "tel".

(** [OrgID], [ContactID], [ChannelID] and [ContactURNID] all wrap a
    [null.Int]. *)
Record DBContactURN := mkDBContactURN {
  OrgID : null.Int;
  ID : null.Int;
  Identity : string;
  Scheme : string;
  Path : string;
  Display : null.String;
  Priority : Z;
  ChannelID : null.Int;
  ContactID : null.Int
}.

(** [&DBContactURN{}] *)
Definition zeroDBContactURN : DBContactURN :=
  mkDBContactURN (null.mkInt 0 false) (null.mkInt 0 false) "" "" ""
                 (null.mkString "" false) 0
                 (null.mkInt 0 false) (null.mkInt 0 false).

(** [DBContact] is used through its [ID] only. *)
Record DBContact := mkDBContact { contact_ID : null.Int }.

Definition newDBContactURN (org channelID contactID : null.Int) (urn : URN)
  : DBContactURN :=
  {| OrgID := org;
     ID := ID zeroDBContactURN;
     Identity := urn_Identity urn;
     Scheme := urn_Scheme urn;
     Path := urn_Path urn;
     Display := urn_Display urn;
     Priority := Priority zeroDBContactURN;
     ChannelID := channelID;
     ContactID := contactID |}.

(** *** The table [contacts_contacturn] *)

Record Row := mkRow {
  col_org_id : option Z;
  col_id : option Z;
  col_identity : string;
  col_scheme : string;
  col_path : string;
  col_display : option string;
  col_priority : Z;
  col_channel_id : option Z;
  col_contact_id : option Z
}.

(** The statements that write, with their bound values. *)
Inductive Stmt : Type :=
| INSERT (r : Row)
| UPDATE (id channel_id contact_id : option Z) (display : option string)
         (priority : Z).

(** The database: the table, the sequence behind [RETURNING id], the
    writes executed so far, and the outcome of the coming calls to the
    driver ([Some msg]: the call fails with that error and changes
    nothing; [None], or no entry left: it is executed). *)
Record DB := mkDB {
  contacts_contacturn : list Row;
  next_id : Z;
  journal : list Stmt;
  faults : list (option string)
}.

(** SQL's [=]: never true on NULL. *)
Definition sql_eq (a b : option Z) : bool :=
  match a, b with
  | Some x, Some y => (x =? y)%Z
  | _, _ => false
  end.

(** One call to the driver: consumes the next outcome. *)
Definition call (db : DB) : option string * DB :=
  match faults db with
  | [] => (None, db)
  | f :: rest =>
      (f, {| contacts_contacturn := contacts_contacturn db;
             next_id := next_id db;
             journal := journal db;
             faults := rest |})
  end.

(** [ORDER BY priority desc]: a stable insertion sort. *)
Fixpoint insert_desc (r : Row) (rs : list Row) : list Row :=
  match rs with
  | [] => [r]
  | r' :: rest =>
      if (col_priority r' <=? col_priority r)%Z then r :: rs
      else r' :: insert_desc r rest
  end.

Definition order_by_priority_desc (rs : list Row) : list Row :=
  fold_right insert_desc [] rs.

(** [rows.StructScan] for [selectContactURNs]: the columns
    id, identity, scheme, display, priority, contact_id, channel_id. *)
Definition scanContactURN (r : Row) : DBContactURN :=
  {| OrgID := OrgID zeroDBContactURN;
     ID := null.scan_int (col_id r);
     Identity := col_identity r;
     Scheme := col_scheme r;
     Path := Path zeroDBContactURN;
     Display := null.scan_string (col_display r);
     Priority := col_priority r;
     ChannelID := null.scan_int (col_channel_id r);
     ContactID := null.scan_int (col_contact_id r) |}.

(** [db.Get] for [selectOrgURN]: all nine columns. *)
Definition scanOrgURN (r : Row) : DBContactURN :=
  {| OrgID := null.scan_int (col_org_id r);
     ID := null.scan_int (col_id r);
     Identity := col_identity r;
     Scheme := col_scheme r;
     Path := col_path r;
     Display := null.scan_string (col_display r);
     Priority := col_priority r;
     ChannelID := null.scan_int (col_channel_id r);
     ContactID := null.scan_int (col_contact_id r) |}.

Definition selectContactURNs (db : DB) (contactID : null.Int) : list Row :=
  order_by_priority_desc
    (List.filter (fun r => sql_eq (col_contact_id r) (null.int_value contactID))
                 (contacts_contacturn db)).

Definition selectOrgURN (db : DB) (org : null.Int) (identity : string)
  : option Row :=
  head (order_by_priority_desc
          (List.filter (fun r => sql_eq (col_org_id r) (null.int_value org)
                                 && String.eqb (col_identity r) identity)
                       (contacts_contacturn db))).

(** The query can fail; scanning the typed rows of the table cannot. *)
Definition contactURNsForContact (db : DB) (contactID : null.Int)
  : (list DBContactURN + error) * DB :=
  match call db with
  | (Some msg, db1) => (inr (ErrDriver msg), db1)
  | (None, db1) => (inl (List.map scanContactURN (selectContactURNs db1 contactID)), db1)
  end.

(** [insertURN ... RETURNING id]: the row gets the next id of the sequence,
    which is scanned into the struct. *)
Definition insertRow (u : DBContactURN) (id : Z) : Row :=
  {| col_org_id := null.int_value (OrgID u);
     col_id := Some id;
     col_identity := Identity u;
     col_scheme := Scheme u;
     col_path := Path u;
     col_display := null.string_value (Display u);
     col_priority := Priority u;
     col_channel_id := null.int_value (ChannelID u);
     col_contact_id := null.int_value (ContactID u) |}.

Definition with_ID (u : DBContactURN) (id : null.Int) : DBContactURN :=
  {| OrgID := OrgID u; ID := id; Identity := Identity u; Scheme := Scheme u;
     Path := Path u; Display := Display u; Priority := Priority u;
     ChannelID := ChannelID u; ContactID := ContactID u |}.

Definition insertContactURN (db : DB) (urn : DBContactURN)
  : DBContactURN * option error * DB :=
  match call db with
  | (Some msg, db1) => (urn, Some (ErrDriver msg), db1)
  | (None, db1) =>
      let r := insertRow urn (next_id db1) in
      (with_ID urn (null.mkInt (next_id db1) true), None,
       {| contacts_contacturn := contacts_contacturn db1 ++ [r];
          next_id := next_id db1 + 1;
          journal := journal db1 ++ [INSERT r];
          faults := faults db1 |})
  end.

(** [updateURN]: sets four columns of the rows [WHERE id = :id]. *)
Definition updateStmt (u : DBContactURN) : Stmt :=
  UPDATE (null.int_value (ID u)) (null.int_value (ChannelID u))
         (null.int_value (ContactID u)) (null.string_value (Display u))
         (Priority u).

Definition updateRow (u : DBContactURN) (r : Row) : Row :=
  if sql_eq (col_id r) (null.int_value (ID u)) then
    {| col_org_id := col_org_id r;
       col_id := col_id r;
       col_identity := col_identity r;
       col_scheme := col_scheme r;
       col_path := col_path r;
       col_display := null.string_value (Display u);
       col_priority := Priority u;
       col_channel_id := null.int_value (ChannelID u);
       col_contact_id := null.int_value (ContactID u) |}
  else r.

(** The statement returns no row, so [rows.Next()] is false and the
    struct is left as it is. *)
Definition updateContactURN (db : DB) (urn : DBContactURN)
  : option error * DB :=
  match call db with
  | (Some msg, db1) => (Some (ErrDriver msg), db1)
  | (None, db1) =>
      (None,
       {| contacts_contacturn := List.map (updateRow urn) (contacts_contacturn db1);
          next_id := next_id db1;
          journal := journal db1 ++ [updateStmt urn];
          faults := faults db1 |})
  end.

Definition with_Display_ChannelID (u : DBContactURN) (display : null.String)
           (channelID : null.Int) : DBContactURN :=
  {| OrgID := OrgID u; ID := ID u; Identity := Identity u; Scheme := Scheme u;
     Path := Path u; Display := display; Priority := Priority u;
     ChannelID := channelID; ContactID := ContactID u |}.

Definition with_Priority (u : DBContactURN) (priority : Z) : DBContactURN :=
  {| OrgID := OrgID u; ID := ID u; Identity := Identity u; Scheme := Scheme u;
     Path := Path u; Display := Display u; Priority := priority;
     ChannelID := ChannelID u; ContactID := ContactID u |}.

Definition with_ChannelID (u : DBContactURN) (channelID : null.Int)
  : DBContactURN :=
  {| OrgID := OrgID u; ID := ID u; Identity := Identity u; Scheme := Scheme u;
     Path := Path u; Display := Display u; Priority := Priority u;
     ChannelID := channelID; ContactID := ContactID u |}.

Definition topPriority : Z := 99.

(** The body of the loop of [setDefaultURN] up to its call to
    [updateContactURN]: the struct as it is written, and [currPriority]
    after the iteration. *)
Definition reassign (channelID : null.Int) (scheme identity : string)
           (currPriority : Z) (existing : DBContactURN) : DBContactURN * Z :=
  if String.eqb (Identity existing) identity then
    (with_ChannelID (with_Priority existing topPriority) channelID, currPriority)
  else
    let existing1 := with_Priority existing currPriority in
    let existing2 :=
      if String.eqb (Scheme existing1) TelScheme && String.eqb scheme TelScheme
      then with_ChannelID existing1 channelID
      else existing1 in
    (existing2, currPriority - 1).

(** [for _, existing := range urns { ... }], leaving at the first error. *)
Fixpoint updateAll (db : DB) (channelID : null.Int) (scheme identity : string)
         (currPriority : Z) (urns : list DBContactURN) : option error * DB :=
  match urns with
  | [] => (None, db)
  | existing :: rest =>
      let '(existing', currPriority') :=
        reassign channelID scheme identity currPriority existing in
      match updateContactURN db existing' with
      | (Some err, db1) => (Some err, db1)
      | (None, db1) => updateAll db1 channelID scheme identity currPriority' rest
      end
  end.

Definition notPresent (urn : URN) (contact : DBContact) : error :=
  Errorf ("URN '" ++ urn_Identity urn ++ "' not present for contact "
          ++ fmt_d (null.Int64 (contact_ID contact)))%string.

Definition setDefaultURN (db : DB) (channelID : null.Int) (contact : DBContact)
           (urn : URN) : option error * DB :=
  let scheme := urn_Scheme urn in
  match contactURNsForContact db (contact_ID contact) with
  | (inr err, db1) => (Some err, db1)
  | (inl urns, db1) =>
      match urns with
      | [] => (Some (notPresent urn contact), db1)
      | first :: _ =>
          if String.eqb (Identity first) (urn_Identity urn) then
            if negb (null.string_eqb (Display first) (urn_Display urn))
               || negb (null.int_eqb (ChannelID first) channelID)
            then updateContactURN db1
                   (with_Display_ChannelID first (urn_Display urn) channelID)
            else (None, db1)
          else updateAll db1 channelID scheme (urn_Identity urn) 50 urns
      end
  end.

Definition with_Channel_Contact_Display (u : DBContactURN)
           (channelID contactID : null.Int) (display : null.String)
  : DBContactURN :=
  {| OrgID := OrgID u; ID := ID u; Identity := Identity u; Scheme := Scheme u;
     Path := Path u; Display := display; Priority := Priority u;
     ChannelID := channelID; ContactID := contactID |}.

(** [db.Get(contactURN, selectOrgURN, org, urn.Identity())]: the struct is
    overwritten by the row found, and left as it is on [sql.ErrNoRows]. *)
Definition getOrgURN (db : DB) (contactURN : DBContactURN) (org : null.Int)
           (identity : string) : DBContactURN * option error * DB :=
  match call db with
  | (Some msg, db1) => (contactURN, Some (ErrDriver msg), db1)
  | (None, db1) =>
      match selectOrgURN db1 org identity with
      | Some r => (scanOrgURN r, None, db1)
      | None => (contactURN, Some ErrNoRows, db1)
      end
  end.

(** [contactURN.ChannelID != channelID || contactURN.ContactID != contactID
    || contactURN.Display != urn.Display()] *)
Definition outOfDate (contactURN : DBContactURN) (channelID contactID : null.Int)
           (urn : URN) : bool :=
  negb (null.int_eqb (ChannelID contactURN) channelID)
  || negb (null.int_eqb (ContactID contactURN) contactID)
  || negb (null.string_eqb (Display contactURN) (urn_Display urn)).

(** The tail of [contactURNForURN], from "make sure our contact URN is up
    to date" on. *)
Definition bringUpToDate (db : DB) (contactURN : DBContactURN)
           (channelID contactID : null.Int) (urn : URN) (err : option error)
  : (option DBContactURN * option error) * DB :=
  if outOfDate contactURN channelID contactID urn
  then
    let contactURN' :=
      with_Channel_Contact_Display contactURN channelID contactID
                                   (urn_Display urn) in
    let '(err', db1) := updateContactURN db contactURN' in
    ((Some contactURN', err'), db1)
  else ((Some contactURN, err), db).

Definition contactURNForURN (db : DB) (org channelID contactID : null.Int)
           (urn : URN) : (option DBContactURN * option error) * DB :=
  let contactURN := newDBContactURN org channelID contactID urn in
  match getOrgURN db contactURN org (urn_Identity urn) with
  | (contactURN1, Some ErrNoRows, db1) =>
      match insertContactURN db1 contactURN1 with
      | (_, Some err, db2) => ((None, Some err), db2)
      | (contactURN2, None, db2) =>
          bringUpToDate db2 contactURN2 channelID contactID urn None
      end
  | (_, Some err, db1) => ((None, Some err), db1)
  | (contactURN1, None, db1) =>
      bringUpToDate db1 contactURN1 channelID contactID urn None
  end.

(** *** Facts about the driver and the statements *)

Lemma call_no_faults db : faults db = [] -> call db = (None, db).
Proof. unfold call; intros ->; reflexivity. Qed.

Lemma updateContactURN_no_faults db u :
  faults db = [] ->
  updateContactURN db u =
    (None, {| contacts_contacturn := List.map (updateRow u) (contacts_contacturn db);
              next_id := next_id db;
              journal := journal db ++ [updateStmt u];
              faults := [] |}).
Proof.
  intros Hf; unfold updateContactURN.
  rewrite (call_no_faults db Hf), Hf; reflexivity.
Qed.

Lemma getOrgURN_no_faults db u org identity :
  faults db = [] ->
  getOrgURN db u org identity =
    match selectOrgURN db org identity with
    | Some r => (scanOrgURN r, None, db)
    | None => (u, Some ErrNoRows, db)
    end.
Proof. intros Hf; unfold getOrgURN; rewrite (call_no_faults db Hf); reflexivity. Qed.

Lemma bringUpToDate_fresh db org channelID contactID urn id :
  bringUpToDate db (with_ID (newDBContactURN org channelID contactID urn) id)
                channelID contactID urn None
  = ((Some (with_ID (newDBContactURN org channelID contactID urn) id), None), db).
Proof.
  unfold bringUpToDate, outOfDate; simpl.
  assert (Hc : null.int_eqb channelID channelID = true) by (apply null.int_eqb_eq; reflexivity).
  assert (Hk : null.int_eqb contactID contactID = true) by (apply null.int_eqb_eq; reflexivity).
  assert (Hd : null.string_eqb (urn_Display urn) (urn_Display urn) = true)
    by (apply null.string_eqb_eq; reflexivity).
  rewrite Hc, Hk, Hd; reflexivity.
Qed.

(** The row written for a URN that was not there. *)
Definition freshRow (db : DB) (org channelID contactID : null.Int) (urn : URN)
  : Row :=
  {| col_org_id := null.int_value org;
     col_id := Some (next_id db);
     col_identity := urn_Identity urn;
     col_scheme := urn_Scheme urn;
     col_path := urn_Path urn;
     col_display := null.string_value (urn_Display urn);
     col_priority := 0;
     col_channel_id := null.int_value channelID;
     col_contact_id := null.int_value contactID |}.

(** A database with no row, and the URN of the spec's scenarios. *)
Definition emptyDB : DB := mkDB [] 1 [] [].

Definition tel15551234 : URN :=
  mkURN "tel:+15551234" "tel" "+15551234" (null.mkString "" false).

(** C5 (amended): when no row matches (org, identity) and the database
    executes the statements, [contactURNForURN] writes exactly one
    statement, the insert of a row carrying the supplied org, identity,
    scheme, path, channel, contact and display, and priority 0 (the zero
    value of the field, which [newDBContactURN] never sets); the struct
    comes back with the new id and no error. *)
Theorem contactURNForURN_absent_inserts_priority_0
        db org channelID contactID urn :
  faults db = [] ->
  selectOrgURN db org (urn_Identity urn) = None ->
  contactURNForURN db org channelID contactID urn =
    ((Some (with_ID (newDBContactURN org channelID contactID urn)
                    (null.mkInt (next_id db) true)), None),
     {| contacts_contacturn :=
          contacts_contacturn db ++ [freshRow db org channelID contactID urn];
        next_id := next_id db + 1;
        journal := journal db ++ [INSERT (freshRow db org channelID contactID urn)];
        faults := [] |})
  /\ col_priority (freshRow db org channelID contactID urn) = 0
  /\ col_channel_id (freshRow db org channelID contactID urn) = null.int_value channelID
  /\ col_contact_id (freshRow db org channelID contactID urn) = null.int_value contactID
  /\ col_display (freshRow db org channelID contactID urn)
     = null.string_value (urn_Display urn).
Proof.
  intros Hf Hnone.
  split; [| repeat split].
  unfold contactURNForURN.
  rewrite (getOrgURN_no_faults _ _ _ _ Hf), Hnone.
  unfold insertContactURN. rewrite (call_no_faults db Hf).
  rewrite bringUpToDate_fresh, Hf. reflexivity.
Qed.

Lemma contactURNForURN_absent_inserts_priority_0_witness :
  contactURNForURN emptyDB (null.mkInt 1 true) (null.mkInt 10 true)
                   (null.mkInt 7 true) tel15551234
  = ((Some (with_ID (newDBContactURN (null.mkInt 1 true) (null.mkInt 10 true)
                                     (null.mkInt 7 true) tel15551234)
                    (null.mkInt 1 true)), None),
     mkDB [mkRow (Some 1) (Some 1) "tel:+15551234" "tel" "+15551234" None 0
                 (Some 10) (Some 7)]
          2
          [INSERT (mkRow (Some 1) (Some 1) "tel:+15551234" "tel" "+15551234"
                         None 0 (Some 10) (Some 7))]
          []).
Proof.
  exact (proj1 (contactURNForURN_absent_inserts_priority_0
                  emptyDB (null.mkInt 1 true) (null.mkInt 10 true)
                  (null.mkInt 7 true) tel15551234 eq_refl eq_refl)).
Defined.

(** C5 as stated fails: no row matches in the empty table, and the row
    that is inserted does not have priority 50. *)
Lemma contactURNForURN_absent_priority_50_fails :
  selectOrgURN emptyDB (null.mkInt 1 true) (urn_Identity tel15551234) = None
  /\ ~ (exists r,
          In (INSERT r)
             (journal (snd (contactURNForURN emptyDB (null.mkInt 1 true)
                              (null.mkInt 10 true) (null.mkInt 7 true)
                              tel15551234)))
          /\ col_priority r = 50).
Proof.
  split; [reflexivity |].
  intros [r [Hin Hp]]. vm_compute in Hin.
  destruct Hin as [Heq | []]. inversion Heq; subst r. discriminate Hp.
Qed.

(** *** [setDefaultURN] *)

(** The structs written by the loop of [setDefaultURN], in order. *)
Fixpoint assignments (channelID : null.Int) (scheme identity : string)
         (currPriority : Z) (urns : list DBContactURN) : list DBContactURN :=
  match urns with
  | [] => []
  | existing :: rest =>
      fst (reassign channelID scheme identity currPriority existing)
      :: assignments channelID scheme identity
           (snd (reassign channelID scheme identity currPriority existing)) rest
  end.

(** How many of [urns] are not the target. *)
Definition others (identity : string) (urns : list DBContactURN) : nat :=
  length (List.filter (fun u => negb (String.eqb (Identity u) identity)) urns).

Lemma updateAll_no_faults urns : forall db channelID scheme identity currPriority,
  faults db = [] ->
  updateAll db channelID scheme identity currPriority urns =
    (None,
     {| contacts_contacturn :=
          fold_left (fun t u => List.map (updateRow u) t)
                    (assignments channelID scheme identity currPriority urns)
                    (contacts_contacturn db);
        next_id := next_id db;
        journal := journal db
                   ++ List.map updateStmt
                        (assignments channelID scheme identity currPriority urns);
        faults := [] |}).
Proof.
  induction urns as [| existing rest IH]; intros db channelID scheme identity curr Hf.
  - simpl. rewrite app_nil_r. destruct db; simpl in *; subst; reflexivity.
  - simpl.
    destruct (reassign channelID scheme identity curr existing) as [e' c'] eqn:Hr.
    rewrite (updateContactURN_no_faults _ _ Hf).
    rewrite IH by reflexivity. simpl.
    rewrite <- app_assoc. reflexivity.
Qed.

Lemma assignments_length channelID scheme identity urns : forall curr,
  length (assignments channelID scheme identity curr urns) = length urns.
Proof. induction urns as [| u rest IH]; intros curr; simpl; [| rewrite IH]; reflexivity. Qed.

Lemma reassign_snd channelID scheme identity curr u :
  snd (reassign channelID scheme identity curr u)
  = curr - Z.of_nat (others identity [u]).
Proof.
  unfold reassign, others; simpl.
  destruct (String.eqb (Identity u) identity); simpl; lia.
Qed.

Lemma others_cons identity u l :
  Z.of_nat (others identity (u :: l))
  = Z.of_nat (others identity [u]) + Z.of_nat (others identity l).
Proof.
  unfold others; simpl.
  destruct (negb (String.eqb (Identity u) identity)); simpl; lia.
Qed.

Lemma assignments_nth channelID scheme identity urns : forall curr i u,
  nth_error urns i = Some u ->
  nth_error (assignments channelID scheme identity curr urns) i
  = Some (fst (reassign channelID scheme identity
                        (curr - Z.of_nat (others identity (firstn i urns))) u)).
Proof.
  induction urns as [| u0 rest IH]; intros curr i u Hi.
  - destruct i; discriminate Hi.
  - destruct i as [| i]; simpl in Hi |- *.
    + injection Hi as ->. replace (curr - Z.of_nat (others identity [])) with curr
        by (unfold others; simpl; lia). reflexivity.
    + rewrite (IH _ _ _ Hi). rewrite reassign_snd.
      rewrite (others_cons identity u0 (firstn i rest)).
      do 3 f_equal. lia.
Qed.

Lemma contactURNsForContact_no_faults db contactID :
  faults db = [] ->
  contactURNsForContact db contactID
  = (inl (List.map scanContactURN (selectContactURNs db contactID)), db).
Proof.
  intros Hf; unfold contactURNsForContact.
  rewrite (call_no_faults db Hf); reflexivity.
Qed.

(** A contact with three URNs, the second of which is the target of the
    scenarios below. *)
Definition threeURNs : DB :=
  mkDB [mkRow (Some 1) (Some 1) "tel:+15550000" "tel" "+15550000" None 60
              (Some 20) (Some 7);
        mkRow (Some 1) (Some 2) "tel:+15551234" "tel" "+15551234" None 50
              (Some 20) (Some 7);
        mkRow (Some 1) (Some 3) "telegram:12345" "telegram" "12345" None 40
              (Some 30) (Some 7)]
       4 [] [].

(** C6: when URNs are loaded and the first (top-priority) one is not the
    target, [setDefaultURN] writes one update per loaded URN, in load order;
    the target gets priority 99 and the new channel; the k-th of the other
    URNs (counting from 0, in load order) gets priority 50 - k; and each of
    the others whose scheme is the telephone scheme gets the new channel when
    the target's scheme is the telephone scheme too, and keeps its channel
    otherwise. *)
Theorem setDefaultURN_reprioritises db channelID contact urn first rest :
  faults db = [] ->
  List.map scanContactURN (selectContactURNs db (contact_ID contact))
  = first :: rest ->
  Identity first <> urn_Identity urn ->
  exists written db',
    setDefaultURN db channelID contact urn = (None, db')
    /\ journal db' = journal db ++ List.map updateStmt written
    /\ contacts_contacturn db'
       = fold_left (fun t u => List.map (updateRow u) t) written
                   (contacts_contacturn db)
    /\ length written = length (first :: rest)
    /\ forall i existing,
         nth_error (first :: rest) i = Some existing ->
         exists w,
           nth_error written i = Some w
           /\ ID w = ID existing
           /\ ContactID w = ContactID existing
           /\ Display w = Display existing
           /\ (Identity existing = urn_Identity urn ->
               Priority w = 99 /\ ChannelID w = channelID)
           /\ (Identity existing <> urn_Identity urn ->
               Priority w
               = 50 - Z.of_nat (others (urn_Identity urn) (firstn i (first :: rest)))
               /\ ChannelID w
                  = if String.eqb (Scheme existing) TelScheme
                       && String.eqb (urn_Scheme urn) TelScheme
                    then channelID else ChannelID existing).
Proof.
  intros Hf Hload Hfirst.
  set (written := assignments channelID (urn_Scheme urn) (urn_Identity urn) 50
                              (first :: rest)).
  eexists written, _.
  split; [| split; [| split; [| split]]].
  - unfold setDefaultURN.
    rewrite (contactURNsForContact_no_faults _ _ Hf), Hload.
    apply String.eqb_neq in Hfirst. rewrite Hfirst.
    apply updateAll_no_faults; exact Hf.
  - reflexivity.
  - reflexivity.
  - apply assignments_length.
  - intros i existing Hi.
    exists (fst (reassign channelID (urn_Scheme urn) (urn_Identity urn)
                   (50 - Z.of_nat (others (urn_Identity urn) (firstn i (first :: rest))))
                   existing)).
    split; [apply assignments_nth; exact Hi |].
    unfold reassign.
    destruct (String.eqb (Identity existing) (urn_Identity urn)) eqn:He.
    + apply String.eqb_eq in He. simpl.
      split; [reflexivity |]. split; [reflexivity |]. split; [reflexivity |].
      split; [intros _; split; reflexivity | intros Hne; contradiction].
    + apply String.eqb_neq in He. simpl.
      destruct (String.eqb (Scheme existing) TelScheme
                && String.eqb (urn_Scheme urn) TelScheme); simpl;
        (split; [reflexivity |]; split; [reflexivity |]; split; [reflexivity |];
         split; [intros Heq; contradiction | intros _; split; reflexivity]).
Qed.

Lemma setDefaultURN_reprioritises_witness :
  exists db',
    setDefaultURN threeURNs (null.mkInt 10 true) (mkDBContact (null.mkInt 7 true))
                  tel15551234 = (None, db')
    /\ journal db'
       = [UPDATE (Some 1) (Some 10) (Some 7) None 50;
          UPDATE (Some 2) (Some 10) (Some 7) None 99;
          UPDATE (Some 3) (Some 30) (Some 7) None 49].
Proof.
  destruct (setDefaultURN_reprioritises threeURNs (null.mkInt 10 true)
              (mkDBContact (null.mkInt 7 true)) tel15551234
              (scanContactURN (mkRow (Some 1) (Some 1) "tel:+15550000" "tel"
                                     "+15550000" None 60 (Some 20) (Some 7)))
              [scanContactURN (mkRow (Some 1) (Some 2) "tel:+15551234" "tel"
                                     "+15551234" None 50 (Some 20) (Some 7));
               scanContactURN (mkRow (Some 1) (Some 3) "telegram:12345" "telegram"
                                     "12345" None 40 (Some 30) (Some 7))]
              eq_refl eq_refl ltac:(discriminate))
    as (written & db' & Hrun & _).
  exists db'. split; [exact Hrun |].
  vm_compute in Hrun. injection Hrun as <-. reflexivity.
Defined.

(** With a driver that executes every statement, the only error of
    [setDefaultURN] is the one for a contact without URNs. *)
Lemma setDefaultURN_no_faults_loaded db channelID contact urn first rest :
  faults db = [] ->
  List.map scanContactURN (selectContactURNs db (contact_ID contact))
  = first :: rest ->
  fst (setDefaultURN db channelID contact urn) = None.
Proof.
  intros Hf Hload. unfold setDefaultURN.
  rewrite (contactURNsForContact_no_faults _ _ Hf), Hload.
  destruct (String.eqb (Identity first) (urn_Identity urn)).
  - destruct (negb (null.string_eqb (Display first) (urn_Display urn))
              || negb (null.int_eqb (ChannelID first) channelID)).
    + rewrite (updateContactURN_no_faults _ _ Hf). reflexivity.
    + reflexivity.
  - rewrite (updateAll_no_faults _ _ _ _ _ _ Hf). reflexivity.
Qed.

(** C7 (amended): on a database that executes the query, [setDefaultURN]
    returns the error "URN '<identity>' not present for contact <id>", which
    names the identity and the contact, exactly when no URN at all is loaded
    for the contact; the store is left as it was. *)
Theorem setDefaultURN_error_iff_no_URNs db channelID contact urn :
  faults db = [] ->
  (selectContactURNs db (contact_ID contact) = [] ->
   setDefaultURN db channelID contact urn
   = (Some (Errorf ("URN '" ++ urn_Identity urn ++ "' not present for contact "
                    ++ fmt_d (null.Int64 (contact_ID contact)))%string), db))
  /\ (selectContactURNs db (contact_ID contact) <> [] ->
      fst (setDefaultURN db channelID contact urn) = None).
Proof.
  intros Hf. split.
  - intros Hnone. unfold setDefaultURN.
    rewrite (contactURNsForContact_no_faults _ _ Hf), Hnone. reflexivity.
  - intros Hsome.
    destruct (selectContactURNs db (contact_ID contact)) as [| r rows] eqn:Hsel;
      [contradiction |].
    apply (setDefaultURN_no_faults_loaded db channelID contact urn
             (scanContactURN r) (List.map scanContactURN rows) Hf).
    rewrite Hsel. reflexivity.
Qed.

Lemma setDefaultURN_error_iff_no_URNs_witness :
  setDefaultURN emptyDB (null.mkInt 10 true) (mkDBContact (null.mkInt 7 true))
                tel15551234
  = (Some (Errorf "URN 'tel:+15551234' not present for contact 7"), emptyDB).
Proof.
  exact (proj1 (setDefaultURN_error_iff_no_URNs emptyDB (null.mkInt 10 true)
                  (mkDBContact (null.mkInt 7 true)) tel15551234 eq_refl)
               eq_refl).
Defined.

(** A contact whose only URN is another telephone number. *)
Definition otherURN : DB :=
  mkDB [mkRow (Some 1) (Some 1) "tel:+15550000" "tel" "+15550000" None 60
              (Some 20) (Some 7)]
       2 [] [].

(** C7 as stated fails: the target identity is not among the URNs loaded
    for the contact, and [setDefaultURN] returns no error; it gives the URN
    that is there priority 50 and the new channel. *)
Lemma setDefaultURN_missing_target_no_error :
  (forall u,
     In u (List.map scanContactURN
             (selectContactURNs otherURN (null.mkInt 7 true))) ->
     Identity u <> urn_Identity tel15551234)
  /\ setDefaultURN otherURN (null.mkInt 10 true) (mkDBContact (null.mkInt 7 true))
                   tel15551234
     = (None,
        mkDB [mkRow (Some 1) (Some 1) "tel:+15550000" "tel" "+15550000" None 50
                    (Some 10) (Some 7)]
             2 [UPDATE (Some 1) (Some 10) (Some 7) None 50] []).
Proof.
  split; [| reflexivity].
  intros u [<- | []]. discriminate.
Qed.

(** *** [contactURNForURN] on a URN that is there *)



(** *** What the two operations leave alone *)

(** The columns no statement of this file writes after the insert. *)
Definition rowKey (r : Row)
  : option Z * option Z * string * string * string :=
  (col_org_id r, col_id r, col_identity r, col_scheme r, col_path r).

Definition isUPDATE (st : Stmt) : Prop :=
  match st with
  | UPDATE _ _ _ _ _ => True
  | INSERT _ => False
  end.

(** [db'] has the rows of [db], in place, with their key columns, the same
    sequence, and only updates added to the journal. *)
Definition onlyUpdated (db db' : DB) : Prop :=
  List.map rowKey (contacts_contacturn db')
  = List.map rowKey (contacts_contacturn db)
  /\ next_id db' = next_id db
  /\ exists written,
       journal db' = journal db ++ written /\ Forall isUPDATE written.

Lemma onlyUpdated_refl db : onlyUpdated db db.
Proof.
  split; [reflexivity |]. split; [reflexivity |].
  exists []. split; [rewrite app_nil_r; reflexivity | constructor].
Qed.

Lemma onlyUpdated_trans db1 db2 db3 :
  onlyUpdated db1 db2 -> onlyUpdated db2 db3 -> onlyUpdated db1 db3.
Proof.
  intros (Hk1 & Hn1 & w1 & Hj1 & Hu1) (Hk2 & Hn2 & w2 & Hj2 & Hu2).
  split; [congruence |]. split; [congruence |].
  exists (w1 ++ w2). split.
  - rewrite Hj2, Hj1, app_assoc. reflexivity.
  - apply Forall_app. split; assumption.
Qed.

Lemma call_onlyUpdated db : onlyUpdated db (snd (call db)).
Proof.
  unfold call. destruct (faults db) as [| f rest]; simpl.
  - apply onlyUpdated_refl.
  - split; [reflexivity |]. split; [reflexivity |].
    exists []. simpl. split; [rewrite app_nil_r; reflexivity | constructor].
Qed.

Lemma updateRow_key u r : rowKey (updateRow u r) = rowKey r.
Proof.
  unfold updateRow.
  destruct (sql_eq (col_id r) (null.int_value (ID u))); reflexivity.
Qed.

Lemma updateContactURN_onlyUpdated db u :
  onlyUpdated db (snd (updateContactURN db u)).
Proof.
  unfold updateContactURN.
  pose proof (call_onlyUpdated db) as Hc.
  destruct (call db) as [[msg |] db1]; simpl in *; [exact Hc |].
  apply (onlyUpdated_trans _ _ _ Hc).
  split; [| split; [reflexivity |]].
  - simpl. rewrite List.map_map. apply map_ext. intros r. apply updateRow_key.
  - exists [updateStmt u]. split; [reflexivity |].
    constructor; [exact I | constructor].
Qed.

Lemma updateAll_onlyUpdated urns : forall db channelID scheme identity curr,
  onlyUpdated db (snd (updateAll db channelID scheme identity curr urns)).
Proof.
  induction urns as [| existing rest IH]; intros db channelID scheme identity curr.
  - apply onlyUpdated_refl.
  - simpl.
    destruct (reassign channelID scheme identity curr existing) as [e' c'].
    pose proof (updateContactURN_onlyUpdated db e') as Hu.
    destruct (updateContactURN db e') as [[err |] db1]; simpl in *; [exact Hu |].
    exact (onlyUpdated_trans _ _ _ Hu (IH db1 channelID scheme identity c')).
Qed.

(** Whatever the driver does, [setDefaultURN] adds and removes no row,
    leaves org, id, identity, scheme and path of every row as they were,
    draws no id from the sequence, and writes updates only. *)
Theorem setDefaultURN_keeps_rows db channelID contact urn :
  onlyUpdated db (snd (setDefaultURN db channelID contact urn)).
Proof.
  unfold setDefaultURN, contactURNsForContact.
  pose proof (call_onlyUpdated db) as Hc.
  destruct (call db) as [[msg |] db1]; simpl in *; [exact Hc |].
  apply (onlyUpdated_trans _ _ _ Hc).
  destruct (List.map scanContactURN (selectContactURNs db1 (contact_ID contact)))
    as [| first rest]; [apply onlyUpdated_refl |].
  destruct (String.eqb (Identity first) (urn_Identity urn)).
  - destruct (negb (null.string_eqb (Display first) (urn_Display urn))
              || negb (null.int_eqb (ChannelID first) channelID)).
    + apply updateContactURN_onlyUpdated.
    + apply onlyUpdated_refl.
  - apply updateAll_onlyUpdated.
Qed.

(** Whatever the driver does, [contactURNForURN] executes at most one
    writing statement, and when it returns an error it has written nothing:
    the table and the journal are as before. *)
Theorem contactURNForURN_writes_once_or_fails db org channelID contactID urn :
  (exists written,
     journal (snd (contactURNForURN db org channelID contactID urn))
     = journal db ++ written
     /\ (length written <= 1)%nat)
  /\ (snd (fst (contactURNForURN db org channelID contactID urn)) <> None ->
      contacts_contacturn (snd (contactURNForURN db org channelID contactID urn))
      = contacts_contacturn db
      /\ journal (snd (contactURNForURN db org channelID contactID urn))
         = journal db).
Proof.
  assert (Hcall : forall d, contacts_contacturn (snd (call d)) = contacts_contacturn d
                            /\ journal (snd (call d)) = journal d
                            /\ next_id (snd (call d)) = next_id d).
  { intros d. unfold call. destruct (faults d); simpl; auto. }
  assert (Hupd : forall d u,
            (fst (updateContactURN d u) <> None ->
             contacts_contacturn (snd (updateContactURN d u)) = contacts_contacturn d
             /\ journal (snd (updateContactURN d u)) = journal d)
            /\ (fst (updateContactURN d u) = None ->
                journal (snd (updateContactURN d u)) = journal d ++ [updateStmt u])).
  { intros d u. unfold updateContactURN. destruct (Hcall d) as (Ht & Hj & _).
    destruct (call d) as [[msg |] d1]; simpl in *.
    - split; [intros _; split; assumption | discriminate].
    - split; [intros Habs; contradiction |]. intros _. rewrite Hj. reflexivity. }
  assert (Hbring : forall d u,
            (exists written,
               journal (snd (bringUpToDate d u channelID contactID urn None))
               = journal d ++ written /\ (length written <= 1)%nat)
            /\ (snd (fst (bringUpToDate d u channelID contactID urn None)) <> None ->
                contacts_contacturn (snd (bringUpToDate d u channelID contactID urn None))
                = contacts_contacturn d
                /\ journal (snd (bringUpToDate d u channelID contactID urn None))
                   = journal d)).
  { intros d u. unfold bringUpToDate.
    destruct (outOfDate u channelID contactID urn).
    - destruct (Hupd d (with_Channel_Contact_Display u channelID contactID
                          (urn_Display urn))) as [Hfail Hok].
      destruct (updateContactURN d
                  (with_Channel_Contact_Display u channelID contactID
                     (urn_Display urn))) as [[err |] d1]; simpl in *.
      + destruct (Hfail ltac:(discriminate)) as [Ht Hj].
        split; [exists []; rewrite app_nil_r; split; [exact Hj | simpl; lia] |].
        intros _. split; assumption.
      + split; [eexists; split; [exact (Hok eq_refl) | simpl; lia] |].
        intros Habs; contradiction.
    - simpl. split; [exists []; rewrite app_nil_r; split; [reflexivity | simpl; lia] |].
      intros Habs; contradiction. }
  unfold contactURNForURN, getOrgURN.
  destruct (Hcall db) as (Ht & Hj & Hn).
  destruct (call db) as [[msg |] db1]; simpl in *.
  - split; [exists []; rewrite app_nil_r; split; [exact Hj | simpl; lia] |].
    intros _. split; assumption.
  - destruct (selectOrgURN db1 org (urn_Identity urn)) as [r |].
    + rewrite <- Ht, <- Hj. apply Hbring.
    + unfold insertContactURN.
      destruct (Hcall db1) as (Ht1 & Hj1 & Hn1).
      destruct (call db1) as [[msg |] db2]; simpl in *.
      * split; [exists []; rewrite app_nil_r; split; [congruence | simpl; lia] |].
        intros _. split; congruence.
      * rewrite bringUpToDate_fresh. simpl.
        split; [| intros Habs; contradiction].
        eexists. split; [rewrite Hj1, Hj; reflexivity | simpl; lia].
Qed.

(** *** A driver that fails in the middle of [setDefaultURN] *)

Definition withFaults (db : DB) (fs : list (option string)) : DB :=
  {| contacts_contacturn := contacts_contacturn db;
     next_id := next_id db;
     journal := journal db;
     faults := fs |}.

Lemma updateContactURN_executed db u fs :
  faults db = None :: fs ->
  updateContactURN db u =
    (None, {| contacts_contacturn := List.map (updateRow u) (contacts_contacturn db);
              next_id := next_id db;
              journal := journal db ++ [updateStmt u];
              faults := fs |}).
Proof. intros Hf. unfold updateContactURN, call. rewrite Hf. reflexivity. Qed.

Lemma updateContactURN_failed db u msg fs :
  faults db = Some msg :: fs ->
  updateContactURN db u = (Some (ErrDriver msg), withFaults db fs).
Proof. intros Hf. unfold updateContactURN, call. rewrite Hf. reflexivity. Qed.

Lemma updateAll_fails_at urns : forall db channelID scheme identity curr k msg fs,
  faults db = repeat None k ++ Some msg :: fs ->
  (k < length urns)%nat ->
  updateAll db channelID scheme identity curr urns =
    (Some (ErrDriver msg),
     {| contacts_contacturn :=
          fold_left (fun t u => List.map (updateRow u) t)
                    (firstn k (assignments channelID scheme identity curr urns))
                    (contacts_contacturn db);
        next_id := next_id db;
        journal := journal db
                   ++ List.map updateStmt
                        (firstn k (assignments channelID scheme identity curr urns));
        faults := fs |}).
Proof.
  induction urns as [| existing rest IH];
    intros db channelID scheme identity curr k msg fs Hf Hk; simpl in Hk; [lia |].
  simpl.
  destruct (reassign channelID scheme identity curr existing) as [e' c'] eqn:Hr.
  destruct k as [| k]; simpl in Hf.
  - rewrite (updateContactURN_failed _ _ _ _ Hf). simpl.
    rewrite app_nil_r. reflexivity.
  - rewrite (updateContactURN_executed _ _ _ Hf).
    rewrite (IH _ channelID scheme identity c' k msg fs) by (simpl; first [reflexivity | lia]).
    simpl. rewrite <- app_assoc. reflexivity.
Qed.

(** [setDefaultURN] is not atomic: when the driver executes the query and
    the first k updates of the loop and fails on the next one, the call
    returns that error and the first k of the updates that the call would
    have written with a driver that never fails are written, the others are
    not. *)
Theorem setDefaultURN_stops_at_first_failure
        db channelID contact urn first rest k msg fs :
  faults db = None :: repeat None k ++ Some msg :: fs ->
  List.map scanContactURN (selectContactURNs db (contact_ID contact))
  = first :: rest ->
  Identity first <> urn_Identity urn ->
  (k < length (first :: rest))%nat ->
  exists written,
    journal (snd (setDefaultURN (withFaults db []) channelID contact urn))
    = journal db ++ written
    /\ length written = length (first :: rest)
    /\ fst (setDefaultURN db channelID contact urn) = Some (ErrDriver msg)
    /\ journal (snd (setDefaultURN db channelID contact urn))
       = journal db ++ firstn k written
    /\ faults (snd (setDefaultURN db channelID contact urn)) = fs.
Proof.
  intros Hf Hload Hfirst Hk.
  apply String.eqb_neq in Hfirst.
  exists (List.map updateStmt
            (assignments channelID (urn_Scheme urn) (urn_Identity urn) 50
                         (first :: rest))).
  split; [| split].
  - unfold setDefaultURN.
    rewrite (contactURNsForContact_no_faults (withFaults db []) _ eq_refl).
    change (selectContactURNs (withFaults db []) (contact_ID contact))
      with (selectContactURNs db (contact_ID contact)).
    rewrite Hload, Hfirst.
    rewrite (updateAll_no_faults _ (withFaults db []) _ _ _ _ eq_refl).
    reflexivity.
  - rewrite length_map. apply assignments_length.
  - unfold setDefaultURN, contactURNsForContact, call. rewrite Hf.
    change (selectContactURNs _ (contact_ID contact))
      with (selectContactURNs db (contact_ID contact)).
    rewrite Hload, Hfirst.
    rewrite (updateAll_fails_at (first :: rest) _ channelID (urn_Scheme urn)
               (urn_Identity urn) 50 k msg fs); [| reflexivity | exact Hk].
    cbn [fst snd journal faults]. rewrite List.firstn_map. auto.
Qed.

Lemma setDefaultURN_stops_at_first_failure_witness :
  fst (setDefaultURN (withFaults threeURNs [None; None; Some "deadlock"])
                     (null.mkInt 10 true) (mkDBContact (null.mkInt 7 true))
                     tel15551234)
  = Some (ErrDriver "deadlock")
  /\ journal (snd (setDefaultURN (withFaults threeURNs [None; None; Some "deadlock"])
                                 (null.mkInt 10 true)
                                 (mkDBContact (null.mkInt 7 true)) tel15551234))
     = [UPDATE (Some 1) (Some 10) (Some 7) None 50].
Proof.
  destruct (setDefaultURN_stops_at_first_failure
              (withFaults threeURNs [None; None; Some "deadlock"])
              (null.mkInt 10 true) (mkDBContact (null.mkInt 7 true)) tel15551234
              (scanContactURN (mkRow (Some 1) (Some 1) "tel:+15550000" "tel"
                                     "+15550000" None 60 (Some 20) (Some 7)))
              [scanContactURN (mkRow (Some 1) (Some 2) "tel:+15551234" "tel"
                                     "+15551234" None 50 (Some 20) (Some 7));
               scanContactURN (mkRow (Some 1) (Some 3) "telegram:12345" "telegram"
                                     "12345" None 40 (Some 30) (Some 7))]
              1%nat "deadlock" [] eq_refl eq_refl ltac:(discriminate)
              ltac:(simpl; lia))
    as (written & _ & _ & Herr & _).
  split; [exact Herr | reflexivity].
Defined.

(** *** The query of [contactURNsForContact] *)

Definition priority_desc (a b : Row) : Prop := col_priority b <= col_priority a.

Lemma insert_desc_Permutation r l : Permutation (insert_desc r l) (r :: l).
Proof.
  induction l as [| r' rest IH]; simpl; [reflexivity |].
  destruct (col_priority r' <=? col_priority r)%Z; [reflexivity |].
  rewrite IH. apply perm_swap.
Qed.

Lemma order_by_priority_desc_Permutation l :
  Permutation (order_by_priority_desc l) l.
Proof.
  induction l as [| r rest IH]; simpl; [reflexivity |].
  rewrite insert_desc_Permutation, IH. reflexivity.
Qed.

Lemma insert_desc_sorted r l :
  StronglySorted priority_desc l -> StronglySorted priority_desc (insert_desc r l).
Proof.
  induction 1 as [| r' rest Hs IH Hall]; simpl.
  - repeat constructor.
  - destruct (Z.leb_spec (col_priority r') (col_priority r)) as [Hle | Hgt].
    + constructor; [constructor; assumption |].
      constructor; [exact Hle |].
      eapply List.Forall_impl; [| exact Hall].
      unfold priority_desc. intros a Ha. lia.
    + constructor; [exact IH |].
      apply (Permutation_Forall (Permutation_sym (insert_desc_Permutation r rest))).
      constructor; [unfold priority_desc; lia | exact Hall].
Qed.

Lemma order_by_priority_desc_sorted l :
  StronglySorted priority_desc (order_by_priority_desc l).
Proof.
  induction l as [| r rest IH]; simpl; [constructor |].
  apply insert_desc_sorted, IH.
Qed.

(** When the query is executed, [contactURNsForContact] returns the scans of
    the rows of the contact, each once, highest priority first, and leaves
    the store alone; for a contact id that is not valid (NULL) it returns no
    URN, whatever the table holds. *)
Theorem contactURNsForContact_rows_of_contact db contactID :
  faults db = [] ->
  exists rows,
    contactURNsForContact db contactID = (inl (List.map scanContactURN rows), db)
    /\ Permutation rows
         (List.filter (fun r => sql_eq (col_contact_id r) (null.int_value contactID))
                      (contacts_contacturn db))
    /\ StronglySorted priority_desc rows
    /\ (forall r, In r rows <->
                  In r (contacts_contacturn db)
                  /\ null.IntValid contactID = true
                  /\ col_contact_id r = Some (null.Int64 contactID))
    /\ (null.IntValid contactID = false -> rows = []).
Proof.
  intros Hf. exists (selectContactURNs db contactID).
  split; [apply contactURNsForContact_no_faults; exact Hf |].
  unfold selectContactURNs.
  split; [apply order_by_priority_desc_Permutation |].
  split; [apply order_by_priority_desc_sorted |].
  assert (Hmem : forall r,
            In r (order_by_priority_desc
                    (List.filter
                       (fun r => sql_eq (col_contact_id r) (null.int_value contactID))
                       (contacts_contacturn db)))
            <-> In r (contacts_contacturn db)
                /\ null.IntValid contactID = true
                /\ col_contact_id r = Some (null.Int64 contactID)).
  { intros r. split.
    - intros Hin.
      apply (Permutation_in _ (order_by_priority_desc_Permutation _)) in Hin.
      apply List.filter_In in Hin. destruct Hin as [Hin Heq].
      split; [exact Hin |]. unfold null.int_value in Heq.
      destruct (col_contact_id r) as [c |]; [| discriminate Heq].
      destruct (null.IntValid contactID); [| discriminate Heq].
      simpl in Heq. apply Z.eqb_eq in Heq. subst c. split; reflexivity.
    - intros (Hin & Hv & Hc).
      apply (Permutation_in _ (Permutation_sym (order_by_priority_desc_Permutation _))).
      apply List.filter_In. split; [exact Hin |].
      unfold null.int_value. rewrite Hv, Hc. simpl. apply Z.eqb_refl. }
  split; [exact Hmem |].
  intros Hinvalid.
  destruct (order_by_priority_desc _) as [| r rows] eqn:Hrows; [reflexivity |].
  destruct (proj1 (Hmem r) (or_introl eq_refl)) as (_ & Hv & _). congruence.
Qed.

Lemma contactURNsForContact_rows_of_contact_witness :
  exists rows,
    contactURNsForContact threeURNs (null.mkInt 7 true)
    = (inl (List.map scanContactURN rows), threeURNs)
    /\ Permutation rows (contacts_contacturn threeURNs)
    /\ StronglySorted priority_desc rows.
Proof.
  destruct (contactURNsForContact_rows_of_contact threeURNs (null.mkInt 7 true)
              eq_refl) as (rows & Hrun & Hperm & Hsorted & _).
  exists rows. split; [exact Hrun |]. split; [exact Hperm | exact Hsorted].
Defined.

(** *** Re-loading the URNs after [setDefaultURN] *)

(** [id] is the primary key of the table: never NULL, and two rows with the
    same id are the same row. *)
Definition primaryKey (t : list Row) : Prop :=
  (forall r, In r t -> col_id r <> None)
  /\ (forall r r0, In r t -> In r0 t -> col_id r = col_id r0 -> r = r0).

Lemma fold_updateRow_rows us : forall t,
  fold_left (fun t u => List.map (updateRow u) t) us t
  = List.map (fun r => fold_left (fun x u => updateRow u x) us r) t.
Proof.
  induction us as [| u us IH]; intros t; simpl.
  - symmetry. apply map_id.
  - rewrite IH, List.map_map. reflexivity.
Qed.

(** The struct the loop writes for a loaded row. *)
Definition madeFrom (channelID : null.Int) (identity : string)
           (r : Row) (u : DBContactURN) : Prop :=
  ID u = null.scan_int (col_id r)
  /\ ContactID u = null.scan_int (col_contact_id r)
  /\ (col_identity r = identity -> Priority u = 99 /\ ChannelID u = channelID)
  /\ (col_identity r <> identity -> Priority u <= 50).

Lemma assignments_madeFrom channelID scheme identity rows : forall curr,
  curr <= 50 ->
  Forall2 (madeFrom channelID identity) rows
          (assignments channelID scheme identity curr
                       (List.map scanContactURN rows)).
Proof.
  induction rows as [| r rows IH]; intros curr Hcurr; simpl; [constructor |].
  constructor.
  - unfold madeFrom, reassign. simpl.
    destruct (String.eqb (col_identity r) identity) eqn:He.
    + apply String.eqb_eq in He. simpl.
      repeat split; try reflexivity. intros Hne. contradiction.
    + apply String.eqb_neq in He. simpl.
      destruct (String.eqb (col_scheme r) TelScheme && String.eqb scheme TelScheme);
        simpl; (split; [reflexivity |]; split; [reflexivity |];
                split; [intros Heq; contradiction | intros _; exact Hcurr]).
  - apply IH. rewrite reassign_snd. lia.
Qed.

(** What a row of the contact looks like once the loop has written. *)
Definition reprioritised (channelID : null.Int) (identity : string)
           (r x : Row) : Prop :=
  (col_identity r = identity ->
   col_priority x = 99 /\ col_channel_id x = null.int_value channelID)
  /\ (col_identity r <> identity -> col_priority x <= 50).

Lemma updateRow_madeFrom t channelID identity r r0 u x :
  primaryKey t -> In r t -> In r0 t ->
  madeFrom channelID identity r0 u ->
  rowKey x = rowKey r -> col_contact_id x = col_contact_id r ->
  rowKey (updateRow u x) = rowKey r
  /\ col_contact_id (updateRow u x) = col_contact_id r
  /\ (reprioritised channelID identity r x ->
      reprioritised channelID identity r (updateRow u x))
  /\ (r0 = r -> reprioritised channelID identity r (updateRow u x)).
Proof.
  intros [Hnn Hpk] Hr Hr0 (Hid & Hct & Htarget & Hother) Hkey Hcontact.
  assert (Hxid : col_id x = col_id r) by (unfold rowKey in Hkey; congruence).
  split; [rewrite updateRow_key; exact Hkey |].
  unfold updateRow. rewrite Hid, null.value_scan_int, Hxid.
  destruct (sql_eq (col_id r) (col_id r0)) eqn:Hm.
  - assert (Hsame : r0 = r).
    { apply (Hpk r0 r Hr0 Hr).
      destruct (col_id r) as [i |], (col_id r0) as [j |]; try discriminate Hm.
      simpl in Hm. apply Z.eqb_eq in Hm. congruence. }
    subst r0. simpl. rewrite Hct, null.value_scan_int.
    assert (Hgood : reprioritised channelID identity r
              {| col_org_id := col_org_id x; col_id := col_id x;
                 col_identity := col_identity x; col_scheme := col_scheme x;
                 col_path := col_path x;
                 col_display := null.string_value (Display u);
                 col_priority := Priority u;
                 col_channel_id := null.int_value (ChannelID u);
                 col_contact_id := col_contact_id r |}).
    { split; simpl.
      - intros He. destruct (Htarget He) as [-> ->]. split; reflexivity.
      - exact Hother. }
    split; [reflexivity |]. split; intros _; exact Hgood.
  - split; [exact Hcontact |]. split; [auto |].
    intros ->. exfalso.
    specialize (Hnn r Hr). destruct (col_id r) as [i |]; [| contradiction].
    simpl in Hm. rewrite Z.eqb_refl in Hm. discriminate Hm.
Qed.

Lemma fold_updateRow_row t channelID identity r rows written :
  primaryKey t -> In r t -> (forall r0, In r0 rows -> In r0 t) ->
  Forall2 (madeFrom channelID identity) rows written ->
  forall x,
    rowKey x = rowKey r -> col_contact_id x = col_contact_id r ->
    rowKey (fold_left (fun x u => updateRow u x) written x) = rowKey r
    /\ col_contact_id (fold_left (fun x u => updateRow u x) written x)
       = col_contact_id r
    /\ (reprioritised channelID identity r x \/ In r rows ->
        reprioritised channelID identity r
                      (fold_left (fun x u => updateRow u x) written x)).
Proof.
  intros Hpk Hr Hsub Hall.
  induction Hall as [| r0 u rows written Hmade Hall IH]; intros x Hkey Hcontact.
  - simpl. split; [exact Hkey |]. split; [exact Hcontact |].
    intros [Hgood | []]. exact Hgood.
  - simpl.
    destruct (updateRow_madeFrom t channelID identity r r0 u x Hpk Hr
                (Hsub r0 (or_introl eq_refl)) Hmade Hkey Hcontact)
      as (Hkey' & Hcontact' & Hkeep & Hown).
    destruct (IH (fun r1 H1 => Hsub r1 (or_intror H1)) _ Hkey' Hcontact')
      as (Hk & Hc & Hg).
    split; [exact Hk |]. split; [exact Hc |].
    intros [Hgood | [Heq | Hin]].
    + apply Hg. left. apply Hkeep. exact Hgood.
    + apply Hg. left. apply Hown. exact Heq.
    + apply Hg. right. exact Hin.
Qed.

Lemma filter_map_same {A : Type} (p : A -> bool) (f : A -> A) (l : list A) :
  (forall x, In x l -> p (f x) = p x) ->
  List.filter p (List.map f l) = List.map f (List.filter p l).
Proof.
  induction l as [| a l IH]; intros Hp; simpl; [reflexivity |].
  rewrite (Hp a (or_introl eq_refl)), (IH (fun x Hx => Hp x (or_intror Hx))).
  destruct (p a); reflexivity.
Qed.

(** After [setDefaultURN] has run its loop on a table whose ids are a
    primary key, with a driver that executes every statement and the target
    among the URNs loaded, loading the contact's URNs again gives as many
    URNs, a URN of the target identity first, with priority 99 and the new
    channel, and priority at most 50 for every URN of another identity. *)
Theorem setDefaultURN_then_reload_target_first
        db channelID contact urn first rest target_row :
  faults db = [] ->
  primaryKey (contacts_contacturn db) ->
  selectContactURNs db (contact_ID contact) = first :: rest ->
  col_identity first <> urn_Identity urn ->
  In target_row (first :: rest) ->
  col_identity target_row = urn_Identity urn ->
  exists top others,
    contactURNsForContact (snd (setDefaultURN db channelID contact urn))
                          (contact_ID contact)
    = (inl (top :: others), snd (setDefaultURN db channelID contact urn))
    /\ fst (setDefaultURN db channelID contact urn) = None
    /\ length (top :: others) = length (first :: rest)
    /\ Identity top = urn_Identity urn
    /\ Priority top = 99
    /\ null.int_value (ChannelID top) = null.int_value channelID
    /\ forall o, In o others -> Identity o <> urn_Identity urn -> Priority o <= 50.
Proof.
  intros Hf Hpk Hload Hfirst Htin Htarget.
  set (cid := contact_ID contact) in *.
  set (pc := fun r : Row => sql_eq (col_contact_id r) (null.int_value cid)).
  set (t := contacts_contacturn db) in *.
  set (rows := first :: rest) in *.
  set (written := assignments channelID (urn_Scheme urn) (urn_Identity urn) 50
                              (List.map scanContactURN rows)).
  set (F := fun r => fold_left (fun x u => updateRow u x) written r).
  assert (Hperm : Permutation rows (List.filter pc t)).
  { rewrite <- Hload. apply order_by_priority_desc_Permutation. }
  assert (Hsub : forall r0, In r0 rows -> In r0 t).
  { intros r0 Hin. apply (Permutation_in _ Hperm) in Hin.
    apply List.filter_In in Hin. tauto. }
  assert (Hmade : Forall2 (madeFrom channelID (urn_Identity urn)) rows written)
    by (apply assignments_madeFrom; lia).
  assert (HF : forall r, In r t ->
             rowKey (F r) = rowKey r
             /\ col_contact_id (F r) = col_contact_id r
             /\ (In r rows ->
                 reprioritised channelID (urn_Identity urn) r (F r))).
  { intros r Hr.
    destruct (fold_updateRow_row t channelID (urn_Identity urn) r rows written
                Hpk Hr Hsub Hmade r eq_refl eq_refl) as (Hk & Hc & Hg).
    split; [exact Hk |]. split; [exact Hc |]. intros Hin. apply Hg. right. exact Hin. }
  assert (Hrun : setDefaultURN db channelID contact urn
                 = (None, {| contacts_contacturn := List.map F t;
                             next_id := next_id db;
                             journal := journal db ++ List.map updateStmt written;
                             faults := [] |})).
  { unfold setDefaultURN.
    rewrite (contactURNsForContact_no_faults _ _ Hf). fold cid. rewrite Hload.
    unfold rows. cbn [List.map].
    assert (He : String.eqb (Identity (scanContactURN first)) (urn_Identity urn) = false)
      by (apply String.eqb_neq; exact Hfirst).
    rewrite He.
    rewrite (updateAll_no_faults _ _ _ _ _ _ Hf), fold_updateRow_rows.
    reflexivity. }
  rewrite Hrun. cbn [fst snd].
  rewrite contactURNsForContact_no_faults by reflexivity.
  unfold selectContactURNs. cbn [contacts_contacturn]. fold cid. fold pc.
  rewrite (filter_map_same pc F t)
    by (intros x Hx; unfold pc; rewrite (proj1 (proj2 (HF x Hx))); reflexivity).
  set (reloaded := order_by_priority_desc (List.map F (List.filter pc t))).
  assert (Hperm' : Permutation reloaded (List.map F (List.filter pc t)))
    by apply order_by_priority_desc_Permutation.
  assert (Hsorted : StronglySorted priority_desc reloaded)
    by apply order_by_priority_desc_sorted.
  assert (Hfrom : forall x, In x reloaded ->
             exists r, In r rows /\ x = F r).
  { intros x Hx. apply (Permutation_in _ Hperm') in Hx.
    apply List.in_map_iff in Hx. destruct Hx as (r & <- & Hr).
    exists r. split; [| reflexivity].
    apply (Permutation_in _ (Permutation_sym Hperm)). exact Hr. }
  assert (Htop99 : In (F target_row) reloaded).
  { apply (Permutation_in _ (Permutation_sym Hperm')).
    apply List.in_map. apply (Permutation_in _ Hperm). exact Htin. }
  assert (Hlen : length reloaded = length rows).
  { rewrite (Permutation_length Hperm'), length_map.
    symmetry. apply Permutation_length. exact Hperm. }
  destruct reloaded as [| top others] eqn:Hre; [destruct Htop99 |].
  exists (scanContactURN top), (List.map scanContactURN others).
  split; [reflexivity |]. split; [reflexivity |].
  split; [simpl in *; rewrite length_map; exact Hlen |].
  assert (H99 : col_priority (F target_row) = 99).
  { destruct (HF target_row (Hsub _ Htin)) as (_ & _ & Hg).
    exact (proj1 (proj1 (Hg Htin) Htarget)). }
  assert (Hmax : 99 <= col_priority top).
  { destruct Htop99 as [Heq | Hin]; [rewrite Heq; lia |].
    inversion Hsorted as [| a l Hs Hall]; subst.
    rewrite List.Forall_forall in Hall. specialize (Hall _ Hin).
    unfold priority_desc in Hall. lia. }
  destruct (Hfrom top (or_introl eq_refl)) as (rtop & Hrtop & Htopeq).
  destruct (HF rtop (Hsub _ Hrtop)) as (Hk & _ & Hg).
  specialize (Hg Hrtop). destruct Hg as [Hg1 Hg2].
  assert (Hidtop : col_identity top = col_identity rtop)
    by (rewrite Htopeq; unfold rowKey in Hk; congruence).
  destruct (String.eqb_spec (col_identity rtop) (urn_Identity urn)) as [He | Hne].
  - destruct (Hg1 He) as [Hp Hc]. rewrite <- Htopeq in Hp, Hc.
    split; [simpl; congruence |]. split; [exact Hp |].
    split; [simpl; rewrite null.value_scan_int; exact Hc |].
    intros o Ho Hoid. apply List.in_map_iff in Ho.
    destruct Ho as (x & <- & Hx). simpl in *.
    destruct (Hfrom x (or_intror Hx)) as (rx & Hrx & Hxeq).
    destruct (HF rx (Hsub _ Hrx)) as (Hkx & _ & Hgx).
    rewrite Hxeq in Hoid |- *.
    apply (proj2 (Hgx Hrx)).
    unfold rowKey in Hkx. congruence.
  - exfalso. specialize (Hg2 Hne). rewrite <- Htopeq in Hg2. lia.
Qed.

Lemma setDefaultURN_then_reload_target_first_witness :
  exists top others,
    contactURNsForContact
      (snd (setDefaultURN threeURNs (null.mkInt 10 true)
                          (mkDBContact (null.mkInt 7 true)) tel15551234))
      (null.mkInt 7 true)
    = (inl (top :: others),
       snd (setDefaultURN threeURNs (null.mkInt 10 true)
                          (mkDBContact (null.mkInt 7 true)) tel15551234))
    /\ Identity top = "tel:+15551234"
    /\ Priority top = 99
    /\ null.int_value (ChannelID top) = Some 10.
Proof.
  assert (Hpk : primaryKey (contacts_contacturn threeURNs)).
  { split.
    - intros r Hr. simpl in Hr.
      destruct Hr as [<- | [<- | [<- | []]]]; discriminate.
    - intros r r0 Hr Hr0. simpl in Hr, Hr0.
      destruct Hr as [<- | [<- | [<- | []]]];
        destruct Hr0 as [<- | [<- | [<- | []]]];
        simpl; intros Heq; try reflexivity; discriminate Heq. }
  destruct (setDefaultURN_then_reload_target_first
              threeURNs (null.mkInt 10 true) (mkDBContact (null.mkInt 7 true))
              tel15551234
              (mkRow (Some 1) (Some 1) "tel:+15550000" "tel" "+15550000" None 60
                     (Some 20) (Some 7))
              [mkRow (Some 1) (Some 2) "tel:+15551234" "tel" "+15551234" None 50
                     (Some 20) (Some 7);
               mkRow (Some 1) (Some 3) "telegram:12345" "telegram" "12345" None 40
                     (Some 30) (Some 7)]
              (mkRow (Some 1) (Some 2) "tel:+15551234" "tel" "+15551234" None 50
                     (Some 20) (Some 7))
              eq_refl Hpk eq_refl ltac:(discriminate)
              ltac:(right; left; reflexivity) eq_refl)
    as (top & others & Hrun & _ & _ & Hid & Hp & Hc & _).
  exists top, others. auto.
Defined.

(** *** [contactURNForURN] called again *)

(** The rows [selectOrgURN] chooses from. *)
Definition matchesOrgURN (org : null.Int) (identity : string) (r : Row) : bool :=
  sql_eq (col_org_id r) (null.int_value org) && String.eqb (col_identity r) identity.

Lemma selectOrgURN_None db org identity :
  selectOrgURN db org identity = None ->
  List.filter (matchesOrgURN org identity) (contacts_contacturn db) = [].
Proof.
  unfold selectOrgURN. fold (matchesOrgURN org identity).
  intros Hnone.
  pose proof (order_by_priority_desc_Permutation
                (List.filter (matchesOrgURN org identity) (contacts_contacturn db)))
    as Hperm.
  destruct (order_by_priority_desc _) as [| r rows]; [| discriminate Hnone].
  apply Permutation_nil. exact Hperm.
Qed.

Lemma selectOrgURN_Some db org identity r :
  selectOrgURN db org identity = Some r ->
  In r (contacts_contacturn db) /\ matchesOrgURN org identity r = true.
Proof.
  unfold selectOrgURN. fold (matchesOrgURN org identity).
  intros Hsome.
  pose proof (order_by_priority_desc_Permutation
                (List.filter (matchesOrgURN org identity) (contacts_contacturn db)))
    as Hperm.
  destruct (order_by_priority_desc _) as [| r0 rows]; [discriminate Hsome |].
  injection Hsome as ->.
  apply List.filter_In. apply (Permutation_in _ Hperm). left. reflexivity.
Qed.

(** The pairs that are to be unique in the table. *)
Definition orgIdentity (r : Row) : option Z * string :=
  (col_org_id r, col_identity r).

Lemma orgIdentity_updateRow u r : orgIdentity (updateRow u r) = orgIdentity r.
Proof.
  unfold updateRow.
  destruct (sql_eq (col_id r) (null.int_value (ID u))); reflexivity.
Qed.

(** Whatever the driver does, [contactURNForURN] for a valid org keeps
    (org, identity) unique: it inserts only when no row of the table has the
    pair, and its update leaves the pair of every row alone. *)
Theorem contactURNForURN_keeps_identities_unique
        db org channelID contactID urn :
  null.IntValid org = true ->
  List.NoDup (List.map orgIdentity (contacts_contacturn db)) ->
  List.NoDup (List.map orgIdentity
           (contacts_contacturn
              (snd (contactURNForURN db org channelID contactID urn)))).
Proof.
  intros Hvalid Hnodup.
  assert (Hcall : forall d, contacts_contacturn (snd (call d)) = contacts_contacturn d).
  { intros d. unfold call. destruct (faults d); reflexivity. }
  assert (Hupd : forall d u,
            List.NoDup (List.map orgIdentity (contacts_contacturn d)) ->
            List.NoDup (List.map orgIdentity
                     (contacts_contacturn (snd (updateContactURN d u))))).
  { intros d u Hd. unfold updateContactURN. specialize (Hcall d).
    destruct (call d) as [[msg |] d1]; simpl in *; [rewrite Hcall; exact Hd |].
    rewrite List.map_map.
    rewrite (map_ext _ orgIdentity (orgIdentity_updateRow u)).
    rewrite Hcall. exact Hd. }
  assert (Hbring : forall d u,
            List.NoDup (List.map orgIdentity (contacts_contacturn d)) ->
            List.NoDup (List.map orgIdentity
                     (contacts_contacturn
                        (snd (bringUpToDate d u channelID contactID urn None))))).
  { intros d u Hd. unfold bringUpToDate.
    destruct (outOfDate u channelID contactID urn); [| exact Hd].
    specialize (Hupd d (with_Channel_Contact_Display u channelID contactID
                          (urn_Display urn)) Hd).
    destruct (updateContactURN d _) as [err d1]. exact Hupd. }
  unfold contactURNForURN, getOrgURN.
  pose proof (Hcall db) as Ht.
  destruct (call db) as [[msg |] db1]; simpl in *; [rewrite Ht; exact Hnodup |].
  destruct (selectOrgURN db1 org (urn_Identity urn)) as [r |] eqn:Hsel.
  - apply Hbring. rewrite Ht. exact Hnodup.
  - unfold insertContactURN.
    pose proof (Hcall db1) as Ht1.
    destruct (call db1) as [[msg |] db2]; simpl in *; [congruence |].
    rewrite bringUpToDate_fresh. simpl.
    rewrite Ht1, Ht, List.map_app. simpl.
    apply List.NoDup_app;
      [exact Hnodup | constructor; [intros [] | constructor] |].
    intros pair Hin [Hnew | []]. subst pair.
    apply List.in_map_iff in Hin.
    destruct Hin as (r & Hr & Hin).
    apply selectOrgURN_None in Hsel. rewrite Ht in Hsel.
    assert (Hmatch : In r (List.filter (matchesOrgURN org (urn_Identity urn))
                                       (contacts_contacturn db))).
    { apply List.filter_In. split; [exact Hin |].
      unfold orgIdentity, insertRow in Hr. simpl in Hr.
      injection Hr as Horg Hid. unfold matchesOrgURN.
      rewrite Horg, Hid, String.eqb_refl. unfold null.int_value. rewrite Hvalid.
      simpl. rewrite Z.eqb_refl. reflexivity. }
    rewrite Hsel in Hmatch. destruct Hmatch.
Qed.

Lemma contactURNForURN_keeps_identities_unique_witness :
  List.NoDup (List.map orgIdentity
           (contacts_contacturn
              (snd (contactURNForURN otherURN (null.mkInt 1 true)
                      (null.mkInt 10 true) (null.mkInt 7 true) tel15551234)))).
Proof.
  apply (contactURNForURN_keeps_identities_unique otherURN (null.mkInt 1 true)
           (null.mkInt 10 true) (null.mkInt 7 true) tel15551234 eq_refl).
  simpl. constructor; [intros [] | constructor].
Defined.

(** A nullable value as [Scan] would store it: NULL is the zero value with
    the flag down. *)
Definition canonicalInt (a : null.Int) : Prop :=
  null.scan_int (null.int_value a) = a.

Definition canonicalString (a : null.String) : Prop :=
  null.scan_string (null.string_value a) = a.

Lemma insert_desc_map (f : Row -> Row) r l :
  col_priority (f r) = col_priority r ->
  List.Forall (fun x => col_priority (f x) = col_priority x) l ->
  insert_desc (f r) (List.map f l) = List.map f (insert_desc r l).
Proof.
  intros Hr. induction 1 as [| x l Hx _ IH]; simpl; [reflexivity |].
  rewrite Hr, Hx. destruct (col_priority x <=? col_priority r)%Z; simpl.
  - reflexivity.
  - rewrite IH. reflexivity.
Qed.

Lemma order_by_priority_desc_map (f : Row -> Row) l :
  List.Forall (fun x => col_priority (f x) = col_priority x) l ->
  order_by_priority_desc (List.map f l) = List.map f (order_by_priority_desc l).
Proof.
  induction 1 as [| x l Hx Hl IH]; simpl; [reflexivity |].
  rewrite IH. apply insert_desc_map; [exact Hx |].
  apply (Permutation_Forall (Permutation_sym (order_by_priority_desc_Permutation l))).
  exact Hl.
Qed.

(** [contactURNForURN] is idempotent: on a table whose ids are a primary
    key, with a driver that executes every statement, a valid org and
    channel, contact and display as a scan stores them, a second call with
    the same arguments returns the struct of the first without error and
    writes nothing, whether the first call inserted, updated or found the
    row up to date. *)
Theorem contactURNForURN_idempotent db org channelID contactID urn :
  faults db = [] ->
  primaryKey (contacts_contacturn db) ->
  null.IntValid org = true ->
  canonicalInt channelID ->
  canonicalInt contactID ->
  canonicalString (urn_Display urn) ->
  snd (fst (contactURNForURN db org channelID contactID urn)) = None
  /\ contactURNForURN (snd (contactURNForURN db org channelID contactID urn))
                      org channelID contactID urn
     = contactURNForURN db org channelID contactID urn.
Proof.
  intros Hf [Hnn Hpk] Hvalid Hch Hct Hdisp.
  assert (Horg : null.scan_int (null.int_value org) = org).
  { destruct org as [i v]. simpl in Hvalid. subst v. reflexivity. }
  destruct (selectOrgURN db org (urn_Identity urn)) as [r |] eqn:Hsel.
  - (* the row is there *)
    destruct (selectOrgURN_Some _ _ _ _ Hsel) as [Hin Hmatch].
    destruct (col_id r) as [i |] eqn:Hid; [| exact (False_ind _ (Hnn r Hin Hid))].
    assert (Hfirst : contactURNForURN db org channelID contactID urn
              = bringUpToDate db (scanOrgURN r) channelID contactID urn None).
    { unfold contactURNForURN.
      rewrite (getOrgURN_no_faults _ _ _ _ Hf), Hsel. reflexivity. }
    rewrite Hfirst. unfold bringUpToDate.
    destruct (outOfDate (scanOrgURN r) channelID contactID urn) eqn:Hout.
    + rewrite (updateContactURN_no_faults _ _ Hf). cbn [fst snd].
      split; [reflexivity |].
      set (u' := with_Channel_Contact_Display (scanOrgURN r) channelID contactID
                                               (urn_Display urn)).
      assert (Hrow : forall x, In x (contacts_contacturn db) ->
                orgIdentity (updateRow u' x) = orgIdentity x
                /\ col_priority (updateRow u' x) = col_priority x).
      { intros x Hx. split; [apply orgIdentity_updateRow |].
        unfold updateRow. simpl. rewrite Hid, null.value_scan_int.
        destruct (sql_eq (col_id x) (Some i)) eqn:Hm; [| reflexivity].
        simpl. f_equal. symmetry. apply (Hpk x r Hx Hin).
        destruct (col_id x) as [j |]; [| discriminate Hm].
        simpl in Hm. apply Z.eqb_eq in Hm. congruence. }
      assert (Hsel' : selectOrgURN
                        {| contacts_contacturn :=
                             List.map (updateRow u') (contacts_contacturn db);
                           next_id := next_id db;
                           journal := journal db ++ [updateStmt u'];
                           faults := [] |} org (urn_Identity urn)
                      = Some (updateRow u' r)).
      { unfold selectOrgURN in Hsel |- *. cbn [contacts_contacturn].
        fold (matchesOrgURN org (urn_Identity urn)) in Hsel |- *.
        rewrite (filter_map_same (matchesOrgURN org (urn_Identity urn)))
          by (intros x Hx; unfold matchesOrgURN;
              pose proof (proj1 (Hrow x Hx)) as Ho; unfold orgIdentity in Ho;
              injection Ho as -> ->; reflexivity).
        rewrite order_by_priority_desc_map.
        - destruct (order_by_priority_desc _) as [| r0 rows];
            [discriminate Hsel |].
          injection Hsel as ->. reflexivity.
        - apply List.Forall_forall. intros x Hx.
          apply List.filter_In in Hx. exact (proj2 (Hrow x (proj1 Hx))). }
      unfold contactURNForURN.
      rewrite getOrgURN_no_faults by reflexivity. rewrite Hsel'.
      assert (Hscan : scanOrgURN (updateRow u' r) = u').
      { unfold updateRow, u'. simpl. rewrite Hid, null.value_scan_int. simpl.
        rewrite Z.eqb_refl. unfold scanOrgURN.
        simpl. rewrite Hid. unfold canonicalInt, canonicalString in *.
        rewrite Hch, Hct, Hdisp. reflexivity. }
      rewrite Hscan. unfold bringUpToDate.
      assert (Hsettled : outOfDate u' channelID contactID urn = false).
      { unfold outOfDate, u'. simpl.
        rewrite (proj2 (null.int_eqb_eq _ _) eq_refl).
        rewrite (proj2 (null.int_eqb_eq _ _) eq_refl).
        rewrite (proj2 (null.string_eqb_eq _ _) eq_refl). reflexivity. }
      rewrite Hsettled. reflexivity.
    + cbn [fst snd]. split; [reflexivity |].
      unfold contactURNForURN.
      rewrite (getOrgURN_no_faults _ _ _ _ Hf), Hsel.
      unfold bringUpToDate. rewrite Hout. reflexivity.
  - (* the row is inserted *)
    assert (Hfirst : contactURNForURN db org channelID contactID urn
              = ((Some (with_ID (newDBContactURN org channelID contactID urn)
                                (null.mkInt (next_id db) true)), None),
                 {| contacts_contacturn :=
                      contacts_contacturn db
                      ++ [freshRow db org channelID contactID urn];
                    next_id := next_id db + 1;
                    journal := journal db
                               ++ [INSERT (freshRow db org channelID contactID urn)];
                    faults := [] |})).
    { unfold contactURNForURN.
      rewrite (getOrgURN_no_faults _ _ _ _ Hf), Hsel.
      unfold insertContactURN. rewrite (call_no_faults db Hf).
      rewrite bringUpToDate_fresh, Hf. reflexivity. }
    rewrite Hfirst. cbn [fst snd]. split; [reflexivity |].
    assert (Hsel' : selectOrgURN
                      {| contacts_contacturn :=
                           contacts_contacturn db
                           ++ [freshRow db org channelID contactID urn];
                         next_id := next_id db + 1;
                         journal := journal db
                                    ++ [INSERT (freshRow db org channelID contactID urn)];
                         faults := [] |} org (urn_Identity urn)
                    = Some (freshRow db org channelID contactID urn)).
    { apply selectOrgURN_None in Hsel.
      unfold selectOrgURN. cbn [contacts_contacturn].
      fold (matchesOrgURN org (urn_Identity urn)).
      rewrite List.filter_app, Hsel. simpl.
      assert (Hm : matchesOrgURN org (urn_Identity urn)
                     (freshRow db org channelID contactID urn) = true).
      { unfold matchesOrgURN, freshRow. simpl. rewrite String.eqb_refl.
        unfold null.int_value. rewrite Hvalid. simpl. rewrite Z.eqb_refl.
        reflexivity. }
      rewrite Hm. reflexivity. }
    unfold contactURNForURN.
    rewrite getOrgURN_no_faults by reflexivity. rewrite Hsel'.
    assert (Hscan : scanOrgURN (freshRow db org channelID contactID urn)
                    = with_ID (newDBContactURN org channelID contactID urn)
                              (null.mkInt (next_id db) true)).
    { unfold scanOrgURN, freshRow, with_ID, newDBContactURN. simpl.
      unfold canonicalInt, canonicalString in *.
      rewrite Horg, Hch, Hct, Hdisp. reflexivity. }
    rewrite Hscan, bringUpToDate_fresh. reflexivity.
Qed.

Lemma contactURNForURN_idempotent_witness :
  contactURNForURN
    (snd (contactURNForURN emptyDB (null.mkInt 1 true) (null.mkInt 10 true)
                           (null.mkInt 7 true) tel15551234))
    (null.mkInt 1 true) (null.mkInt 10 true) (null.mkInt 7 true) tel15551234
  = contactURNForURN emptyDB (null.mkInt 1 true) (null.mkInt 10 true)
                     (null.mkInt 7 true) tel15551234.
Proof.
  refine (proj2 (contactURNForURN_idempotent emptyDB (null.mkInt 1 true)
                   (null.mkInt 10 true) (null.mkInt 7 true) tel15551234
                   eq_refl _ eq_refl eq_refl eq_refl eq_refl)).
  split; [intros r [] | intros r r0 []].
Defined.

(** With an org id that is not valid (NULL) the lookup matches no row, so
    every call that the driver executes inserts a row, whatever the table
    holds: a second call leaves two rows for the identity. *)
Theorem contactURNForURN_null_org_inserts db org channelID contactID urn :
  faults db = [] ->
  null.IntValid org = false ->
  contacts_contacturn (snd (contactURNForURN db org channelID contactID urn))
  = contacts_contacturn db ++ [freshRow db org channelID contactID urn]
  /\ col_org_id (freshRow db org channelID contactID urn) = None
  /\ length (contacts_contacturn
               (snd (contactURNForURN
                       (snd (contactURNForURN db org channelID contactID urn))
                       org channelID contactID urn)))
     = S (S (length (contacts_contacturn db))).
Proof.
  intros Hf Hinvalid.
  assert (Hnone : forall d, selectOrgURN d org (urn_Identity urn) = None).
  { intros d. unfold selectOrgURN. fold (matchesOrgURN org (urn_Identity urn)).
    assert (Hnil : List.filter (matchesOrgURN org (urn_Identity urn))
                               (contacts_contacturn d) = []).
    { induction (contacts_contacturn d) as [| r t IH]; [reflexivity |].
      simpl. unfold matchesOrgURN at 1. unfold null.int_value.
      rewrite Hinvalid. destruct (col_org_id r); simpl; exact IH. }
    rewrite Hnil. reflexivity. }
  assert (Hrun : forall d, faults d = [] ->
            contactURNForURN d org channelID contactID urn
            = ((Some (with_ID (newDBContactURN org channelID contactID urn)
                              (null.mkInt (next_id d) true)), None),
               {| contacts_contacturn :=
                    contacts_contacturn d ++ [freshRow d org channelID contactID urn];
                  next_id := next_id d + 1;
                  journal := journal d
                             ++ [INSERT (freshRow d org channelID contactID urn)];
                  faults := [] |})).
  { intros d Hd. unfold contactURNForURN.
    rewrite (getOrgURN_no_faults _ _ _ _ Hd), Hnone.
    unfold insertContactURN. rewrite (call_no_faults d Hd).
    rewrite bringUpToDate_fresh, Hd. reflexivity. }
  rewrite (Hrun db Hf). cbn [snd]. split; [reflexivity |]. split.
  - unfold freshRow, null.int_value. simpl. rewrite Hinvalid. reflexivity.
  - rewrite Hrun by reflexivity. cbn [snd contacts_contacturn].
    rewrite !length_app. simpl. lia.
Qed.

Lemma contactURNForURN_null_org_inserts_witness :
  contacts_contacturn
    (snd (contactURNForURN emptyDB (null.mkInt 0 false) (null.mkInt 10 true)
                           (null.mkInt 7 true) tel15551234))
  = [mkRow None (Some 1) "tel:+15551234" "tel" "+15551234" None 0 (Some 10)
           (Some 7)].
Proof.
  exact (proj1 (contactURNForURN_null_org_inserts emptyDB (null.mkInt 0 false)
                  (null.mkInt 10 true) (null.mkInt 7 true) tel15551234
                  eq_refl eq_refl)).
Defined.


Lemma contactURNForURN_writes_once_or_fails_witness :
  contacts_contacturn
    (snd (contactURNForURN (withFaults emptyDB [None; Some "connection lost"])
            (null.mkInt 1 true) (null.mkInt 10 true) (null.mkInt 7 true)
            tel15551234))
  = []
  /\ journal
       (snd (contactURNForURN (withFaults emptyDB [None; Some "connection lost"])
               (null.mkInt 1 true) (null.mkInt 10 true) (null.mkInt 7 true)
               tel15551234))
     = [].
Proof.
  apply (proj2 (contactURNForURN_writes_once_or_fails
                  (withFaults emptyDB [None; Some "connection lost"])
                  (null.mkInt 1 true) (null.mkInt 10 true) (null.mkInt 7 true)
                  tel15551234)).
  vm_compute. discriminate.
Defined.

End Rapidpro.

(** ** What the handlers use of the [courier] package *)
Module Courier.

(** Modelled from the spec: [courier.MsgStatusValue] is declared outside
    these sources; the statuses of the spec's data model (pending, queued,
    wired, sent, delivered, errored, failed). *)
Inductive MsgStatusValue : Type :=
| MsgPending | MsgQueued | MsgWired | MsgSent | MsgDelivered | MsgErrored
| MsgFailed.

(** The message a status is for: [NewMsgStatusForID] or
    [NewMsgStatusForExternalID]. *)
Inductive MsgRef : Type :=
| ForID (id : Z)
| ForExternalID (externalID : string).

Record MsgStatus := mkMsgStatus {
  status_channel : string;
  status_msg : MsgRef;
  status_value : MsgStatusValue
}.

(** The collaborators of a status handler: the backend's [WriteMsgStatus]
    and [courier.WriteStatusSuccess], each with the error it returns. *)
Record World := mkWorld {
  WriteMsgStatus : MsgStatus -> option error;
  WriteStatusSuccess : MsgStatus -> option error
}.

(** *** What the senders use of the [courier] and [utils] packages *)

(** The value [ConfigForKey] returns, an [interface{}]: a string, a bool, or
    a value of another type. *)
Inductive ConfigValue : Type :=
| ConfigString (s : string)
| ConfigBool (b : bool)
| ConfigOther.

(** [v.(bool)] with the second result dropped: false unless [v] is a bool. *)
Definition asBool (v : ConfigValue) : bool :=
  match v with ConfigBool b => b | _ => false end.

(** [courier.Channel] as the senders read it: [UUID()], [Address()], and
    its two configuration accessors, each taking the key and the default. *)
Record Channel := mkChannel {
  UUID : string;
  Address : string;
  StringConfigForKey : string -> string -> string;
  ConfigForKey : string -> ConfigValue -> ConfigValue
}.

(** [courier.Msg] as the senders read it: [ID()] and [ID().String()],
    [Channel()], [URN().Path()], [Text()], [Attachments()], [Priority()]. *)
Record Msg := mkMsg {
  msg_ID : Z;
  msg_ID_String : string;
  msg_Channel : Channel;
  msg_URN_Path : string;
  msg_Text : string;
  msg_Attachments : list string;
  msg_Priority : Z
}.

(** [utils.RequestResponse], of which only the body is read. *)
Record RequestResponse := mkRR { rr_Body : string }.

(** An [*http.Request]: method, URL, body and the headers set on it. *)
Record HTTPRequest := mkHTTPRequest {
  req_method : string;
  req_url : string;
  req_body : string;
  req_headers : list (string * string)
}.

(** A channel log: [NewChannelLogFromRR(description, channel, id, rr)] and
    the [WithError(description, err)] calls made on it, in order. *)
Record ChannelLog := mkChannelLog {
  log_description : string;
  log_rr : RequestResponse;
  log_WithError : list (string * option error)
}.

(** The status a sender returns: [NewMsgStatusForID(channel, id, status)],
    the log added to it, and the [SetStatus] and [SetExternalID] calls made
    on it, in order. *)
Inductive StatusCall : Type :=
| SetStatus (status : MsgStatusValue)
| SetExternalID (externalID : string).

Record SentStatus := mkSentStatus {
  sent_channel : string;
  sent_msg : Z;
  sent_initial : MsgStatusValue;
  sent_log : ChannelLog;
  sent_calls : list StatusCall
}.

(** The status value after the calls. *)
Definition sent_value (s : SentStatus) : MsgStatusValue :=
  fold_left (fun v c => match c with SetStatus v' => v' | SetExternalID _ => v end)
            (sent_calls s) (sent_initial s).

(** What a sender does to the world: a request through
    [utils.MakeHTTPRequest] or [utils.MakeInsecureHTTPRequest], and the
    backend's [StopMsgContact]. *)
Inductive Effect : Type :=
| HTTP (insecure : bool) (req : HTTPRequest)
| StopMsgContact (m : Msg).

(** [strings.Contains(s, "?")] and [strings.Replace(s, " ", "", -1)]. *)
Fixpoint containsQuestionMark (s : string) : bool :=
  match s with
  | EmptyString => false
  | String c rest => Ascii.eqb c "?" || containsQuestionMark rest
  end.

Fixpoint removeSpaces (s : string) : string :=
  match s with
  | EmptyString => EmptyString
  | String c rest =>
      if Ascii.eqb c " " then removeSpaces rest else String c (removeSpaces rest)
  end.


(** *** What the receivers use of the [courier] package *)

(** An incoming message as the receivers build it: the arguments of the
    backend's [NewIncomingMsg] (the channel by its UUID) and the
    [WithExternalID], [WithReceivedOn] (a time in seconds since the epoch,
    UTC) and [WithAttachment] calls made on it, in order. *)
Inductive MsgCall : Type :=
| WithExternalID (externalID : string)
| WithReceivedOn (unix : Z)
| WithAttachment (url : string).

Record IncomingMsg := mkIncomingMsg {
  in_channel : string;
  in_urn : string;
  in_text : string;
  in_calls : list MsgCall
}.

(** The collaborators of a receiver, each with the error it returns: the
    backend's [WriteMsg], [courier.WriteError] and
    [courier.WriteReceiveSuccess]. *)
Record Receiver := mkReceiver {
  WriteMsg : IncomingMsg -> option error;
  WriteError : error -> option error;
  WriteReceiveSuccess : IncomingMsg -> option error
}.

(** What a receiver does to the world: a message handed to the backend, and
    what is written to the response: an error or a success through
    [courier], or a content type, a status code and a body. *)
Inductive Wrote : Type :=
| ToBackend (m : IncomingMsg)
| ErrorReply (err : error)
| SuccessReply (m : IncomingMsg)
| Response (contentType : string) (code : Z) (body : string).

End Courier.

(** ** handlers/kannel/kannel.go *)
Module Kannel.
Import Courier.

Record kannelStatus := mkKannelStatus { ID : Z; Status : Z }.

Definition kannelStatusMapping : gmap Z MsgStatusValue :=
  list_to_map [(1, MsgDelivered); (2, MsgErrored); (4, MsgSent); (8, MsgSent);
               (16, MsgErrored)].

Definition unknownStatus (status : Z) : error :=
  Errorf ("unknown status '" ++ fmt_d status ++ "', must be one of 1,2,4,8,16")%string.

(** [decoded] is what [handlers.DecodeAndValidateQueryParams] made of the
    request. *)
Definition StatusMessage (w : World) (channel : string)
           (decoded : error + kannelStatus) : list MsgStatus * option error :=
  match decoded with
  | inl err => ([], Some err)
  | inr kannelStatus =>
      match kannelStatusMapping !! Status kannelStatus with
      | None => ([], Some (unknownStatus (Status kannelStatus)))
      | Some msgStatus =>
          let status := mkMsgStatus channel (ForID (ID kannelStatus)) msgStatus in
          match WriteMsgStatus w status with
          | Some err => ([], Some err)
          | None => ([status], WriteStatusSuccess w status)
          end
      end
  end.

(** *** [SendMsg] *)

Definition configUseNational : string := "use_national".
Definition configEncoding : string := "encoding".
Definition configVerifySSL : string := "verify_ssl".

Definition encodingDefault : string := "D".
Definition encodingUnicode : string := "U".
Definition encodingSmart : string := "S".

(** What [SendMsg] takes from other packages: the keys
    [courier.ConfigUsername], [courier.ConfigPassword] and
    [courier.ConfigSendURL], [courier.BulkPriority], the server's base URL,
    [courier.GetTextAndAttachments], [phonenumbers.Parse] (no number on an
    error) and [phonenumbers.Format] with [NATIONAL], the two functions of
    [gsm7], [url.Values.Encode], the error of [http.NewRequest], and the two
    ways of [utils] to make the request. *)
Record Deps := mkDeps {
  ConfigUsername : string;
  ConfigPassword : string;
  ConfigSendURL : string;
  BulkPriority : Z;
  BaseURL : string;
  GetTextAndAttachments : Msg -> string;
  phonenumbers_Parse : string -> string -> option string;
  phonenumbers_Format_NATIONAL : string -> string;
  ReplaceNonGSM7Chars : string -> string;
  IsGSM7 : string -> bool;
  Encode : gmap string (list string) -> string;
  NewRequest : string -> string -> option error;
  MakeHTTPRequest : HTTPRequest -> RequestResponse * option error;
  MakeInsecureHTTPRequest : HTTPRequest -> RequestResponse * option error
}.

(** The form of [SendMsg] as it is encoded, and the encoding it ends
    with. *)
Definition sendForm (d : Deps) (msg : Msg) (username password : string)
  : gmap string (list string) * string :=
  let dlrURL :=
    (BaseURL d ++ "/c/kn/" ++ UUID (msg_Channel msg) ++ "/status?id="
     ++ msg_ID_String msg ++ "&status=%d")%string in
  let form : gmap string (list string) :=
    <["dlr-mask" := ["31"]]>
      (<["dlr-url" := [dlrURL]]>
         (<["to" := [msg_URN_Path msg]]>
            (<["text" := [GetTextAndAttachments d msg]]>
               (<["from" := [Address (msg_Channel msg)]]>
                  (<["password" := [password]]>
                     (<["username" := [username]]> ∅)))))) in
  let form :=
    if (BulkPriority d <? msg_Priority msg)%Z
    then <["priority" := ["1"]]> form else form in
  let useNational :=
    asBool (ConfigForKey (msg_Channel msg) configUseNational (ConfigBool false)) in
  let form :=
    if useNational then
      match phonenumbers_Parse d (msg_URN_Path msg) encodingDefault with
      | Some parsed =>
          <["to" := [removeSpaces (phonenumbers_Format_NATIONAL d parsed)]]> form
      | None => form
      end
    else form in
  let encoding :=
    StringConfigForKey (msg_Channel msg) configEncoding encodingSmart in
  let '(form, encoding) :=
    if String.eqb encoding encodingSmart then
      let replaced := ReplaceNonGSM7Chars d (GetTextAndAttachments d msg) in
      if IsGSM7 d replaced then (<["text" := [replaced]]> form, encoding)
      else (form, encodingUnicode)
    else (form, encoding) in
  let form :=
    if String.eqb encoding encodingUnicode
    then <["charset" := ["utf8"]]> (<["coding" := ["2"]]> form)
    else form in
  (form, encoding).

Definition SendMsg (d : Deps) (msg : Msg)
  : (option SentStatus * option error) * list Effect :=
  let username := StringConfigForKey (msg_Channel msg) (ConfigUsername d) "" in
  if String.eqb username "" then
    ((None, Some (Errorf "no username set for KN channel")), [])
  else
  let password := StringConfigForKey (msg_Channel msg) (ConfigPassword d) "" in
  if String.eqb password "" then
    ((None, Some (Errorf "no password set for KN channel")), [])
  else
  let sendURL := StringConfigForKey (msg_Channel msg) (ConfigSendURL d) "" in
  if String.eqb sendURL "" then
    ((None, Some (Errorf "no send url set for KN channel")), [])
  else
  let encodedForm := Encode d (fst (sendForm d msg username password)) in
  let sendURL :=
    if containsQuestionMark sendURL
    then (sendURL ++ "&" ++ encodedForm)%string
    else (sendURL ++ "?" ++ encodedForm)%string in
  let verifySSL :=
    asBool (ConfigForKey (msg_Channel msg) configVerifySSL (ConfigBool true)) in
  match NewRequest d "GET" sendURL with
  | Some err => ((None, Some err), [])
  | None =>
      let req := mkHTTPRequest "GET" sendURL "" [] in
      let '(rr, err) :=
        if verifySSL then MakeHTTPRequest d req
        else MakeInsecureHTTPRequest d req in
      let log :=
        mkChannelLog "Message Sent" rr [("Message Send Error", err)] in
      let calls :=
        match err with None => [SetStatus MsgWired] | Some _ => [] end in
      ((Some (mkSentStatus (UUID (msg_Channel msg)) (msg_ID msg) MsgErrored
                           log calls), None),
       [HTTP (negb verifySSL) req])
  end.


(** *** [ReceiveMessage] *)

Record kannelMessage := mkKannelMessage {
  kannelMessage_ID : string;
  kannelMessage_Timestamp : Z;
  kannelMessage_Message : string;
  kannelMessage_Sender : string
}.

(** [decoded] is what [handlers.DecodeAndValidateQueryParams] made of the
    request; [NewTelURNForChannel] is [courier]'s. *)
Definition ReceiveMessage (rc : Receiver)
           (NewTelURNForChannel : string -> Channel -> string)
           (channel : Channel) (decoded : error + kannelMessage)
  : (list IncomingMsg * option error) * list Wrote :=
  match decoded with
  | inl err => (([], WriteError rc err), [ErrorReply err])
  | inr kannelMsg =>
      let date := kannelMessage_Timestamp kannelMsg in
      let urn := NewTelURNForChannel (kannelMessage_Sender kannelMsg) channel in
      let msg :=
        mkIncomingMsg (UUID channel) urn (kannelMessage_Message kannelMsg)
          [WithExternalID (kannelMessage_ID kannelMsg); WithReceivedOn date] in
      match WriteMsg rc msg with
      | Some err => (([], Some err), [ToBackend msg])
      | None =>
          (([msg], WriteReceiveSuccess rc msg), [ToBackend msg; SuccessReply msg])
      end
  end.

End Kannel.

(** ** The [twilio] package *)
Module Twilio.
Import Courier.

Definition twSignatureHeader : string := "X-Twilio-Signature".

Record twStatus := mkTwStatus {
  MessageSID : string;
  MessageStatus : string;
  ErrorCode : string
}.

Definition twStatusMapping : gmap string MsgStatusValue :=
  list_to_map [("queued", MsgSent); ("failed", MsgFailed); ("sent", MsgSent);
               ("delivered", MsgDelivered); ("undelivered", MsgFailed)].

Definition unknownStatus (status : string) : error :=
  Errorf ("unknown status '" ++ status
          ++ "', must be one of 'queued', 'failed', 'sent', 'delivered', or 'undelivered'")%string.

(** [base64.StdEncoding.Encode]: three bytes give four characters of the
    standard alphabet; a last group of one or two bytes is padded with [=]. *)
Definition encodeStd : string :=
  "ABCDEFGHIJKLMNOPQRSTUVWXYZabcdefghijklmnopqrstuvwxyz0123456789+/".

Definition sextet (n : N) : ascii :=
  match String.get (N.to_nat n) encodeStd with
  | Some c => c
  | None => "="%char
  end.

Fixpoint base64_Encode (src : string) : string :=
  match src with
  | EmptyString => EmptyString
  | String a EmptyString =>
      let x := N_of_ascii a in
      String (sextet (x / 4)) (String (sextet ((x mod 4) * 16)) "==")
  | String a (String b EmptyString) =>
      let x := N_of_ascii a in
      let y := N_of_ascii b in
      String (sextet (x / 4))
        (String (sextet ((x mod 4) * 16 + y / 16))
           (String (sextet ((y mod 16) * 4)) "="))
  | String a (String b (String c rest)) =>
      let x := N_of_ascii a in
      let y := N_of_ascii b in
      let z := N_of_ascii c in
      String (sextet (x / 4))
        (String (sextet ((x mod 4) * 16 + y / 16))
           (String (sextet ((y mod 16) * 4 + z / 64))
              (String (sextet (z mod 64)) (base64_Encode rest))))
  end%N.

(** [sort.StringSlice]'s order: Go's [<] on strings, byte by byte. *)
Definition string_le (a b : string) : Prop := String.leb a b = true.

#[global] Instance string_le_dec a b : Decision (string_le a b).
Proof. unfold string_le. apply _. Defined.

(** The request as the handler reads it: the outcome of [r.ParseForm()],
    [r.URL.RequestURI()], [r.PostForm] with the order in which ranging over
    it yields its keys, and [r.Header.Get(twSignatureHeader)]. *)
Record Request := mkRequest {
  ParseForm : option error;
  RequestURI : string;
  PostForm : gmap string (list string);
  range_PostForm : list string;
  X_Twilio_Signature : string
}.

(** The channel: its UUID and [ConfigForKey(courier.ConfigAuthToken, "")],
    [None] when that value is not a string. *)
Record Channel := mkChannel {
  UUID : string;
  ConfigAuthToken : option string
}.

Section Handler.

(** [hmac.New(sha1.New, key)] written with the message and summed. *)
Variable hmac_sha1 : string -> string -> string.

(** The buffer of [twCalculateSignature] after its loops over [keys]. *)
Definition signedString (url : string) (form : gmap string (list string))
           (keys : list string) : string :=
  fold_left
    (fun buffer k =>
       fold_left String.append (default [] (form !! k)) (buffer ++ k)%string)
    keys url.

(** [range_form] is the order in which [for k := range form] yields the
    keys. *)
Definition twCalculateSignature (url : string) (form : gmap string (list string))
           (range_form : list string) (authToken : string)
  : string * option error :=
  let keys := merge_sort string_le range_form in
  let buffer := signedString url form keys in
  let hash := hmac_sha1 authToken buffer in
  (base64_Encode hash, None).

Definition validateSignature (BaseURL : string) (channel : Channel)
           (r : Request) : option error :=
  match ParseForm r with
  | Some err => Some err
  | None =>
      let url := (BaseURL ++ RequestURI r)%string in
      match ConfigAuthToken channel with
      | None => Some (Errorf "invalid or missing auth token in config")
      | Some authToken =>
          if String.eqb authToken "" then
            Some (Errorf "invalid or missing auth token in config")
          else
            match twCalculateSignature url (PostForm r) (range_PostForm r) authToken with
            | (_, Some err) => Some err
            | (expected, None) =>
                let actual := X_Twilio_Signature r in
                if String.eqb actual "" then
                  Some (Errorf "missing request signature")
                else if negb (String.eqb expected actual) then
                  Some (Errorf "invalid request signature")
                else None
            end
      end
  end.

(** [decoded] is what [handlers.DecodeAndValidateForm] made of the request. *)
Definition StatusMessage (w : World) (BaseURL : string) (channel : Channel)
           (r : Request) (decoded : error + twStatus)
  : list MsgStatus * option error :=
  match validateSignature BaseURL channel r with
  | Some err => ([], Some err)
  | None =>
      match decoded with
      | inl err => ([], Some err)
      | inr twStatus =>
          match twStatusMapping !! MessageStatus twStatus with
          | None => ([], Some (unknownStatus (MessageStatus twStatus)))
          | Some msgStatus =>
              let status :=
                mkMsgStatus (UUID channel)
                            (ForExternalID (MessageSID twStatus)) msgStatus in
              match WriteMsgStatus w status with
              | Some err => ([], Some err)
              | None => ([status], WriteStatusSuccess w status)
              end
          end
      end
  end.

End Handler.

Example base64_Encode_foobar : base64_Encode "foobar" = "Zm9vYmFy".
Proof. reflexivity. Qed.

Example base64_Encode_padding : base64_Encode "fo" = "Zm8=" /\ base64_Encode "f" = "Zg==".
Proof. split; reflexivity. Qed.


(** *** [SendMsg] *)

Definition configAccountSID : string := "ACCOUNT_SID".
Definition configMessagingServiceSID : string := "messaging_service_sid".
Definition configSendURL : string := "send_url".
Definition sendURL : string := "https://api.twilio.com/2010-04-01/Accounts".
Definition errorStopped : Z := 21610.

(** What [SendMsg] takes from other packages: the key
    [courier.ConfigAuthToken], the server's base URL,
    [courier.SplitAttachment], [utils.AddURLPath] (an error or the URL),
    [url.Values.Encode], the error of [http.NewRequest] for a method, a URL
    and a body, [utils.MakeHTTPRequest], the first result of
    [jsonparser.GetInt(body, "error_code")] and both results of
    [jsonparser.GetString(body, "sid")]. *)
Record Deps := mkDeps {
  courier_ConfigAuthToken : string;
  BaseURL : string;
  SplitAttachment : string -> string * string;
  AddURLPath : string -> list string -> error + string;
  Encode : gmap string (list string) -> string;
  NewRequest : string -> string -> string -> option error;
  MakeHTTPRequest : HTTPRequest -> RequestResponse * option error;
  GetInt_error_code : string -> Z;
  GetString_sid : string -> string * option error
}.

(** A call either returns its two results or panics: [SendMsg] drops the
    error of [http.NewRequest] and sets headers on the request, which is
    nil when there was an error. *)
Inductive Outcome : Type :=
| Panics
| Returns (status : option SentStatus) (err : option error).

Definition sendForm (d : Deps) (msg : Msg) : gmap string (list string) :=
  let callbackURL :=
    (BaseURL d ++ "/c/kn/" ++ Courier.UUID (msg_Channel msg) ++ "/status/")%string in
  let form : gmap string (list string) :=
    <["StatusCallback" := [callbackURL]]>
      (<["Body" := [msg_Text msg]]>
         (<["To" := [msg_URN_Path msg]]> ∅)) in
  let form :=
    match msg_Attachments msg with
    | attachment :: _ =>
        <["MediaURL" := [snd (SplitAttachment d attachment)]]> form
    | [] => form
    end in
  let serviceSID :=
    StringConfigForKey (msg_Channel msg) configMessagingServiceSID "" in
  if negb (String.eqb serviceSID "")
  then <["MessagingServiceSID" := [serviceSID]]> form
  else <["From" := [Address (msg_Channel msg)]]> form.

Definition SendMsg (d : Deps) (msg : Msg) : Outcome * list Effect :=
  let accountSID := StringConfigForKey (msg_Channel msg) configAccountSID "" in
  if String.eqb accountSID "" then
    (Returns None (Some (Errorf "missing account sid for twilio channel")), [])
  else
  let accountToken :=
    StringConfigForKey (msg_Channel msg) (courier_ConfigAuthToken d) "" in
  if String.eqb accountToken "" then
    (Returns None (Some (Errorf "missing account auth token for twilio channel")), [])
  else
  let form := sendForm d msg in
  let baseSendURL := StringConfigForKey (msg_Channel msg) configSendURL sendURL in
  match AddURLPath d baseSendURL [accountSID; "Messages.json"] with
  | inl err => (Returns None (Some err), [])
  | inr sendURL =>
      match NewRequest d "POST" sendURL (Encode d form) with
      | Some _ => (Panics, [])
      | None =>
          let req :=
            mkHTTPRequest "POST" sendURL (Encode d form)
              [("Content-Type", "application/x-www-form-urlencoded");
               ("Accept", "application/json")] in
          let '(rr, err) := MakeHTTPRequest d req in
          let status calls errors :=
            mkSentStatus (Courier.UUID (msg_Channel msg)) (msg_ID msg) MsgErrored
              (mkChannelLog "Message Sent" rr
                 (("Message Send Error", err) :: errors)) calls in
          match err with
          | Some _ => (Returns (Some (status [] [])) None, [HTTP false req])
          | None =>
              let errorCode := GetInt_error_code d (rr_Body rr) in
              if negb (errorCode =? 0)%Z then
                let received :=
                  ("Message Send Error",
                   Some (Errorf ("received error code from twilio '"
                                 ++ fmt_d errorCode ++ "'")%string)) in
                if (errorCode =? errorStopped)%Z then
                  (Returns (Some (status [SetStatus MsgFailed] [received])) None,
                   [HTTP false req; StopMsgContact msg])
                else
                  (Returns (Some (status [] [received])) None, [HTTP false req])
              else
                match GetString_sid d (rr_Body rr) with
                | (_, Some _) =>
                    (Returns
                       (Some (status []
                                [("Message Send Error",
                                  Some (Errorf "unable to get sid from body"))]))
                       None,
                     [HTTP false req])
                | (externalID, None) =>
                    (Returns
                       (Some (status [SetStatus MsgWired; SetExternalID externalID]
                                     []))
                       None,
                     [HTTP false req])
                end
          end
      end
  end.


(** *** [ReceiveMessage] *)

Record twMessage := mkTwMessage {
  twMessage_MessageSID : string;
  twMessage_AccountSID : string;
  twMessage_From : string;
  twMessage_FromCountry : string;
  twMessage_To : string;
  twMessage_ToCountry : string;
  twMessage_Body : string;
  twMessage_NumMedia : Z
}.

(** [url.Values.Get]: the first value of the key, or the empty string. *)
Definition Get (form : gmap string (list string)) (key : string) : string :=
  match form !! key with
  | Some (v :: _) => v
  | _ => ""
  end.

(** The values of [i] in [for i := 0; i < n; i++]. *)
Definition upto (n : Z) : list Z := List.map Z.of_nat (seq 0 (Z.to_nat n)).

Section Receiver.

Variable hmac_sha1 : string -> string -> string.

(** [Fprint] is the error of writing the body to the response. *)
Definition writeReceiveSuccess (Fprint : string -> option error)
  : option error * list Wrote :=
  (Fprint "<Response/>", [Response "text/xml" 200 "<Response/>"]).

(** [decoded] is what [handlers.DecodeAndValidateForm] made of the request;
    [NewTelURNForCountry] is [courier]'s and [DecodePossibleBase64] is
    [handlers]'. *)
Definition ReceiveMessage (rc : Receiver)
           (NewTelURNForCountry : string -> string -> string)
           (DecodePossibleBase64 : string -> string)
           (Fprint : string -> option error)
           (BaseURL : string) (channel : Channel) (r : Request)
           (decoded : error + twMessage)
  : (list IncomingMsg * option error) * list Wrote :=
  match validateSignature hmac_sha1 BaseURL channel r with
  | Some err => (([], Some err), [])
  | None =>
      match decoded with
      | inl err => (([], Some err), [])
      | inr twMsg =>
          let urn :=
            NewTelURNForCountry (twMessage_From twMsg)
                                (twMessage_FromCountry twMsg) in
          let body :=
            if negb (String.eqb (twMessage_Body twMsg) "")
            then DecodePossibleBase64 (twMessage_Body twMsg)
            else twMessage_Body twMsg in
          let media :=
            List.map (fun i => WithAttachment
                                 (Get (PostForm r) ("MediaUrl" ++ fmt_d i)%string))
                     (upto (twMessage_NumMedia twMsg)) in
          let msg :=
            mkIncomingMsg (UUID channel) urn body
              (WithExternalID (twMessage_MessageSID twMsg) :: media) in
          match WriteMsg rc msg with
          | Some err => (([], Some err), [ToBackend msg])
          | None =>
              let '(err, written) := writeReceiveSuccess Fprint in
              (([msg], err), ToBackend msg :: written)
          end
      end
  end.

End Receiver.

End Twilio.

(** ** The handlers: status mapping and request signature *)
Module Handlers.
Import Courier.

(** *** Go's string order is a total order *)

Lemma string_le_iff a b :
  Twilio.string_le a b <-> String_as_OT.lt a b \/ a = b.
Proof.
  unfold Twilio.string_le, String.leb.
  destruct (String.compare a b) eqn:Hc.
  - apply String_as_OT.cmp_eq in Hc. split; auto.
  - apply String_as_OT.cmp_lt in Hc. split; auto.
  - split; [discriminate |]. intros [Hlt | Heq].
    + apply String_as_OT.cmp_lt in Hlt. unfold String_as_OT.cmp in Hlt. congruence.
    + apply String_as_OT.cmp_eq in Heq. unfold String_as_OT.cmp in Heq. congruence.
Qed.

#[local] Instance string_le_trans : Transitive Twilio.string_le.
Proof.
  intros a b c Hab Hbc. apply string_le_iff in Hab, Hbc. apply string_le_iff.
  destruct Hab as [Hab | ->]; [| exact Hbc].
  destruct Hbc as [Hbc | ->]; [| left; exact Hab].
  left. exact (String_as_OT.lt_trans _ _ _ Hab Hbc).
Qed.

#[local] Instance string_le_antisym : AntiSymm (=) Twilio.string_le.
Proof. intros a b Hab Hba. exact (String.leb_antisym a b Hab Hba). Qed.

#[local] Instance string_le_total : Total Twilio.string_le.
Proof. intros a b. exact (String.leb_total a b). Qed.

(** Sorting forgets the order in which the keys were gathered. *)
Lemma sorted_keys_unique (range1 range2 : list string) :
  range1 ≡ₚ range2 ->
  merge_sort Twilio.string_le range1 = merge_sort Twilio.string_le range2.
Proof.
  intros Hperm.
  apply (Sorted_unique Twilio.string_le).
  - apply Sorted_merge_sort; apply _.
  - apply Sorted_merge_sort; apply _.
  - rewrite !merge_sort_Permutation. exact Hperm.
Qed.

(** *** [twCalculateSignature] *)

(** C10: two runs of [twCalculateSignature] on the same url, form and token
    give the same signature and no error, in whatever order ranging over the
    form yields its keys: the keys are sorted before they and their values
    are appended to the signed string. *)
Theorem twCalculateSignature_deterministic
        (hmac_sha1 : string -> string -> string) (url : string)
        (form : gmap string (list string)) (authToken : string)
        (range1 range2 : list string) :
  range1 ≡ₚ (map_to_list form).*1 ->
  range2 ≡ₚ (map_to_list form).*1 ->
  Twilio.twCalculateSignature hmac_sha1 url form range1 authToken
  = Twilio.twCalculateSignature hmac_sha1 url form range2 authToken
  /\ Sorted Twilio.string_le (merge_sort Twilio.string_le range1)
  /\ Twilio.twCalculateSignature hmac_sha1 url form range1 authToken
     = (Twilio.base64_Encode
          (hmac_sha1 authToken
             (Twilio.signedString url form
                (merge_sort Twilio.string_le range1))), None).
Proof.
  intros H1 H2. split; [| split].
  - unfold Twilio.twCalculateSignature.
    rewrite (sorted_keys_unique range1 range2); [reflexivity |].
    rewrite H1, H2. reflexivity.
  - apply Sorted_merge_sort; apply _.
  - reflexivity.
Qed.

(** A form with two fields, and a stand-in for the MAC. *)
Definition twoFields : gmap string (list string) :=
  list_to_map [("To", ["+15551234"]); ("Body", ["hello"])].

Lemma twCalculateSignature_deterministic_witness :
  Twilio.twCalculateSignature (fun key msg => (key ++ msg)%string)
    "https://example.org/c/tw/status" twoFields ["To"; "Body"] "secret"
  = Twilio.twCalculateSignature (fun key msg => (key ++ msg)%string)
      "https://example.org/c/tw/status" twoFields ["Body"; "To"] "secret".
Proof.
  apply (twCalculateSignature_deterministic
           (fun key msg => (key ++ msg)%string)
           "https://example.org/c/tw/status" twoFields "secret"
           ["To"; "Body"] ["Body"; "To"]).
  - vm_compute. apply perm_swap.
  - vm_compute. reflexivity.
Defined.

(** *** [StatusMessage] *)

(** A world in which the backend write and the reply always succeed. *)
Definition healthy (w : World) : Prop :=
  forall status, WriteMsgStatus w status = None /\ WriteStatusSuccess w status = None.

Definition allGood : World := mkWorld (fun _ => None) (fun _ => None).

(** A world whose backend cannot be written to. *)
Definition backendDown : World :=
  mkWorld (fun _ => Some (ErrDriver "connection refused")) (fun _ => None).

(** C9 (amended): for a status callback that was decoded (and, for Twilio,
    whose signature was accepted), a code present in the handler's mapping
    is translated to its canonical status, and that status is what is
    written to the backend; Kannel's 1 and Twilio's "delivered" are mapped
    to delivered; a code absent from the mapping makes the handler return
    an error whose message names the code; and when the backend write and
    the reply succeed, the handler returns an error if and only if the code
    is absent from the mapping. *)
Theorem StatusMessage_translates_or_names_unknown :
  Kannel.kannelStatusMapping !! 1 = Some MsgDelivered
  /\ Twilio.twStatusMapping !! "delivered" = Some MsgDelivered
  /\ (forall w channel ks,
        Kannel.StatusMessage w channel (inr ks)
        = match Kannel.kannelStatusMapping !! Kannel.Status ks with
          | Some msgStatus =>
              let status := mkMsgStatus channel (ForID (Kannel.ID ks)) msgStatus in
              match WriteMsgStatus w status with
              | Some err => ([], Some err)
              | None => ([status], WriteStatusSuccess w status)
              end
          | None =>
              ([], Some (Errorf ("unknown status '" ++ fmt_d (Kannel.Status ks)
                                 ++ "', must be one of 1,2,4,8,16")%string))
          end)
  /\ (forall w channel ks,
        healthy w ->
        (snd (Kannel.StatusMessage w channel (inr ks)) <> None
         <-> Kannel.kannelStatusMapping !! Kannel.Status ks = None))
  /\ (forall hmac_sha1 w BaseURL channel r ts,
        Twilio.validateSignature hmac_sha1 BaseURL channel r = None ->
        Twilio.StatusMessage hmac_sha1 w BaseURL channel r (inr ts)
        = match Twilio.twStatusMapping !! Twilio.MessageStatus ts with
          | Some msgStatus =>
              let status :=
                mkMsgStatus (Twilio.UUID channel)
                            (ForExternalID (Twilio.MessageSID ts)) msgStatus in
              match WriteMsgStatus w status with
              | Some err => ([], Some err)
              | None => ([status], WriteStatusSuccess w status)
              end
          | None =>
              ([], Some (Errorf ("unknown status '" ++ Twilio.MessageStatus ts
                                 ++ "', must be one of 'queued', 'failed', 'sent', 'delivered', or 'undelivered'")%string))
          end)
  /\ (forall hmac_sha1 w BaseURL channel r ts,
        Twilio.validateSignature hmac_sha1 BaseURL channel r = None ->
        healthy w ->
        (snd (Twilio.StatusMessage hmac_sha1 w BaseURL channel r (inr ts)) <> None
         <-> Twilio.twStatusMapping !! Twilio.MessageStatus ts = None)).
Proof.
  split; [reflexivity |]. split; [reflexivity |].
  split; [| split; [| split]].
  - intros w channel ks. unfold Kannel.StatusMessage.
    destruct (Kannel.kannelStatusMapping !! Kannel.Status ks); reflexivity.
  - intros w channel ks Hw. unfold Kannel.StatusMessage.
    destruct (Kannel.kannelStatusMapping !! Kannel.Status ks) as [st |]; simpl.
    + destruct (Hw (mkMsgStatus channel (ForID (Kannel.ID ks)) st)) as [-> Hr].
      simpl. rewrite Hr. split; [intros Hn; contradiction | discriminate].
    + split; [reflexivity | discriminate].
  - intros hmac_sha1 w BaseURL channel r ts Hsig. unfold Twilio.StatusMessage.
    rewrite Hsig.
    destruct (Twilio.twStatusMapping !! Twilio.MessageStatus ts); reflexivity.
  - intros hmac_sha1 w BaseURL channel r ts Hsig Hw. unfold Twilio.StatusMessage.
    rewrite Hsig.
    destruct (Twilio.twStatusMapping !! Twilio.MessageStatus ts) as [st |]; simpl.
    + destruct (Hw (mkMsgStatus (Twilio.UUID channel)
                                (ForExternalID (Twilio.MessageSID ts)) st))
        as [-> Hr].
      simpl. rewrite Hr. split; [intros Hn; contradiction | discriminate].
    + split; [reflexivity | discriminate].
Qed.

(** A signed Twilio callback, with a stand-in for the MAC. *)
Definition signedCallback : Twilio.Request :=
  Twilio.mkRequest None "/c/tw/status"
    (list_to_map [("MessageSid", ["SM1"]); ("MessageStatus", ["bounced"])])
    ["MessageStatus"; "MessageSid"]
    (Twilio.base64_Encode
       "secrethttps://example.org/c/tw/statusMessageSidSM1MessageStatusbounced").

Lemma StatusMessage_translates_or_names_unknown_witness :
  (snd (Kannel.StatusMessage allGood "chan1" (inr (Kannel.mkKannelStatus 5 3)))
   <> None
   <-> Kannel.kannelStatusMapping !! 3 = None)
  /\ Twilio.StatusMessage (fun key msg => (key ++ msg)%string) allGood
       "https://example.org" (Twilio.mkChannel "chan2" (Some "secret"))
       signedCallback (inr (Twilio.mkTwStatus "SM1" "bounced" ""))
     = ([], Some (Errorf "unknown status 'bounced', must be one of 'queued', 'failed', 'sent', 'delivered', or 'undelivered'")).
Proof.
  destruct StatusMessage_translates_or_names_unknown
    as (_ & _ & _ & Hk & Ht & _).
  split.
  - apply (Hk allGood "chan1" (Kannel.mkKannelStatus 5 3)).
    intros status; split; reflexivity.
  - apply (Ht (fun key msg => (key ++ msg)%string) allGood "https://example.org"
              (Twilio.mkChannel "chan2" (Some "secret")) signedCallback
              (Twilio.mkTwStatus "SM1" "bounced" "")).
    vm_compute. reflexivity.
Defined.

(** C9 as stated fails: code 1 is in Kannel's mapping, and the handler
    still returns an error, the one of the backend write. *)
Lemma StatusMessage_error_with_mapped_code :
  Kannel.kannelStatusMapping !! 1 = Some MsgDelivered
  /\ Kannel.StatusMessage backendDown "chan1" (inr (Kannel.mkKannelStatus 5 1))
     = ([], Some (ErrDriver "connection refused"))
  /\ ~ (snd (Kannel.StatusMessage backendDown "chan1"
                (inr (Kannel.mkKannelStatus 5 1))) <> None
        <-> Kannel.kannelStatusMapping !! 1 = None).
Proof.
  split; [reflexivity |]. split; [reflexivity |].
  intros [Hfwd _].
  assert (Habs : Kannel.kannelStatusMapping !! 1 = None)
    by (apply Hfwd; discriminate).
  discriminate Habs.
Qed.

(** *** The codes the status handlers know *)

Lemma kannelStatusMapping_lookup (c : Z) :
  Kannel.kannelStatusMapping !! c
  = if decide (c = 1) then Some MsgDelivered
    else if decide (c = 2) then Some MsgErrored
    else if decide (c = 4) then Some MsgSent
    else if decide (c = 8) then Some MsgSent
    else if decide (c = 16) then Some MsgErrored
    else None.
Proof.
  unfold Kannel.kannelStatusMapping. simpl.
  rewrite !lookup_insert, lookup_empty.
  repeat (case_decide; subst; try congruence; try reflexivity).
Qed.

(** Kannel's [StatusMessage] on a decoded callback: it returns the
    unknown-status error exactly for the codes that its message does not
    list (1,2,4,8,16), without touching the backend; for a listed code the
    status it hands to the backend is for the channel and the message id of
    the callback and is delivered, errored or sent, never another one. *)
Theorem Kannel_StatusMessage_codes w channel ks :
  (~ In (Kannel.Status ks) [1; 2; 4; 8; 16] ->
   Kannel.StatusMessage w channel (inr ks)
   = ([], Some (Errorf ("unknown status '" ++ fmt_d (Kannel.Status ks)
                        ++ "', must be one of 1,2,4,8,16")%string)))
  /\ (In (Kannel.Status ks) [1; 2; 4; 8; 16] ->
      exists status,
        status_channel status = channel
        /\ status_msg status = ForID (Kannel.ID ks)
        /\ In (status_value status) [MsgDelivered; MsgErrored; MsgSent]
        /\ Kannel.StatusMessage w channel (inr ks)
           = match WriteMsgStatus w status with
             | Some err => ([], Some err)
             | None => ([status], WriteStatusSuccess w status)
             end).
Proof.
  unfold Kannel.StatusMessage. rewrite kannelStatusMapping_lookup.
  split.
  - intros Hnot. simpl in Hnot.
    repeat (case_decide; [exfalso; apply Hnot; auto 10 |]). reflexivity.
  - intros Hin. simpl in Hin.
    repeat (case_decide;
            [eexists (mkMsgStatus channel (ForID (Kannel.ID ks)) _);
             split; [reflexivity |]; split; [reflexivity |];
             split; [| reflexivity]; simpl; auto 10 |]).
    exfalso. intuition congruence.
Qed.

Lemma Kannel_StatusMessage_codes_witness :
  Kannel.StatusMessage allGood "chan1" (inr (Kannel.mkKannelStatus 5 3))
  = ([], Some (Errorf "unknown status '3', must be one of 1,2,4,8,16")).
Proof.
  apply (proj1 (Kannel_StatusMessage_codes allGood "chan1"
                  (Kannel.mkKannelStatus 5 3))).
  simpl. intros H. repeat (destruct H as [H | H]; [discriminate H |]). exact H.
Defined.

Lemma twStatusMapping_lookup (c : string) :
  Twilio.twStatusMapping !! c
  = if decide (c = "queued") then Some MsgSent
    else if decide (c = "failed") then Some MsgFailed
    else if decide (c = "sent") then Some MsgSent
    else if decide (c = "delivered") then Some MsgDelivered
    else if decide (c = "undelivered") then Some MsgFailed
    else None.
Proof.
  unfold Twilio.twStatusMapping. simpl.
  rewrite !lookup_insert, lookup_empty.
  repeat (case_decide; subst; try congruence; try reflexivity).
Qed.

(** Twilio's [StatusMessage] on a decoded callback whose signature was
    accepted: it returns the unknown-status error exactly for the statuses
    that its message does not list, without touching the backend; for a
    listed status what it hands to the backend is for the channel and the
    message SID of the callback and is sent, failed or delivered, never
    another one. *)
Theorem Twilio_StatusMessage_codes hmac_sha1 w BaseURL channel r ts :
  Twilio.validateSignature hmac_sha1 BaseURL channel r = None ->
  (~ In (Twilio.MessageStatus ts)
        ["queued"; "failed"; "sent"; "delivered"; "undelivered"] ->
   Twilio.StatusMessage hmac_sha1 w BaseURL channel r (inr ts)
   = ([], Some (Errorf ("unknown status '" ++ Twilio.MessageStatus ts
                        ++ "', must be one of 'queued', 'failed', 'sent', 'delivered', or 'undelivered'")%string)))
  /\ (In (Twilio.MessageStatus ts)
         ["queued"; "failed"; "sent"; "delivered"; "undelivered"] ->
      exists status,
        status_channel status = Twilio.UUID channel
        /\ status_msg status = ForExternalID (Twilio.MessageSID ts)
        /\ In (status_value status) [MsgSent; MsgFailed; MsgDelivered]
        /\ Twilio.StatusMessage hmac_sha1 w BaseURL channel r (inr ts)
           = match WriteMsgStatus w status with
             | Some err => ([], Some err)
             | None => ([status], WriteStatusSuccess w status)
             end).
Proof.
  intros Hsig. unfold Twilio.StatusMessage. rewrite Hsig, twStatusMapping_lookup.
  split.
  - intros Hnot. simpl in Hnot.
    repeat (case_decide; [exfalso; apply Hnot; auto 10 |]). reflexivity.
  - intros Hin. simpl in Hin.
    repeat (case_decide;
            [eexists (mkMsgStatus (Twilio.UUID channel)
                                  (ForExternalID (Twilio.MessageSID ts)) _);
             split; [reflexivity |]; split; [reflexivity |];
             split; [| reflexivity]; simpl; auto 10 |]).
    exfalso. intuition congruence.
Qed.

Lemma Twilio_StatusMessage_codes_witness :
  Twilio.StatusMessage (fun key msg => (key ++ msg)%string) allGood
    "https://example.org" (Twilio.mkChannel "chan2" (Some "secret"))
    signedCallback (inr (Twilio.mkTwStatus "SM1" "bounced" ""))
  = ([], Some (Errorf "unknown status 'bounced', must be one of 'queued', 'failed', 'sent', 'delivered', or 'undelivered'")).
Proof.
  apply (proj1 (Twilio_StatusMessage_codes (fun key msg => (key ++ msg)%string)
                  allGood "https://example.org"
                  (Twilio.mkChannel "chan2" (Some "secret")) signedCallback
                  (Twilio.mkTwStatus "SM1" "bounced" "")
                  ltac:(vm_compute; reflexivity))).
  simpl. intros H. repeat (destruct H as [H | H]; [discriminate H |]). exact H.
Defined.

(** *** [validateSignature] *)

(** [validateSignature] accepts a request exactly when the form was parsed,
    the channel's auth token is a string that is not empty, and the
    signature header is not empty and is the base64 of the MAC, under that
    token, of the URL followed by the form's keys in sorted order, each with
    its values; and its verdict is the same in whatever order ranging over
    the form yields the keys. *)
Theorem validateSignature_accepts_iff hmac_sha1 BaseURL channel r :
  (Twilio.validateSignature hmac_sha1 BaseURL channel r = None
   <-> Twilio.ParseForm r = None
       /\ exists authToken,
            Twilio.ConfigAuthToken channel = Some authToken
            /\ authToken <> ""
            /\ Twilio.X_Twilio_Signature r <> ""
            /\ Twilio.X_Twilio_Signature r
               = Twilio.base64_Encode
                   (hmac_sha1 authToken
                      (Twilio.signedString
                         (BaseURL ++ Twilio.RequestURI r)%string
                         (Twilio.PostForm r)
                         (merge_sort Twilio.string_le (Twilio.range_PostForm r)))))
  /\ (forall range,
        range ≡ₚ Twilio.range_PostForm r ->
        Twilio.validateSignature hmac_sha1 BaseURL channel
          (Twilio.mkRequest (Twilio.ParseForm r) (Twilio.RequestURI r)
                            (Twilio.PostForm r) range
                            (Twilio.X_Twilio_Signature r))
        = Twilio.validateSignature hmac_sha1 BaseURL channel r).
Proof.
  split.
  - unfold Twilio.validateSignature, Twilio.twCalculateSignature.
    destruct (Twilio.ParseForm r) as [err |];
      [split; [discriminate | intros [Habs _]; discriminate Habs] |].
    destruct (Twilio.ConfigAuthToken channel) as [authToken |];
      [| split; [discriminate | intros [_ (t & Habs & _)]; discriminate Habs]].
    destruct (String.eqb_spec authToken "") as [He | Hne].
    + split; [discriminate |]. intros [_ (t & [= <-] & Hn & _)]. contradiction.
    + destruct (String.eqb_spec (Twilio.X_Twilio_Signature r) "") as [Hs | Hs].
      * split; [discriminate |]. intros [_ (t & _ & _ & Hn & _)]. contradiction.
      * match goal with
        | |- context [String.eqb ?e (Twilio.X_Twilio_Signature r)] =>
            destruct (String.eqb_spec e (Twilio.X_Twilio_Signature r)) as [Hm | Hm]
        end; simpl.
        -- split; [| reflexivity]. intros _. split; [reflexivity |].
           exists authToken. repeat split; auto.
        -- split; [discriminate |].
           intros [_ (t & [= <-] & _ & _ & Heq)]. symmetry in Heq. contradiction.
  - intros range Hperm.
    unfold Twilio.validateSignature, Twilio.twCalculateSignature. simpl.
    rewrite (sorted_keys_unique _ _ Hperm). reflexivity.
Qed.

Lemma validateSignature_accepts_iff_witness :
  Twilio.validateSignature (fun key msg => (key ++ msg)%string)
    "https://example.org" (Twilio.mkChannel "chan2" (Some "secret"))
    (Twilio.mkRequest None "/c/tw/status" (Twilio.PostForm signedCallback)
       ["MessageSid"; "MessageStatus"] (Twilio.X_Twilio_Signature signedCallback))
  = Twilio.validateSignature (fun key msg => (key ++ msg)%string)
      "https://example.org" (Twilio.mkChannel "chan2" (Some "secret"))
      signedCallback.
Proof.
  apply (proj2 (validateSignature_accepts_iff (fun key msg => (key ++ msg)%string)
                  "https://example.org" (Twilio.mkChannel "chan2" (Some "secret"))
                  signedCallback) ["MessageSid"; "MessageStatus"]).
  apply perm_swap.
Defined.

(** *** The length of a signature *)

Lemma validateSignature_None hmac_sha1 BaseURL channel r :
  Twilio.validateSignature hmac_sha1 BaseURL channel r = None ->
  exists authToken,
    Twilio.ConfigAuthToken channel = Some authToken
    /\ authToken <> ""
    /\ Twilio.X_Twilio_Signature r
       = fst (Twilio.twCalculateSignature hmac_sha1
                (BaseURL ++ Twilio.RequestURI r)%string (Twilio.PostForm r)
                (Twilio.range_PostForm r) authToken).
Proof.
  unfold Twilio.validateSignature, Twilio.twCalculateSignature.
  destruct (Twilio.ParseForm r) as [err |]; [discriminate |].
  destruct (Twilio.ConfigAuthToken channel) as [authToken |]; [| discriminate].
  destruct (String.eqb_spec authToken "") as [He | Hne]; [discriminate |].
  destruct (String.eqb (Twilio.X_Twilio_Signature r) ""); [discriminate |].
  match goal with
  | |- context [String.eqb ?e (Twilio.X_Twilio_Signature r)] =>
      destruct (String.eqb_spec e (Twilio.X_Twilio_Signature r)) as [Hm | Hm]
  end; simpl; [| discriminate].
  intros _. exists authToken. repeat split; auto.
Qed.

Lemma base64_Encode_length_aux n : forall src,
  (String.length src <= n)%nat ->
  String.length (Twilio.base64_Encode src)
  = (4 * ((String.length src + 2) / 3))%nat.
Proof.
  induction n as [| n IH]; intros src Hlen.
  - destruct src; [reflexivity | simpl in Hlen; lia].
  - destruct src as [| a [| b [| c rest]]]; try reflexivity.
    cbn [Twilio.base64_Encode String.length].
    rewrite IH by (simpl in Hlen; lia).
    replace (S (S (S (String.length rest))) + 2)%nat
      with (String.length rest + 2 + 1 * 3)%nat by lia.
    rewrite Nat.div_add by lia. lia.
Qed.

(** [base64.StdEncoding.Encode] fills the [EncodedLen] bytes that
    [twCalculateSignature] allocates, four for every three bytes of the MAC
    or part of three; so the signature of a 20-byte MAC, as SHA-1 gives, has
    28 bytes, and no header of another length is accepted. *)
Theorem twCalculateSignature_length hmac_sha1 url form range authToken :
  String.length (fst (Twilio.twCalculateSignature hmac_sha1 url form range authToken))
  = (4 * ((String.length
             (hmac_sha1 authToken
                (Twilio.signedString url form
                   (merge_sort Twilio.string_le range))) + 2) / 3))%nat
  /\ ((forall key msg, String.length (hmac_sha1 key msg) = 20%nat) ->
      String.length
        (fst (Twilio.twCalculateSignature hmac_sha1 url form range authToken))
      = 28%nat
      /\ forall BaseURL channel r,
           String.length (Twilio.X_Twilio_Signature r) <> 28%nat ->
           Twilio.validateSignature hmac_sha1 BaseURL channel r <> None).
Proof.
  split; [apply (base64_Encode_length_aux _ _ (le_n _)) |].
  intros H20. split.
  - unfold Twilio.twCalculateSignature. simpl.
    rewrite (base64_Encode_length_aux _ _ (le_n _)), H20. reflexivity.
  - intros BaseURL channel r Hlen Hok.
    apply validateSignature_None in Hok.
    destruct Hok as (token & _ & _ & Heq).
    apply Hlen. rewrite Heq. unfold Twilio.twCalculateSignature. simpl.
    rewrite (base64_Encode_length_aux _ _ (le_n _)), H20. reflexivity.
Qed.

Lemma twCalculateSignature_length_witness :
  String.length
    (fst (Twilio.twCalculateSignature (fun key msg => "12345678901234567890")
            "https://example.org/c/tw/status" twoFields ["To"; "Body"] "secret"))
  = 28%nat.
Proof.
  apply (proj2 (twCalculateSignature_length (fun key msg => "12345678901234567890")
                  "https://example.org/c/tw/status" twoFields ["To"; "Body"]
                  "secret")).
  intros key msg. reflexivity.
Defined.

(** *** Sending through Kannel *)

Lemma containsQuestionMark_app_l a b :
  Courier.containsQuestionMark a = true ->
  Courier.containsQuestionMark (a ++ b)%string = true.
Proof.
  induction a as [| c a IH]; simpl; [discriminate |].
  destruct (Ascii.eqb c "?"); simpl; [reflexivity | exact IH].
Qed.

Lemma containsQuestionMark_app_r a b :
  Courier.containsQuestionMark b = true ->
  Courier.containsQuestionMark (a ++ b)%string = true.
Proof.
  intros Hb. induction a as [| c a IH]; simpl; [exact Hb |].
  rewrite IH. apply orb_true_r.
Qed.

(** A Kannel channel with its three settings, and one without password. *)
Definition knConfig (password : string) (key default : string) : string :=
  if String.eqb key "username" then "courier"
  else if String.eqb key "password" then password
  else if String.eqb key "send_url" then "http://kannel.example/send"
  else default.

Definition knChannel (password : string) : Channel :=
  mkChannel "chan1" "2020" (knConfig password) (fun _ default => default).

Definition knMsg (password : string) : Msg :=
  mkMsg 5 "5" (knChannel password) "+15551234" "hello" [] 1.

(** Dependencies that answer every request and find every text GSM7. *)
Definition knDeps : Kannel.Deps :=
  Kannel.mkDeps "username" "password" "send_url" 0 "https://example.org"
    msg_Text (fun _ _ => None) (fun n => n) (fun s => s) (fun _ => true)
    (fun _ => "form")
    (fun _ _ => None)
    (fun _ => (mkRR "0: Accepted for delivery", None))
    (fun _ => (mkRR "0: Accepted for delivery", None)).

(** Kannel's [SendMsg] either refuses before any request, with an error and
    no status (so whenever the username, the password or the send URL of
    the channel is empty), or makes exactly one request and returns a status
    and no error; the status then is wired exactly when the request went
    through and errored otherwise, and its log carries the response and the
    error of the request. *)
Theorem Kannel_SendMsg_outcome d msg :
  (StringConfigForKey (msg_Channel msg) (Kannel.ConfigUsername d) "" = ""
   \/ StringConfigForKey (msg_Channel msg) (Kannel.ConfigPassword d) "" = ""
   \/ StringConfigForKey (msg_Channel msg) (Kannel.ConfigSendURL d) "" = "" ->
   exists reason,
     Kannel.SendMsg d msg = ((None, Some (Errorf reason)), []))
  /\ (fst (fst (Kannel.SendMsg d msg)) = None ->
      snd (fst (Kannel.SendMsg d msg)) <> None /\ snd (Kannel.SendMsg d msg) = [])
  /\ (forall status,
        fst (fst (Kannel.SendMsg d msg)) = Some status ->
        snd (fst (Kannel.SendMsg d msg)) = None
        /\ exists insecure req,
             snd (Kannel.SendMsg d msg) = [HTTP insecure req]
             /\ log_rr (sent_log status)
                = fst ((if insecure then Kannel.MakeInsecureHTTPRequest d
                        else Kannel.MakeHTTPRequest d) req)
             /\ log_WithError (sent_log status)
                = [("Message Send Error",
                    snd ((if insecure then Kannel.MakeInsecureHTTPRequest d
                          else Kannel.MakeHTTPRequest d) req))]
             /\ (sent_value status = MsgWired
                 <-> snd ((if insecure then Kannel.MakeInsecureHTTPRequest d
                           else Kannel.MakeHTTPRequest d) req) = None)
             /\ (sent_value status <> MsgWired -> sent_value status = MsgErrored)).
Proof.
  unfold Kannel.SendMsg.
  destruct (String.eqb_spec
              (StringConfigForKey (msg_Channel msg) (Kannel.ConfigUsername d) "") "")
    as [Hu | Hu].
  { split; [intros _; eexists; reflexivity |].
    split; [intros _; split; [discriminate | reflexivity] | discriminate]. }
  destruct (String.eqb_spec
              (StringConfigForKey (msg_Channel msg) (Kannel.ConfigPassword d) "") "")
    as [Hp | Hp].
  { split; [intros _; eexists; reflexivity |].
    split; [intros _; split; [discriminate | reflexivity] | discriminate]. }
  destruct (String.eqb_spec
              (StringConfigForKey (msg_Channel msg) (Kannel.ConfigSendURL d) "") "")
    as [Hs | Hs].
  { split; [intros _; eexists; reflexivity |].
    split; [intros _; split; [discriminate | reflexivity] | discriminate]. }
  split; [intros [H | [H | H]]; contradiction |].
  destruct (Kannel.NewRequest d "GET" _) as [err |] eqn:Hreq.
  { split; [intros _; split; [discriminate | reflexivity] | discriminate]. }
  destruct (asBool (ConfigForKey (msg_Channel msg) Kannel.configVerifySSL
                                 (ConfigBool true))) eqn:Hssl; simpl.
  - destruct (Kannel.MakeHTTPRequest d _) as [rr [terr |]] eqn:Ht; simpl;
      (split; [discriminate |]); intros status [= <-];
      (split; [reflexivity |]); eexists false, _;
      (split; [reflexivity |]); rewrite Ht; simpl;
      (split; [reflexivity |]); (split; [reflexivity |]);
      unfold sent_value; simpl.
    + split; [split; discriminate | reflexivity].
    + split; [split; reflexivity | intros Habs; contradiction].
  - destruct (Kannel.MakeInsecureHTTPRequest d _) as [rr [terr |]] eqn:Ht; simpl;
      (split; [discriminate |]); intros status [= <-];
      (split; [reflexivity |]); eexists true, _;
      (split; [reflexivity |]); rewrite Ht; simpl;
      (split; [reflexivity |]); (split; [reflexivity |]);
      unfold sent_value; simpl.
    + split; [split; discriminate | reflexivity].
    + split; [split; reflexivity | intros Habs; contradiction].
Qed.

Lemma Kannel_SendMsg_outcome_witness :
  (exists reason,
     Kannel.SendMsg knDeps (knMsg "") = ((None, Some (Errorf reason)), []))
  /\ exists status,
       fst (fst (Kannel.SendMsg knDeps (knMsg "secret"))) = Some status
       /\ sent_value status = MsgWired.
Proof.
  split.
  - apply (proj1 (Kannel_SendMsg_outcome knDeps (knMsg ""))).
    right. left. reflexivity.
  - eexists. split; [reflexivity |].
    destruct (proj2 (proj2 (Kannel_SendMsg_outcome knDeps (knMsg "secret")))
                _ eq_refl) as (_ & insecure & req & Heff & _ & _ & Hwired & _).
    apply Hwired. injection Heff as <- <-. reflexivity.
Defined.

(** The request Kannel's [SendMsg] makes is a GET without body or headers
    of the configured send URL followed by [&] if that URL has a question
    mark and by [?] if it has none, and then by the encoding of the form of
    [sendForm], which carries the username and the password; so its URL
    always has a query. The certificate of the server is verified only when
    the channel's verify_ssl setting is the boolean true (the default when
    it is not set): for a setting of any other type the request is made
    without verification. *)
Theorem Kannel_SendMsg_request d msg insecure req :
  In (HTTP insecure req) (snd (Kannel.SendMsg d msg)) ->
  let sendURL :=
    StringConfigForKey (msg_Channel msg) (Kannel.ConfigSendURL d) "" in
  let username :=
    StringConfigForKey (msg_Channel msg) (Kannel.ConfigUsername d) "" in
  let password :=
    StringConfigForKey (msg_Channel msg) (Kannel.ConfigPassword d) "" in
  let form := fst (Kannel.sendForm d msg username password) in
  req_method req = "GET"
  /\ req_body req = ""
  /\ req_headers req = []
  /\ (containsQuestionMark sendURL = true ->
      req_url req = (sendURL ++ "&" ++ Kannel.Encode d form)%string)
  /\ (containsQuestionMark sendURL = false ->
      req_url req = (sendURL ++ "?" ++ Kannel.Encode d form)%string)
  /\ form !! "username" = Some [username]
  /\ form !! "password" = Some [password]
  /\ containsQuestionMark (req_url req) = true
  /\ (insecure = false
      <-> ConfigForKey (msg_Channel msg) Kannel.configVerifySSL (ConfigBool true)
          = ConfigBool true).
Proof.
  intros Hmade sendURL username password form. revert Hmade.
  unfold Kannel.SendMsg. fold username. fold password. fold sendURL. fold form.
  destruct (String.eqb username ""); [intros [] |].
  destruct (String.eqb password ""); [intros [] |].
  destruct (String.eqb sendURL ""); [intros [] |].
  destruct (Kannel.NewRequest d "GET" _) as [err |]; [intros [] |].
  set (ssl := ConfigForKey (msg_Channel msg) Kannel.configVerifySSL (ConfigBool true)).
  assert (Hform : form !! "username" = Some [username]
                  /\ form !! "password" = Some [password]).
  { subst form. unfold Kannel.sendForm.
    repeat match goal with
           | |- context [if ?b then _ else _] => destruct b
           | |- context [match ?o with Some _ => _ | None => _ end] => destruct o
           end; simpl; simplify_map_eq; split; reflexivity. }
  match goal with
  | |- context [if asBool ssl then ?a else ?b] =>
      destruct (if asBool ssl then a else b) as [rr terr]
  end.
  simpl. intros [[= <- <-] | []]. simpl.
  split; [reflexivity |]. split; [reflexivity |]. split; [reflexivity |].
  destruct (containsQuestionMark sendURL) eqn:Hq.
  - split; [reflexivity |]. split; [discriminate |].
    split; [exact (proj1 Hform) |]. split; [exact (proj2 Hform) |].
    split; [apply containsQuestionMark_app_l; exact Hq |].
    destruct ssl as [s | [|] |]; simpl; split; congruence.
  - split; [discriminate |]. split; [reflexivity |].
    split; [exact (proj1 Hform) |]. split; [exact (proj2 Hform) |].
    split; [apply containsQuestionMark_app_r; reflexivity |].
    destruct ssl as [s | [|] |]; simpl; split; congruence.
Qed.

(** A channel whose send URL has a query already. *)
Definition knQueryChannel : Channel :=
  mkChannel "chan1" "2020"
            (fun key default =>
               if String.eqb key "send_url" then "http://kannel.example/send?smsc=a"
               else knConfig "secret" key default)
            (fun _ default => default).

Definition knQueryMsg : Msg :=
  mkMsg 5 "5" knQueryChannel "+15551234" "hello" [] 1.

Lemma Kannel_SendMsg_request_witness :
  snd (Kannel.SendMsg knDeps (knMsg "secret"))
  = [HTTP false (mkHTTPRequest "GET" "http://kannel.example/send?form" "" [])]
  /\ snd (Kannel.SendMsg knDeps knQueryMsg)
     = [HTTP false
          (mkHTTPRequest "GET" "http://kannel.example/send?smsc=a&form" "" [])]
  /\ req_url (mkHTTPRequest "GET" "http://kannel.example/send?smsc=a&form" "" [])
     = ("http://kannel.example/send?smsc=a" ++ "&"
        ++ Kannel.Encode knDeps
             (fst (Kannel.sendForm knDeps knQueryMsg "courier" "secret")))%string
  /\ req_url (mkHTTPRequest "GET" "http://kannel.example/send?form" "" [])
     = ("http://kannel.example/send" ++ "?"
        ++ Kannel.Encode knDeps
             (fst (Kannel.sendForm knDeps (knMsg "secret") "courier" "secret")))%string.
Proof.
  split; [reflexivity |]. split; [reflexivity |]. split.
  - refine (proj1 (proj2 (proj2 (proj2
              (Kannel_SendMsg_request knDeps knQueryMsg false
                 (mkHTTPRequest "GET" "http://kannel.example/send?smsc=a&form" "" [])
                 _)))) _);
      [left; reflexivity | reflexivity].
  - refine (proj1 (proj2 (proj2 (proj2 (proj2
              (Kannel_SendMsg_request knDeps (knMsg "secret") false
                 (mkHTTPRequest "GET" "http://kannel.example/send?form" "" [])
                 _))))) _);
      [left; reflexivity | reflexivity].
Defined.

Lemma removeSpaces_no_space s :
  forall c, In c (list_ascii_of_string (removeSpaces s)) -> c <> " "%char.
Proof.
  induction s as [| a s IH]; simpl; [intros c [] |].
  destruct (Ascii.eqb_spec a " "); [exact IH |].
  simpl. intros c [<- | Hin]; [assumption | apply IH; exact Hin].
Qed.

(** The form Kannel's [SendMsg] encodes asks for unicode (coding 2, charset
    utf8) exactly when the channel's encoding is [U], or is [S] (the default)
    and the text is not GSM7 even after its characters were replaced; the
    text then goes out as it was composed. In every other case the form has
    neither field; under [S] the text sent is the replaced one, which is
    GSM7, and under any other encoding the text is sent unchanged. *)
Theorem Kannel_sendForm_encoding d msg username password :
  let configured :=
    StringConfigForKey (msg_Channel msg) Kannel.configEncoding Kannel.encodingSmart in
  let text := Kannel.GetTextAndAttachments d msg in
  let replaced := Kannel.ReplaceNonGSM7Chars d text in
  let form := fst (Kannel.sendForm d msg username password) in
  let encoding := snd (Kannel.sendForm d msg username password) in
  (form !! "coding" = Some ["2"] /\ form !! "charset" = Some ["utf8"]
   /\ encoding = Kannel.encodingUnicode
   /\ (configured = Kannel.encodingUnicode
       \/ configured = Kannel.encodingSmart /\ Kannel.IsGSM7 d replaced = false)
   /\ form !! "text" = Some [text])
  \/ (form !! "coding" = None /\ form !! "charset" = None
      /\ encoding = configured
      /\ configured <> Kannel.encodingUnicode
      /\ (configured = Kannel.encodingSmart ->
          form !! "text" = Some [replaced] /\ Kannel.IsGSM7 d replaced = true)
      /\ (configured <> Kannel.encodingSmart -> form !! "text" = Some [text])).
Proof.
  intros configured text replaced form encoding.
  subst form encoding. unfold Kannel.sendForm.
  fold configured. fold text. fold replaced.
  set (national := asBool _).
  set (parse := Kannel.phonenumbers_Parse d _ _).
  destruct (String.eqb_spec configured Kannel.encodingSmart) as [Hs | Hs].
  - destruct (Kannel.IsGSM7 d replaced) eqn:Hgsm.
    + right. rewrite Hs. cbn [fst snd]. simpl String.eqb. cbn iota.
      destruct (_ <? _)%Z, national, parse; simplify_map_eq;
        repeat split; try reflexivity; try discriminate; try congruence.
    + left. cbn [fst snd]. simpl String.eqb. cbn iota.
      destruct (_ <? _)%Z, national, parse; simplify_map_eq;
        repeat split; try reflexivity; right; split; reflexivity || assumption.
  - cbn [fst snd].
    destruct (String.eqb_spec configured Kannel.encodingUnicode) as [Hu | Hu].
    + left.
      destruct (_ <? _)%Z, national, parse; simplify_map_eq;
        repeat split; try reflexivity; try assumption; left; assumption.
    + right.
      destruct (_ <? _)%Z, national, parse; simplify_map_eq;
        repeat split; try reflexivity; try assumption; try contradiction.
Qed.

(** The [to] field of the form is the path of the message's URN, unless
    the channel's use_national setting is the boolean true and the path
    parses as a phone number: then it is the national format of the number
    with every space removed. A setting of another type counts as false. *)
Theorem Kannel_sendForm_destination d msg username password :
  let form := fst (Kannel.sendForm d msg username password) in
  let setting :=
    ConfigForKey (msg_Channel msg) Kannel.configUseNational (ConfigBool false) in
  exists to,
    form !! "to" = Some [to]
    /\ (forall parsed,
          setting = ConfigBool true ->
          Kannel.phonenumbers_Parse d (msg_URN_Path msg) Kannel.encodingDefault
          = Some parsed ->
          to = removeSpaces (Kannel.phonenumbers_Format_NATIONAL d parsed)
          /\ forall c, In c (list_ascii_of_string to) -> c <> " "%char)
    /\ (setting <> ConfigBool true
        \/ Kannel.phonenumbers_Parse d (msg_URN_Path msg) Kannel.encodingDefault
           = None ->
        to = msg_URN_Path msg).
Proof.
  intros form setting. subst form. unfold Kannel.sendForm. fold setting.
  set (parse := Kannel.phonenumbers_Parse d _ _).
  destruct setting as [s | [|] |]; simpl asBool; cbn iota.
  2: destruct parse as [parsed |] eqn:Hparse.
  all: eexists; split;
    [ destruct (_ <? _)%Z, (String.eqb _ Kannel.encodingSmart);
      try destruct (Kannel.IsGSM7 _ _); cbn [fst snd];
      try destruct (String.eqb _ Kannel.encodingUnicode);
      simplify_map_eq; reflexivity
    | split;
      [ intros p Hset Hp; try discriminate; try congruence
      | intros [Hset | Hp]; try discriminate; try congruence; try reflexivity ] ].
  - injection Hp as <-. split; [reflexivity | apply removeSpaces_no_space].
Qed.

(** A channel that asks for national numbers, and dependencies whose
    parser accepts every number and formats it with spaces. *)
Definition knNationalChannel : Channel :=
  mkChannel "chan1" "2020" (knConfig "secret")
            (fun key default =>
               if String.eqb key "use_national" then ConfigBool true else default).

Definition knNationalMsg : Msg :=
  mkMsg 5 "5" knNationalChannel "+15551234" "hello" [] 1.

Definition knNationalDeps : Kannel.Deps :=
  Kannel.mkDeps "username" "password" "send_url" 0 "https://example.org"
    msg_Text (fun number _ => Some number) (fun _ => "555 12 34")
    (fun s => s) (fun _ => true) (fun _ => "form")
    (fun _ _ => None)
    (fun _ => (mkRR "0: Accepted for delivery", None))
    (fun _ => (mkRR "0: Accepted for delivery", None)).

Lemma Kannel_sendForm_destination_witness :
  fst (Kannel.sendForm knNationalDeps knNationalMsg "courier" "secret") !! "to"
  = Some ["5551234"].
Proof.
  destruct (Kannel_sendForm_destination knNationalDeps knNationalMsg
              "courier" "secret") as (to & Hto & Hnat & _).
  destruct (Hnat "+15551234" eq_refl eq_refl) as [-> _]. exact Hto.
Defined.

Lemma Kannel_sendForm_encoding_witness :
  fst (Kannel.sendForm knDeps (knMsg "secret") "courier" "secret") !! "coding"
  = None
  /\ fst (Kannel.sendForm knDeps (knMsg "secret") "courier" "secret") !! "text"
     = Some ["hello"].
Proof.
  destruct (Kannel_sendForm_encoding knDeps (knMsg "secret") "courier" "secret")
    as [(_ & _ & _ & [Hu | [_ Hg]] & _) | (Hc & _ & _ & _ & Hs & _)];
    [discriminate Hu | discriminate Hg |].
  split; [exact Hc | exact (proj1 (Hs eq_refl))].
Defined.

(** *** Sending through Twilio *)

Definition twConfig (accountSID serviceSID : string) (key default : string)
  : string :=
  if String.eqb key "ACCOUNT_SID" then accountSID
  else if String.eqb key "auth_token" then "token"
  else if String.eqb key "messaging_service_sid" then serviceSID
  else default.

Definition twChannel (accountSID serviceSID : string) : Channel :=
  mkChannel "chan2" "+12065551212" (twConfig accountSID serviceSID)
            (fun _ default => default).

Definition twMsg (accountSID serviceSID : string) : Msg :=
  mkMsg 7 "7" (twChannel accountSID serviceSID) "+15551234" "hello"
        ["image/jpeg:https://example.org/a.jpg"; "image/jpeg:https://example.org/b.jpg"] 1.

(** Dependencies whose server answers every request with [body]; the
    error code is 21610 for the body [stopped] and 0 otherwise, and every
    body has the sid [SM1]. *)
Definition twDeps (body : string) : Twilio.Deps :=
  Twilio.mkDeps "auth_token" "https://example.org"
    (fun attachment => ("image/jpeg", attachment))
    (fun base parts => inr (fold_left (fun u p => u ++ "/" ++ p)%string parts base))
    (fun _ => "form")
    (fun _ _ _ => None)
    (fun _ => (mkRR body, None))
    (fun body => if String.eqb body "stopped" then 21610 else 0)
    (fun _ => ("SM1", None)).

(** The same dependencies with a send URL that cannot be extended. *)
Definition twDepsNoURL : Twilio.Deps :=
  Twilio.mkDeps "auth_token" "https://example.org"
    (fun attachment => ("image/jpeg", attachment))
    (fun _ _ => inl (Errorf "parse: missing protocol scheme"))
    (fun _ => "form")
    (fun _ _ _ => None)
    (fun _ => (mkRR "ok", None))
    (fun _ => 0)
    (fun _ => ("SM1", None)).

(** Twilio's [SendMsg] refuses without a request, with an error and no
    status, when the account sid or the auth token of the channel is empty,
    and with the error of [utils.AddURLPath] when the URL cannot be built;
    it panics, before any request, when [http.NewRequest] returns an error
    (the error is dropped and the headers are set on a nil request). A
    result without status always has an error and no effect. A status is
    never returned with an error,
    and is returned after exactly one request, made with verification of the
    certificate. The status is wired exactly when the request went through,
    the error code of the body is 0 and the body has a sid, which then is
    the external id set on the status; it is failed exactly when the request
    went through and the error code is 21610, and only then is the contact
    of the message stopped, after the request; in all other cases it stays
    errored. *)
Theorem Twilio_SendMsg_outcome d msg :
  (StringConfigForKey (msg_Channel msg) Twilio.configAccountSID "" = ""
   \/ StringConfigForKey (msg_Channel msg) (Twilio.courier_ConfigAuthToken d) "" = "" ->
   exists reason,
     Twilio.SendMsg d msg = (Twilio.Returns None (Some (Errorf reason)), []))
  /\ (forall err,
        StringConfigForKey (msg_Channel msg) Twilio.configAccountSID "" <> "" ->
        StringConfigForKey (msg_Channel msg) (Twilio.courier_ConfigAuthToken d) ""
        <> "" ->
        Twilio.AddURLPath d
          (StringConfigForKey (msg_Channel msg) Twilio.configSendURL Twilio.sendURL)
          [StringConfigForKey (msg_Channel msg) Twilio.configAccountSID "";
           "Messages.json"]
        = inl err ->
        Twilio.SendMsg d msg = (Twilio.Returns None (Some err), []))
  /\ (forall url err,
        StringConfigForKey (msg_Channel msg) Twilio.configAccountSID "" <> "" ->
        StringConfigForKey (msg_Channel msg) (Twilio.courier_ConfigAuthToken d) ""
        <> "" ->
        Twilio.AddURLPath d
          (StringConfigForKey (msg_Channel msg) Twilio.configSendURL Twilio.sendURL)
          [StringConfigForKey (msg_Channel msg) Twilio.configAccountSID "";
           "Messages.json"]
        = inr url ->
        Twilio.NewRequest d "POST" url (Twilio.Encode d (Twilio.sendForm d msg))
        = Some err ->
        Twilio.SendMsg d msg = (Twilio.Panics, []))
  /\ (forall err,
        fst (Twilio.SendMsg d msg) = Twilio.Returns None err ->
        err <> None /\ snd (Twilio.SendMsg d msg) = [])
  /\ (fst (Twilio.SendMsg d msg) = Twilio.Panics -> snd (Twilio.SendMsg d msg) = [])
  /\ (forall status err,
        fst (Twilio.SendMsg d msg) = Twilio.Returns (Some status) err ->
        err = None
        /\ exists req,
             let sent := fst (Twilio.MakeHTTPRequest d req) in
             let failure := snd (Twilio.MakeHTTPRequest d req) in
             let errorCode := Twilio.GetInt_error_code d (rr_Body sent) in
             let sid := Twilio.GetString_sid d (rr_Body sent) in
             snd (Twilio.SendMsg d msg)
             = HTTP false req
                 :: match sent_value status with
                    | MsgFailed => [StopMsgContact msg]
                    | _ => []
                    end
             /\ log_rr (sent_log status) = sent
             /\ hd_error (log_WithError (sent_log status))
                = Some ("Message Send Error", failure)
             /\ (sent_value status = MsgWired
                 <-> failure = None /\ errorCode = 0 /\ snd sid = None)
             /\ (sent_value status = MsgFailed
                 <-> failure = None /\ errorCode = Twilio.errorStopped)
             /\ (sent_value status = MsgWired \/ sent_value status = MsgFailed
                 \/ sent_value status = MsgErrored)
             /\ (forall externalID,
                   In (SetExternalID externalID) (sent_calls status)
                   <-> sent_value status = MsgWired /\ externalID = fst sid)).
Proof.
  refine ((fun H Hurl Hreq =>
             conj (proj1 H) (conj Hurl (conj Hreq (proj2 H)))) _ _ _);
    cycle 1.
  { intros err Hs Ht Hurl. unfold Twilio.SendMsg.
    rewrite (proj2 (String.eqb_neq _ _) Hs), (proj2 (String.eqb_neq _ _) Ht).
    rewrite Hurl. reflexivity. }
  { intros url err Hs Ht Hurl Hreq. unfold Twilio.SendMsg.
    rewrite (proj2 (String.eqb_neq _ _) Hs), (proj2 (String.eqb_neq _ _) Ht).
    rewrite Hurl, Hreq. reflexivity. }
  unfold Twilio.SendMsg.
  destruct (String.eqb_spec
              (StringConfigForKey (msg_Channel msg) Twilio.configAccountSID "") "")
    as [Hs | Hs].
  { split; [intros _; eexists; reflexivity |].
    split; [intros err [= <-]; split; [discriminate | reflexivity] |].
    split; discriminate. }
  destruct (String.eqb_spec
              (StringConfigForKey (msg_Channel msg)
                                  (Twilio.courier_ConfigAuthToken d) "") "")
    as [Ht | Ht].
  { split; [intros _; eexists; reflexivity |].
    split; [intros err [= <-]; split; [discriminate | reflexivity] |].
    split; discriminate. }
  split; [intros [H | H]; contradiction |].
  destruct (Twilio.AddURLPath d _ _) as [uerr | url].
  { split; [intros err [= <-]; split; [discriminate | reflexivity] |].
    split; discriminate. }
  destruct (Twilio.NewRequest d "POST" url _) as [rerr |].
  { split; [discriminate |]. split; [reflexivity | discriminate]. }
  set (req := mkHTTPRequest "POST" url _ _).
  destruct (Twilio.MakeHTTPRequest d req) as [rr terr] eqn:Hsend.
  assert (Hzero : Twilio.errorStopped <> 0) by discriminate.
  destruct terr as [terr |];
    [| destruct (Z.eqb_spec (Twilio.GetInt_error_code d (rr_Body rr)) 0)
         as [Hc | Hc]; cbn [negb];
       [ destruct (Twilio.GetString_sid d (rr_Body rr))
           as [externalID [serr |]] eqn:Hsid
       | destruct (Z.eqb_spec (Twilio.GetInt_error_code d (rr_Body rr))
                              Twilio.errorStopped) as [Hst | Hst] ] ].
  all: cbn [fst snd]; (split; [intros err; discriminate |]);
    (split; [discriminate |]).
  all: intros status err [= <- <-]; split; [reflexivity |].
  all: exists req; rewrite Hsend; cbn [fst snd]; try rewrite Hsid.
  all: unfold sent_value; simpl.
  all: repeat split; intros; try reflexivity;
    intuition (try congruence; try discriminate).
Qed.


Lemma Twilio_SendMsg_outcome_witness :
  (exists reason,
     Twilio.SendMsg (twDeps "ok") (twMsg "" "")
     = (Twilio.Returns None (Some (Errorf reason)), []))
  /\ Twilio.SendMsg twDepsNoURL (twMsg "AC1" "")
     = (Twilio.Returns None (Some (Errorf "parse: missing protocol scheme")), [])
  /\ exists status,
       fst (Twilio.SendMsg (twDeps "stopped") (twMsg "AC1" ""))
       = Twilio.Returns (Some status) None
       /\ sent_value status = MsgFailed
       /\ In (StopMsgContact (twMsg "AC1" ""))
             (snd (Twilio.SendMsg (twDeps "stopped") (twMsg "AC1" ""))).
Proof.
  split; [| split].
  - apply (proj1 (Twilio_SendMsg_outcome (twDeps "ok") (twMsg "" ""))).
    left. reflexivity.
  - apply (proj1 (proj2 (Twilio_SendMsg_outcome twDepsNoURL (twMsg "AC1" "")))
             (Errorf "parse: missing protocol scheme"));
      [discriminate | discriminate | reflexivity].
  - eexists. split; [reflexivity |].
    destruct (proj2 (proj2 (proj2 (proj2 (proj2 (Twilio_SendMsg_outcome
                                     (twDeps "stopped") (twMsg "AC1" ""))))))
                _ _ eq_refl) as (_ & req & Heff & _ & _ & _ & Hfailed & _).
    split; [apply Hfailed; split; reflexivity |].
    right. left. reflexivity.
Defined.

(** The request Twilio's [SendMsg] makes is a POST, with verification of the
    certificate, to the channel's send URL (by default Twilio's accounts
    URL) extended by the account sid and [Messages.json]; the only headers
    set on it are the content type of a form and the acceptance of JSON. Its
    body is the encoded form, which names the recipient, the text and the
    status callback, the media URL of the first attachment when there are
    attachments (the others are not sent), and exactly one sender: the
    messaging service when the channel has one configured, the channel's
    address otherwise. *)
Theorem Twilio_SendMsg_request d msg insecure req :
  In (HTTP insecure req) (snd (Twilio.SendMsg d msg)) ->
  insecure = false
  /\ req_method req = "POST"
  /\ Twilio.AddURLPath d
       (StringConfigForKey (msg_Channel msg) Twilio.configSendURL
                           "https://api.twilio.com/2010-04-01/Accounts")
       [StringConfigForKey (msg_Channel msg) Twilio.configAccountSID "";
        "Messages.json"]
     = inr (req_url req)
  /\ req_headers req
     = [("Content-Type", "application/x-www-form-urlencoded");
        ("Accept", "application/json")]
  /\ exists form : gmap string (list string),
       req_body req = Twilio.Encode d form
       /\ form !! "To" = Some [msg_URN_Path msg]
       /\ form !! "Body" = Some [msg_Text msg]
       /\ form !! "StatusCallback"
          = Some [(Twilio.BaseURL d ++ "/c/kn/" ++ UUID (msg_Channel msg)
                   ++ "/status/")%string]
       /\ form !! "MediaURL"
          = match msg_Attachments msg with
            | attachment :: _ => Some [snd (Twilio.SplitAttachment d attachment)]
            | [] => None
            end
       /\ (StringConfigForKey (msg_Channel msg) Twilio.configMessagingServiceSID ""
           <> "" ->
           form !! "MessagingServiceSID"
           = Some [StringConfigForKey (msg_Channel msg)
                                      Twilio.configMessagingServiceSID ""]
           /\ form !! "From" = None)
       /\ (StringConfigForKey (msg_Channel msg) Twilio.configMessagingServiceSID ""
           = "" ->
           form !! "From" = Some [Address (msg_Channel msg)]
           /\ form !! "MessagingServiceSID" = None).
Proof.
  unfold Twilio.SendMsg.
  destruct (String.eqb _ ""); [intros [] |].
  destruct (String.eqb _ ""); [intros [] |].
  fold Twilio.sendURL.
  destruct (Twilio.AddURLPath d _ _) as [uerr | url] eqn:Hurl; [intros [] |].
  destruct (Twilio.NewRequest d "POST" url _) as [rerr |]; [intros [] |].
  set (request := mkHTTPRequest "POST" url _ _).
  assert (Hreq :
            insecure = false /\ req = request ->
            insecure = false /\ req_method req = "POST"
            /\ @inr error string url = inr (req_url req)
            /\ req_headers req
               = [("Content-Type", "application/x-www-form-urlencoded");
                  ("Accept", "application/json")]
            /\ req_body req = Twilio.Encode d (Twilio.sendForm d msg)).
  { intros [-> ->]. repeat split. }
  assert (Hin : forall out effects,
             effects = [HTTP false request]
             \/ effects = [HTTP false request; StopMsgContact msg] ->
             In (HTTP insecure req) (snd (out : Twilio.Outcome, effects)) ->
             insecure = false /\ req = request).
  { intros out effects [-> | ->]; simpl; intros H;
      repeat (destruct H as [H | H]);
      solve [ discriminate H | contradiction
            | injection H as <- <-; split; reflexivity ]. }
  intros Hmade.
  assert (Hrequest : insecure = false /\ req = request).
  { destruct (Twilio.MakeHTTPRequest d request) as [rr [terr |]];
      [eapply Hin; [| exact Hmade]; left; reflexivity |].
    destruct (negb _); [destruct (_ =? Twilio.errorStopped)%Z |];
      [ eapply Hin; [| exact Hmade]; right; reflexivity
      | eapply Hin; [| exact Hmade]; left; reflexivity |].
    destruct (Twilio.GetString_sid d _) as [externalID [serr |]];
      (eapply Hin; [| exact Hmade]; left; reflexivity). }
  destruct (Hreq Hrequest) as (Hi & Hm & Hu & Hh & Hb).
  split; [exact Hi |]. split; [exact Hm |]. split; [exact Hu |].
  split; [exact Hh |].
  exists (Twilio.sendForm d msg). split; [exact Hb |].
  unfold Twilio.sendForm.
  destruct (String.eqb_spec
              (StringConfigForKey (msg_Channel msg)
                                  Twilio.configMessagingServiceSID "") "")
    as [Hsid | Hsid]; cbn [negb];
    destruct (msg_Attachments msg) as [| attachment rest];
    simplify_map_eq; repeat split; intros; try reflexivity;
    try contradiction; try congruence; simplify_map_eq; reflexivity.
Qed.

Lemma Twilio_SendMsg_request_witness :
  exists form : gmap string (list string),
    snd (Twilio.SendMsg (twDeps "ok") (twMsg "AC1" "MG1"))
    = [HTTP false
         (mkHTTPRequest "POST"
            "https://api.twilio.com/2010-04-01/Accounts/AC1/Messages.json" "form"
            [("Content-Type", "application/x-www-form-urlencoded");
             ("Accept", "application/json")])]
    /\ form !! "MediaURL" = Some ["image/jpeg:https://example.org/a.jpg"]
    /\ form !! "MessagingServiceSID" = Some ["MG1"]
    /\ form !! "From" = None.
Proof.
  destruct (Twilio_SendMsg_request (twDeps "ok") (twMsg "AC1" "MG1") false
              (mkHTTPRequest "POST"
                 "https://api.twilio.com/2010-04-01/Accounts/AC1/Messages.json"
                 "form"
                 [("Content-Type", "application/x-www-form-urlencoded");
                  ("Accept", "application/json")])
              ltac:(left; reflexivity))
    as (_ & _ & _ & _ & form & _ & _ & _ & _ & Hmedia & Hservice & _).
  exists form. split; [reflexivity |]. split; [exact Hmedia |].
  apply Hservice. discriminate.
Defined.

(** *** Receiving *)

Lemma nth_error_map_seq {A} (f : nat -> A) n : forall start k,
  (k < n)%nat -> nth_error (List.map f (seq start n)) k = Some (f (start + k)%nat).
Proof.
  induction n as [| n IH]; intros start k Hk; [lia |].
  destruct k as [| k]; simpl.
  - rewrite Nat.add_0_r. reflexivity.
  - rewrite IH by lia. f_equal. f_equal. lia.
Qed.

(** Twilio's handlers hand nothing to the backend for a request that is not
    signed: a message is written by [ReceiveMessage], and a status is
    returned by [StatusMessage], only when the channel has a non-empty auth
    token and the signature header of the request is the signature computed
    from that token, the URL and the posted form. A message or a status is
    returned only when the decoder accepted the request and the backend
    accepted the write. *)
Theorem Twilio_handlers_require_signature
        hmac_sha1 rc world NewTelURNForCountry DecodePossibleBase64 Fprint
        BaseURL channel r received status :
  let signed :=
    exists authToken,
      Twilio.ConfigAuthToken channel = Some authToken
      /\ authToken <> ""
      /\ Twilio.X_Twilio_Signature r
         = fst (Twilio.twCalculateSignature hmac_sha1
                  (BaseURL ++ Twilio.RequestURI r)%string (Twilio.PostForm r)
                  (Twilio.range_PostForm r) authToken) in
  let receive :=
    Twilio.ReceiveMessage hmac_sha1 rc NewTelURNForCountry DecodePossibleBase64
                          Fprint BaseURL channel r received in
  let update := Twilio.StatusMessage hmac_sha1 world BaseURL channel r status in
  (forall m, In (ToBackend m) (snd receive) ->
             signed /\ exists twMsg, received = inr twMsg)
  /\ (forall m, In m (fst (fst receive)) ->
                In (ToBackend m) (snd receive) /\ WriteMsg rc m = None)
  /\ (forall s, In s (fst update) ->
                signed /\ (exists twStatus, status = inr twStatus)
                /\ WriteMsgStatus world s = None).
Proof.
  intros signed receive update. subst receive update.
  unfold Twilio.ReceiveMessage, Twilio.StatusMessage.
  destruct (Twilio.validateSignature hmac_sha1 BaseURL channel r) as [err |] eqn:Hv.
  { simpl. split; [intros m [] | split; [intros m [] | intros s []]]. }
  apply validateSignature_None in Hv. fold signed in Hv.
  split; [| split].
  - destruct received as [err | twMsg]; [intros m [] |].
    intros m _. split; [exact Hv | eexists; reflexivity].
  - destruct received as [err | twMsg]; [intros m [] |].
    destruct (WriteMsg rc _) as [err |] eqn:Hw; [intros m [] |].
    simpl. intros m [<- | []]. split; [left; reflexivity | exact Hw].
  - destruct status as [err | twStatus]; [intros s [] |].
    destruct (Twilio.twStatusMapping !! _) as [value |]; [| intros s []].
    destruct (WriteMsgStatus world _) as [err |] eqn:Hw; [intros s [] |].
    simpl. intros s [<- | []].
    split; [exact Hv |]. split; [eexists; reflexivity | exact Hw].
Qed.

(** The message Twilio's [ReceiveMessage] writes carries the message sid as
    external id and then one attachment for each index below [NumMedia], in
    order: the first value the posted form has for [MediaUrl] followed by
    the index, which is the empty string when the form lacks that field. Its
    text is the body run through [DecodePossibleBase64]. After the write
    succeeded the reply is an empty TwiML response with status 200, and the
    handler returns the error of writing it. *)
Theorem Twilio_ReceiveMessage_message
        hmac_sha1 rc NewTelURNForCountry DecodePossibleBase64 Fprint
        BaseURL channel r twMsg m :
  let receive :=
    Twilio.ReceiveMessage hmac_sha1 rc NewTelURNForCountry DecodePossibleBase64
                          Fprint BaseURL channel r (inr twMsg) in
  In (ToBackend m) (snd receive) ->
  in_channel m = Twilio.UUID channel
  /\ in_urn m
     = NewTelURNForCountry (Twilio.twMessage_From twMsg)
                           (Twilio.twMessage_FromCountry twMsg)
  /\ (Twilio.twMessage_Body twMsg <> "" ->
      in_text m = DecodePossibleBase64 (Twilio.twMessage_Body twMsg))
  /\ (Twilio.twMessage_Body twMsg = "" -> in_text m = "")
  /\ hd_error (in_calls m)
     = Some (WithExternalID (Twilio.twMessage_MessageSID twMsg))
  /\ length (in_calls m) = S (Z.to_nat (Twilio.twMessage_NumMedia twMsg))
  /\ (forall i,
        (0 <= i < Twilio.twMessage_NumMedia twMsg)%Z ->
        nth_error (in_calls m) (S (Z.to_nat i))
        = Some (WithAttachment
                  (default "" (Twilio.PostForm r !! ("MediaUrl" ++ fmt_d i)%string
                               ≫= head))))
  /\ (WriteMsg rc m = None ->
      receive
      = (([m], Fprint "<Response/>"),
         [ToBackend m; Response "text/xml" 200 "<Response/>"]))
  /\ (forall err, WriteMsg rc m = Some err ->
                  receive = (([], Some err), [ToBackend m])).
Proof.
  intros receive. subst receive. unfold Twilio.ReceiveMessage.
  destruct (Twilio.validateSignature hmac_sha1 BaseURL channel r) as [err |];
    [intros [] |].
  set (msg := mkIncomingMsg _ _ _ _).
  assert (Hm : In (ToBackend m)
                  (snd (match WriteMsg rc msg with
                        | Some err => (([], Some err), [ToBackend msg])
                        | None =>
                            let '(err, written) :=
                              Twilio.writeReceiveSuccess Fprint in
                            (([msg], err), ToBackend msg :: written)
                        end)) -> m = msg).
  { destruct (WriteMsg rc msg); simpl; intros H;
      repeat (destruct H as [H | H]);
      solve [discriminate H | contradiction | injection H as <-; reflexivity]. }
  intros Hin. apply Hm in Hin. subst m. clear Hm.
  split; [reflexivity |]. split; [reflexivity |].
  split; [| split].
  - intros Hbody. unfold msg. cbn [in_text].
    destruct (String.eqb_spec (Twilio.twMessage_Body twMsg) ""); [contradiction |].
    reflexivity.
  - intros Hbody. unfold msg. cbn [in_text]. rewrite Hbody. reflexivity.
  - split; [reflexivity |]. split; [| split; [| split]].
    + unfold msg. cbn [in_calls length]. rewrite length_map.
      unfold Twilio.upto. rewrite length_map, length_seq. reflexivity.
    + intros i Hi. unfold msg. cbn [in_calls nth_error].
      unfold Twilio.upto. rewrite List.map_map.
      rewrite nth_error_map_seq by lia. cbn [Nat.add].
      rewrite Z2Nat.id by lia. unfold Twilio.Get.
      destruct (Twilio.PostForm r !! _) as [[| v vs] |]; reflexivity.
    + intros ->. reflexivity.
    + intros err ->. reflexivity.
Qed.

(** Kannel's [ReceiveMessage] returns exactly the messages the backend
    accepted: the one message it built from the decoded request (sender as
    a tel URN for the channel, text, external id, then the timestamp as the
    time of receipt), or none. When the request cannot be decoded nothing
    is handed to the backend, the error is written to the response, and the
    handler returns what writing it returned: no error when that write
    succeeded. *)
Theorem Kannel_ReceiveMessage_returns_what_was_accepted
        rc NewTelURNForChannel channel decoded :
  let receive := Kannel.ReceiveMessage rc NewTelURNForChannel channel decoded in
  (forall m,
     In m (fst (fst receive))
     <-> In (ToBackend m) (snd receive) /\ WriteMsg rc m = None)
  /\ (forall m,
        In (ToBackend m) (snd receive) ->
        exists kannelMsg,
          decoded = inr kannelMsg
          /\ m = mkIncomingMsg (UUID channel)
                   (NewTelURNForChannel (Kannel.kannelMessage_Sender kannelMsg)
                                        channel)
                   (Kannel.kannelMessage_Message kannelMsg)
                   [WithExternalID (Kannel.kannelMessage_ID kannelMsg);
                    WithReceivedOn (Kannel.kannelMessage_Timestamp kannelMsg)]
          /\ (forall err, WriteMsg rc m = Some err ->
                          receive = (([], Some err), [ToBackend m]))
          /\ (WriteMsg rc m = None ->
              receive = (([m], WriteReceiveSuccess rc m),
                         [ToBackend m; SuccessReply m])))
  /\ (forall err,
        decoded = inl err ->
        receive = (([], WriteError rc err), [ErrorReply err])).
Proof.
  intros receive. subst receive. unfold Kannel.ReceiveMessage.
  destruct decoded as [err | kannelMsg].
  { split; [| split].
    - intros m. simpl. split; [intros [] | intros [[H | []] _]; discriminate H].
    - intros m [H | []]. discriminate H.
    - intros err' [= <-]. reflexivity. }
  set (msg := mkIncomingMsg _ _ _ _).
  split; [| split; [| discriminate]].
  - intros m. destruct (WriteMsg rc msg) as [err |] eqn:Hw; simpl.
    + split; [intros [] |]. intros [[[= <-] | []] Hnone]. congruence.
    + split.
      * intros [<- | []]. split; [left; reflexivity | exact Hw].
      * intros [[[= <-] | [H | []]] _]; [left; reflexivity | discriminate H].
  - intros m Hin.
    assert (Hm : m = msg).
    { destruct (WriteMsg rc msg); simpl in Hin;
        repeat (destruct Hin as [Hin | Hin]);
        solve [discriminate Hin | contradiction
              | injection Hin as <-; reflexivity]. }
    subst m. exists kannelMsg. split; [reflexivity |]. split; [reflexivity |].
    split; [intros err -> | intros ->]; reflexivity.
Qed.


(** A signed request that brings a message with two media, of which the
    form has only the first. *)
Definition signedMessage : Twilio.Request :=
  Twilio.mkRequest None "/c/tw/receive"
    (list_to_map [("MediaUrl0", ["https://example.org/a.jpg"])])
    ["MediaUrl0"]
    (Twilio.base64_Encode
       "secrethttps://example.org/c/tw/receiveMediaUrl0https://example.org/a.jpg").

Definition twReceived : Twilio.twMessage :=
  Twilio.mkTwMessage "SM1" "AC1" "+15551234" "US" "+12065551212" "US" "hello" 2.

Definition acceptAll : Receiver :=
  mkReceiver (fun _ => None) (fun _ => None) (fun _ => None).

Lemma Twilio_handlers_require_signature_witness :
  exists authToken,
    Twilio.ConfigAuthToken (Twilio.mkChannel "chan2" (Some "secret"))
    = Some authToken
    /\ authToken <> ""
    /\ Twilio.X_Twilio_Signature signedMessage
       = fst (Twilio.twCalculateSignature (fun key msg => (key ++ msg)%string)
                ("https://example.org" ++ Twilio.RequestURI signedMessage)%string
                (Twilio.PostForm signedMessage)
                (Twilio.range_PostForm signedMessage) authToken).
Proof.
  refine (proj1 (proj1 (Twilio_handlers_require_signature
                   (fun key msg => (key ++ msg)%string) acceptAll allGood
                   (fun number country => ("tel:" ++ number)%string)
                   (fun body => body) (fun _ => None)
                   "https://example.org" (Twilio.mkChannel "chan2" (Some "secret"))
                   signedMessage (inr twReceived) (inl (Errorf "no status")))
                 (mkIncomingMsg "chan2" "tel:+15551234" "hello"
                    [WithExternalID "SM1";
                     WithAttachment "https://example.org/a.jpg";
                     WithAttachment ""]) _)).
  left. reflexivity.
Defined.

Lemma Twilio_ReceiveMessage_message_witness :
  nth_error
    (in_calls (mkIncomingMsg "chan2" "tel:+15551234" "hello"
                 [WithExternalID "SM1";
                  WithAttachment "https://example.org/a.jpg";
                  WithAttachment ""]))
    2
  = Some (WithAttachment
            (default "" (Twilio.PostForm signedMessage !! "MediaUrl1" ≫= head))).
Proof.
  refine (proj1 (proj2 (proj2 (proj2 (proj2 (proj2 (proj2
            (Twilio_ReceiveMessage_message
               (fun key msg => (key ++ msg)%string) acceptAll
               (fun number country => ("tel:" ++ number)%string)
               (fun body => body) (fun _ => None)
               "https://example.org" (Twilio.mkChannel "chan2" (Some "secret"))
               signedMessage twReceived
               (mkIncomingMsg "chan2" "tel:+15551234" "hello"
                  [WithExternalID "SM1";
                   WithAttachment "https://example.org/a.jpg";
                   WithAttachment ""]) _))))))) 1%Z _).
  - left. reflexivity.
  - simpl. lia.
Defined.

Lemma Kannel_ReceiveMessage_returns_what_was_accepted_witness :
  Kannel.ReceiveMessage acceptAll (fun sender _ => ("tel:" ++ sender)%string)
    (knChannel "secret") (inl (Errorf "field 'id' required"))
  = (([], None), [ErrorReply (Errorf "field 'id' required")]).
Proof.
  exact (proj2 (proj2 (Kannel_ReceiveMessage_returns_what_was_accepted
                         acceptAll (fun sender _ => ("tel:" ++ sender)%string)
                         (knChannel "secret")
                         (inl (Errorf "field 'id' required"))))
               (Errorf "field 'id' required") eq_refl).
Defined.

End Handlers.

(** ** The queue engine *)
Module Queue.

(** Modelled from the spec: queue.go ([PushOntoQueue], [PopFromQueue],
    [MarkComplete], [StartDethrottler] and their scripts) is not among the
    sources, only queue/queue_test.go is. The definitions of this module
    follow the spec's data model (section 3, queue state) and its section
    4.1 and 4.2 step by step. *)
Inductive priority : Type := DefaultPriority | BulkPriority.

#[global] Instance priority_eq_dec : EqDecision priority.
Proof. solve_decision. Defined.

(** Modelled from the spec: the payload is an opaque string; the engine only
    tells a JSON array, the compound payload, from anything else. *)
#[warnings="-register-all"]
Inductive payload : Type :=
| Plain (text : string)
| Array (elements : list payload).

(** Modelled from the spec: the destination token
    ["<queueName>:<channelUUID>|<rateLimit>"], kept as its three fields. *)
Record token := mkToken {
  tok_queue : string;
  tok_channel : string;
  tok_rate : Z
}.

#[global] Instance token_eq_dec : EqDecision token.
Proof. solve_decision. Defined.

(** Modelled from the spec: what a pop returns in place of a token when
    there is no work ([EmptyQueue]) or the caller should try again
    ([Retry]). *)
Inductive WorkerToken : Type :=
| EmptyQueue
| Retry
| Token (t : token).

(** Modelled from the spec: a sorted set, as the list of its entries with
    their scores, lowest score first. [zinsert] puts an entry after the
    entries whose score is not greater. *)
Fixpoint zinsert {A : Type} (score : Z) (x : A) (l : list (Z * A))
  : list (Z * A) :=
  match l with
  | [] => [(score, x)]
  | (score', y) :: rest =>
      if (score <? score')%Z then (score, x) :: l
      else (score', y) :: zinsert score x rest
  end.

(** Modelled from the spec: removing a token from a sorted set, and asking
    whether it is a member. *)
Definition zrem (t : token) (l : list (Z * token)) : list (Z * token) :=
  List.filter (fun e => negb (bool_decide (snd e = t))) l.

Definition zmember (t : token) (l : list (Z * token)) : bool :=
  existsb (fun e => bool_decide (snd e = t)) l.

(** Modelled from the spec: adding a token to a sorted set; one that is
    there already moves to its new score. *)
Definition zadd (score : Z) (t : token) (l : list (Z * token))
  : list (Z * token) :=
  zinsert score t (zrem t l).

(** Modelled from the spec: the queue state in the KV (section 3). For a
    queue name [Q]: [active Q] and [throttled Q] hold destination tokens
    scored by epoch second; [tier (t, p)] holds the payloads of tier [p] of
    destination [t], scored by insertion sequence number; [transactions t]
    holds the epoch millisecond of each hand-off for [t]; [sequence] is the
    next insertion sequence number. A key that was never written holds the
    empty set. *)
Record store := mkStore {
  active : string -> list (Z * token);
  throttled : string -> list (Z * token);
  tier : token * priority -> list (Z * payload);
  transactions : token -> list Z;
  sequence : Z
}.

Definition empty : store :=
  mkStore (fun _ => []) (fun _ => []) (fun _ => []) (fun _ => []) 0.

(** Modelled from the spec: the epoch second of an epoch millisecond. *)
Definition seconds (now : Z) : Z := now / 1000.

(** Modelled from the spec: push (section 4.1), with the clock reading [now]
    in epoch milliseconds: 1. build the token; 2. append the payload to the
    tier with the next sequence number; 3. unless the destination is
    throttled, add it to [active] with score now. *)
Definition PushOntoQueue (s : store) (now : Z) (queueName channelKey : string)
           (rateLimit : Z) (x : payload) (p : priority) : store :=
  let t := mkToken queueName channelKey rateLimit in
  {| active :=
       if zmember t (throttled s queueName) then active s
       else <[queueName := zadd (seconds now) t (active s queueName)]> (active s);
     throttled := throttled s;
     tier := <[(t, p) := zinsert (sequence s) x (tier s (t, p))]> (tier s);
     transactions := transactions s;
     sequence := sequence s + 1 |}.

(** Modelled from the spec: step 1 of pop, the lowest-scored token of [active] whose score is at
    most now. *)
Definition eligible (s : store) (now : Z) (queueName : string) : option token :=
  snd <$> List.find (fun e => (fst e <=? seconds now)%Z) (active s queueName).

(** Modelled from the spec: step 3 of pop, the entries of [transactions]
    within the last 1000 ms, and whether they reach the rate limit. *)
Definition recent (now : Z) (txs : list Z) : list Z :=
  List.filter (fun ts => (now - 1000 <=? ts)%Z && (ts <=? now)%Z) txs.

Definition limited (s : store) (now : Z) (t : token) : bool :=
  (0 <? tok_rate t)%Z
  && (tok_rate t <=? Z.of_nat (length (recent now (transactions s t))))%Z.

(** Modelled from the spec: step 5 of pop, the payload handed out and the
    remainder of a compound payload that goes back; nothing goes back once
    the array is used up. *)
Definition split (x : payload) : payload * option payload :=
  match x with
  | Array (head :: tail) =>
      (head, match tail with [] => None | _ :: _ => Some (Array tail) end)
  | _ => (x, None)
  end.

(** Modelled from the spec: step 5 of pop, the tier once its first entry
    [(score, x)] is taken: the remainder of a compound payload goes back
    with score - 1. *)
Definition requeue (score : Z) (x : payload) (rest : list (Z * payload))
  : list (Z * payload) :=
  match snd (split x) with
  | Some tail => zinsert (score - 1) tail rest
  | None => rest
  end.

(** Modelled from the spec: steps 4 to 8 of pop for the first entry
    [(score, x)] of tier [p] of the destination [t], [rest] being the other
    entries of that tier. *)
Definition serve (s : store) (now : Z) (queueName : string) (t : token)
           (p : priority) (score : Z) (x : payload) (rest : list (Z * payload))
  : WorkerToken * option payload * store :=
  let tiers := <[(t, p) := requeue score x rest]> (tier s) in
  let nothing_left :=
    match tiers (t, DefaultPriority), tiers (t, BulkPriority) with
    | [], [] => true
    | _, _ => false
    end in
  (Token t, Some (fst (split x)),
   {| active :=
        <[queueName :=
            if nothing_left then zrem t (active s queueName)
            else zadd (seconds now) t (active s queueName)]> (active s);
      throttled := throttled s;
      tier := tiers;
      transactions := <[t := transactions s t ++ [now]]> (transactions s);
      sequence := sequence s |}).

(** Modelled from the spec: pop (section 4.1), one atomic script, with the
    clock reading [now] in epoch milliseconds; errors of the connection to
    the KV are left out. The spec does not say what happens when the token found has both tiers empty,
    which no run from the empty store reaches; here the token leaves
    [active] and the caller is told to retry. *)
Definition PopFromQueue (s : store) (now : Z) (queueName : string)
  : WorkerToken * option payload * store :=
  match eligible s now queueName with
  | None => (EmptyQueue, None, s)
  | Some t =>
      if limited s now t then
        (Retry, None,
         {| active := <[queueName := zrem t (active s queueName)]> (active s);
            throttled :=
              <[queueName := zadd (seconds now + 1) t (throttled s queueName)]>
                (throttled s);
            tier := tier s;
            transactions := transactions s;
            sequence := sequence s |})
      else
        match tier s (t, DefaultPriority), tier s (t, BulkPriority) with
        | (score, x) :: rest, _ => serve s now queueName t DefaultPriority score x rest
        | [], (score, x) :: rest =>
          serve s now queueName t BulkPriority score x rest
        | [], [] =>
            (Retry, None,
             {| active := <[queueName := zrem t (active s queueName)]> (active s);
                throttled := throttled s;
                tier := tier s;
                transactions := transactions s;
                sequence := sequence s |})
        end
  end.

(** Modelled from the spec: complete (section 4.1) records nothing beyond
    what pop already did. *)
Definition MarkComplete (s : store) (queueName : string) (t : WorkerToken)
  : store := s.

(** Modelled from the spec: one round of the dethrottler (section 4.2):
    every token of [throttled] whose score is at most now moves to [active]
    with the same score. *)
Definition Dethrottle (s : store) (now : Z) (queueName : string) : store :=
  let due e := (fst e <=? seconds now)%Z in
  {| active :=
       <[queueName :=
           fold_left (fun a e => zadd (fst e) (snd e) a)
                     (List.filter due (throttled s queueName))
                     (active s queueName)]> (active s);
     throttled :=
       <[queueName := List.filter (fun e => negb (due e)) (throttled s queueName)]>
         (throttled s);
     tier := tier s;
     transactions := transactions s;
     sequence := sequence s |}.

(** *** Runs of the engine *)

(** The calls made on the store by the handlers, the workers and the
    dethrottler, each an atomic script. *)
Inductive op : Type :=
| Push (now : Z) (queueName channelKey : string) (rateLimit : Z) (x : payload)
       (p : priority)
| Pop (now : Z) (queueName : string)
| Tick (now : Z) (queueName : string)
| Complete (queueName : string) (t : WorkerToken).

(** A pop that returned a payload: when, for which destination, and what. *)
Record handoff := mkHandoff { at_ms : Z; dest : token; what : payload }.

Definition step (s : store) (o : op) : store * list handoff :=
  match o with
  | Push now q c r x p => (PushOntoQueue s now q c r x p, [])
  | Pop now q =>
      match PopFromQueue s now q with
      | (Token t, Some x, s') => (s', [mkHandoff now t x])
      | (_, _, s') => (s', [])
      end
  | Tick now q => (Dethrottle s now q, [])
  | Complete q t => (MarkComplete s q t, [])
  end.

Fixpoint run (s : store) (ops : list op) : store * list handoff :=
  match ops with
  | [] => (s, [])
  | o :: rest =>
      let '(s1, h) := step s o in
      let '(s2, log) := run s1 rest in
      (s2, h ++ log)
  end.

(** The payloads handed out for a destination, in order. *)
Definition delivered (t : token) (log : list handoff) : list payload :=
  what <$> List.filter (fun h => bool_decide (dest h = t)) log.

(** The payloads pushed to a tier of a destination, in order. *)
Definition pushed_to (t : token) (p : priority) (o : op) : list payload :=
  match o with
  | Push _ q c r x p' =>
      if bool_decide ((mkToken q c r, p') = (t, p)) then [x] else []
  | _ => []
  end.


Definition other (p : priority) : priority :=
  match p with DefaultPriority => BulkPriority | BulkPriority => DefaultPriority end.

(** What the pops make of a payload: a non-empty array comes out element by
    element, anything else as it is. *)
Definition parts (x : payload) : list payload :=
  match x with
  | Array (head :: tail) => head :: tail
  | _ => [x]
  end.

(** What a tier still has to hand out, in order. *)
Definition pending (s : store) (k : token * priority) : list payload :=
  flat_map (fun e => parts (snd e)) (tier s k).

(** The entries of a tier are in score order, below the next sequence
    number. *)
Definition tier_ok (next : Z) (l : list (Z * payload)) : Prop :=
  StronglySorted (fun e1 e2 => fst e1 <= fst e2) l
  /\ Forall (fun e => fst e < next) l.

Definition wf (s : store) : Prop := forall k, tier_ok (sequence s) (tier s k).

(** *** Sorted sets *)

Lemma zinsert_last {A : Type} (score : Z) (x : A) (l : list (Z * A)) :
  Forall (fun e => fst e < score) l -> zinsert score x l = l ++ [(score, x)].
Proof.
  induction l as [| [score' y] rest IH]; intros Hall; simpl; [reflexivity |].
  inversion Hall as [| e l' Hlt Hrest]; subst; simpl in Hlt.
  destruct (Z.ltb_spec score score') as [Hc | Hc]; [lia |].
  rewrite (IH Hrest). reflexivity.
Qed.

Lemma zinsert_first {A : Type} (score : Z) (x : A) (l : list (Z * A)) :
  Forall (fun e => score < fst e) l -> zinsert score x l = (score, x) :: l.
Proof.
  destruct l as [| [score' y] rest]; intros Hall; simpl; [reflexivity |].
  inversion Hall as [| e l' Hlt Hrest]; subst; simpl in Hlt.
  destruct (Z.ltb_spec score score') as [Hc | Hc]; [reflexivity | lia].
Qed.


Lemma tier_ok_push next x l :
  tier_ok next l -> tier_ok (next + 1) (zinsert next x l).
Proof.
  intros [Hs Hb]. rewrite (zinsert_last _ _ _ Hb). split.
  - apply StronglySorted_app. split; [| split; [exact Hs | repeat constructor]].
    intros e1 e2 H1 H2. apply list_elem_of_singleton in H2; subst e2; simpl.
    apply list_elem_of_In in H1.
    rewrite List.Forall_forall in Hb. specialize (Hb e1 H1). lia.
  - apply Forall_app. split.
    + eapply List.Forall_impl; [| exact Hb]. simpl. intros e He. lia.
    + constructor; [simpl; lia | constructor].
Qed.

Lemma tier_ok_weaken next l : tier_ok next l -> tier_ok (next + 1) l.
Proof.
  intros [Hs Hb]. split; [exact Hs |].
  eapply List.Forall_impl; [| exact Hb]. simpl. intros e He. lia.
Qed.

Lemma tier_ok_tail next e rest : tier_ok next (e :: rest) -> tier_ok next rest.
Proof.
  intros [Hs Hb]. inversion Hs; subst. inversion Hb; subst. split; assumption.
Qed.

(** The remainder of a compound payload goes back in front of the rest. *)
Lemma requeue_front next score x rest tail :
  tier_ok next ((score, x) :: rest) ->
  snd (split x) = Some tail ->
  requeue score x rest = (score - 1, tail) :: rest.
Proof.
  intros [Hs _] Htail. unfold requeue. rewrite Htail.
  apply zinsert_first. inversion Hs as [| e l Hrest Hle]; subst.
  eapply List.Forall_impl; [| exact Hle]. simpl. intros e He. lia.
Qed.

Lemma tier_ok_requeue next score x rest :
  tier_ok next ((score, x) :: rest) -> tier_ok next (requeue score x rest).
Proof.
  intros Hok. destruct (snd (split x)) as [tail |] eqn:Htail.
  - rewrite (requeue_front _ _ _ _ _ Hok Htail).
    destruct Hok as [Hs Hb].
    inversion Hs as [| e l Hrest Hle]; subst.
    inversion Hb as [| e l Hlt Hbrest]; subst. simpl in Hlt.
    split.
    + constructor; [exact Hrest |].
      eapply List.Forall_impl; [| exact Hle]. simpl. intros e He. lia.
    + constructor; [simpl; lia | exact Hbrest].
  - unfold requeue. rewrite Htail. exact (tier_ok_tail _ _ _ Hok).
Qed.

(** Taking the first entry of a tier hands out the first of its parts. *)
Lemma parts_split x :
  parts x = fst (split x) :: match snd (split x) with
                             | Some tail => parts tail
                             | None => []
                             end.
Proof.
  destruct x as [text | [| head [| e tail]]]; reflexivity.
Qed.

Lemma pending_requeue next score x rest :
  tier_ok next ((score, x) :: rest) ->
  flat_map (fun e => parts (snd e)) ((score, x) :: rest)
  = fst (split x) :: flat_map (fun e => parts (snd e)) (requeue score x rest).
Proof.
  intros Hok. simpl. rewrite (parts_split x).
  destruct (snd (split x)) as [tail |] eqn:Htail.
  - rewrite (requeue_front _ _ _ _ _ Hok Htail). reflexivity.
  - unfold requeue. rewrite Htail. reflexivity.
Qed.

(** *** What one call does *)

(** The two ways a pop can end: without a payload, the tiers and the
    transactions being as before; or with the first part of the first
    payload of a tier of the eligible destination, which was under its rate
    limit, the bulk tier being served only when the default tier is empty. *)
Inductive pop_outcome (s : store) (now : Z) (q : string)
  : WorkerToken * option payload * store -> Prop :=
| pop_nothing r s' :
    (forall t, r <> Token t) ->
    tier s' = tier s ->
    transactions s' = transactions s ->
    sequence s' = sequence s ->
    pop_outcome s now q (r, None, s')
| pop_served t p score x rest s' :
    eligible s now q = Some t ->
    limited s now t = false ->
    tier s (t, p) = (score, x) :: rest ->
    (p = BulkPriority -> tier s (t, DefaultPriority) = []) ->
    tier s' = <[(t, p) := requeue score x rest]> (tier s) ->
    transactions s' = <[t := transactions s t ++ [now]]> (transactions s) ->
    sequence s' = sequence s ->
    pop_outcome s now q (Token t, Some (fst (split x)), s').

Lemma PopFromQueue_outcome s now q : pop_outcome s now q (PopFromQueue s now q).
Proof.
  unfold PopFromQueue.
  destruct (eligible s now q) as [t |] eqn:He.
  - destruct (limited s now t) eqn:Hl.
    + apply pop_nothing; [discriminate | reflexivity ..].
    + destruct (tier s (t, DefaultPriority)) as [| [score x] rest] eqn:Hd.
      * destruct (tier s (t, BulkPriority)) as [| [score x] rest] eqn:Hb.
        -- apply pop_nothing; [discriminate | reflexivity ..].
        -- unfold serve.
           apply (pop_served s now q t BulkPriority score x rest);
             [exact He | exact Hl | exact Hb | intros _; exact Hd | reflexivity ..].
      * unfold serve.
        apply (pop_served s now q t DefaultPriority score x rest);
          [exact He | exact Hl | exact Hd | discriminate | reflexivity ..].
  - apply pop_nothing; [discriminate | reflexivity ..].
Qed.

Lemma pending_nil s k : pending s k = [] <-> tier s k = [].
Proof.
  unfold pending. split; [| intros ->; reflexivity].
  destruct (tier s k) as [| [score x] rest]; [reflexivity |].
  simpl. rewrite (parts_split x). discriminate.
Qed.

Lemma other_neq p : other p <> p.
Proof. destruct p; discriminate. Qed.


(** The times of the hand-offs for a destination. *)
Definition times (t : token) (log : list handoff) : list Z :=
  at_ms <$> List.filter (fun h => bool_decide (dest h = t)) log.

(** One call, seen from a destination [t]: either nothing is handed out for
    [t] and each of its tiers keeps what it had, followed by what is pushed
    to it; or nothing is pushed to [t] and the first pending part of one of
    its tiers is handed out, the other tier is as before, and the bulk tier
    is served only when the default tier is empty. *)
Lemma step_token s o t :
  wf s ->
  wf (fst (step s o))
  /\ transactions (fst (step s o)) t
     = transactions s t ++ times t (snd (step s o))
  /\ ((delivered t (snd (step s o)) = []
       /\ forall p, pending (fst (step s o)) (t, p)
                    = pending s (t, p) ++ flat_map parts (pushed_to t p o))
      \/ (exists p out,
            delivered t (snd (step s o)) = [out]
            /\ (forall p', pushed_to t p' o = [])
            /\ pending s (t, p) = out :: pending (fst (step s o)) (t, p)
            /\ pending (fst (step s o)) (t, other p) = pending s (t, other p)
            /\ (p = BulkPriority -> pending s (t, DefaultPriority) = []))).
Proof.
  intros Hwf. destruct o as [now q c r x p | now q | now q | q w]; simpl.
  - (* push *)
    split; [| split].
    + intros k. unfold PushOntoQueue; simpl. unfold insert, fn_insert.
      destruct (decide ((mkToken q c r, p) = k)) as [<- | Hne].
      * apply tier_ok_push, Hwf.
      * apply tier_ok_weaken, Hwf.
    + unfold times; simpl. rewrite app_nil_r. reflexivity.
    + left. split; [reflexivity |]. intros p'.
      unfold pending, PushOntoQueue; simpl. unfold insert, fn_insert.
      destruct (decide ((mkToken q c r, p) = (t, p'))) as [Heq | Hne].
      * rewrite (bool_decide_eq_true_2 _ Heq). rewrite <- Heq.
        rewrite (zinsert_last _ _ _ (proj2 (Hwf _))).
        rewrite flat_map_app. simpl. rewrite !app_nil_r. reflexivity.
      * rewrite (bool_decide_eq_false_2 _ Hne). simpl. rewrite app_nil_r.
        reflexivity.
  - (* pop *)
    destruct (PopFromQueue_outcome s now q)
      as [w s' Hw Ht Hx Hq | t' p score x rest s' He Hl Hk Hd Ht Hx Hq].
    + replace (match w with
               | Token t0 => (s', [])
               | _ => (s', [])
               end) with (s', @nil handoff) by (destruct w; reflexivity).
      simpl. split; [| split].
      * intros k. unfold tier_ok. rewrite Hq, Ht. apply Hwf.
      * rewrite Hx. unfold times; simpl. rewrite app_nil_r. reflexivity.
      * left. split; [reflexivity |]. intros p'. unfold pending. rewrite Ht.
        rewrite app_nil_r. reflexivity.
    + simpl. split; [| split].
      * intros k. rewrite Hq, Ht. unfold insert, fn_insert.
        destruct (decide ((t', p) = k)) as [<- | Hne]; [| apply Hwf].
        apply tier_ok_requeue. rewrite <- Hk. apply Hwf.
      * rewrite Hx. unfold times, insert, fn_insert; simpl.
        destruct (decide (t' = t)) as [-> | Hne].
        -- rewrite bool_decide_eq_true_2 by reflexivity. reflexivity.
        -- rewrite (bool_decide_eq_false_2 _ Hne). simpl. rewrite app_nil_r.
           reflexivity.
      * unfold delivered; simpl.
        destruct (decide (t' = t)) as [-> | Hne].
        -- rewrite bool_decide_eq_true_2 by reflexivity. simpl.
           right. exists p, (fst (split x)).
           split; [reflexivity |]. split; [reflexivity |].
           unfold pending. rewrite Ht. unfold insert, fn_insert.
           rewrite decide_True by reflexivity.
           rewrite decide_False
             by (intros [= Habs]; symmetry in Habs; exact (other_neq p Habs)).
           split; [| split; [reflexivity |]].
           ++ rewrite Hk. apply (pending_requeue (sequence s)).
              rewrite <- Hk. apply Hwf.
           ++ intros Hp. rewrite (Hd Hp). reflexivity.
        -- rewrite (bool_decide_eq_false_2 _ Hne). simpl.
           left. split; [reflexivity |]. intros p'.
           unfold pending. rewrite Ht. unfold insert, fn_insert.
           rewrite decide_False by (intros [= Habs _]; exact (Hne Habs)).
           rewrite app_nil_r. reflexivity.
  - (* dethrottler *)
    split; [exact Hwf |]. split.
    + unfold times; simpl. rewrite app_nil_r. reflexivity.
    + left. split; [reflexivity |]. intros p. rewrite app_nil_r. reflexivity.
  - (* complete *)
    split; [exact Hwf |]. split.
    + unfold times; simpl. rewrite app_nil_r. reflexivity.
    + left. split; [reflexivity |]. intros p. rewrite app_nil_r. reflexivity.
Qed.

(** *** Runs, seen from one destination *)


Lemma times_app t log1 log2 :
  times t (log1 ++ log2) = times t log1 ++ times t log2.
Proof. unfold times. rewrite List.filter_app, fmap_app. reflexivity. Qed.


Lemma run_cons s o ops :
  run s (o :: ops)
  = (fst (run (fst (step s o)) ops),
     snd (step s o) ++ snd (run (fst (step s o)) ops)).
Proof.
  simpl. destruct (step s o) as [s1 h]. simpl.
  destruct (run s1 ops) as [s2 log]. reflexivity.
Qed.


Lemma run_wf ops : forall s, wf s -> wf (fst (run s ops)).
Proof.
  induction ops as [| o ops IH]; intros s Hwf; [exact Hwf |].
  rewrite run_cons. simpl. apply IH. apply (step_token s o (mkToken "" "" 0) Hwf).
Qed.



(** *** FIFO within a tier *)


(** The destination of the test, and a run on it: three bulk pushes with two
    pops in between and a round of the dethrottler. *)
Definition chan1 : token := mkToken "msgs" "chan1" 10.




(** *** Default before bulk *)

(** A bulk push, then a default push, then a pop, on the empty store. *)
Definition bulkThenDefault : store :=
  PushOntoQueue
    (PushOntoQueue empty 500 "msgs" "chan1" 10 (Plain "msg:30") BulkPriority)
    501 "msgs" "chan1" 10 (Plain "msg:31") DefaultPriority.

(** C2: a pop that returns a payload for a destination whose default tier
    holds payloads returns the first part of the first default payload and
    leaves the bulk tier as it is, whatever the bulk tier holds; such a pop
    does return when the destination is the one the pop finds and it is
    under its rate limit; in particular after a bulk push followed by a
    default push to a destination whose default tier was empty, a pop for
    that destination returns the default payload. *)
Theorem default_preempts_bulk s now q :
  (forall t x s' score y rest,
     PopFromQueue s now q = (Token t, Some x, s') ->
     tier s (t, DefaultPriority) = (score, y) :: rest ->
     x = fst (split y)
     /\ tier s' (t, BulkPriority) = tier s (t, BulkPriority)
     /\ tier s' (t, DefaultPriority) = requeue score y rest)
  /\ (forall t score y rest,
        eligible s now q = Some t ->
        limited s now t = false ->
        tier s (t, DefaultPriority) = (score, y) :: rest ->
        fst (PopFromQueue s now q) = (Token t, Some (fst (split y))))
  /\ (forall now1 now2 now3 c r b d x s',
        tier s (mkToken q c r, DefaultPriority) = [] ->
        PopFromQueue
          (PushOntoQueue (PushOntoQueue s now1 q c r b BulkPriority)
                         now2 q c r d DefaultPriority) now3 q
        = (Token (mkToken q c r), Some x, s') ->
        x = fst (split d)).
Proof.
  assert (Hfirst : forall s0 now0 t x s' score y rest,
     PopFromQueue s0 now0 q = (Token t, Some x, s') ->
     tier s0 (t, DefaultPriority) = (score, y) :: rest ->
     x = fst (split y)
     /\ tier s' (t, BulkPriority) = tier s0 (t, BulkPriority)
     /\ tier s' (t, DefaultPriority) = requeue score y rest).
  { intros s0 now0 t x s' score y rest Hpop Hd.
    pose proof (PopFromQueue_outcome s0 now0 q) as Hout. rewrite Hpop in Hout.
    inversion Hout as [| t' p score' x' rest' s'' He Hl Hk Hdef Ht Hx Hq]; subst.
    destruct p.
    - rewrite Hd in Hk. injection Hk as -> -> ->.
      split; [reflexivity |]. rewrite Ht. unfold insert, fn_insert.
      rewrite decide_False by discriminate.
      rewrite decide_True by reflexivity. split; reflexivity.
    - rewrite (Hdef eq_refl) in Hd. discriminate Hd. }
  split; [intros t x s'; apply Hfirst |]. split.
  - intros t score y rest He Hl Hd.
    unfold PopFromQueue. rewrite He, Hl, Hd. reflexivity.
  - intros now1 now2 now3 c r b d x s' Hempty Hpop.
    apply (Hfirst _ _ _ _ _ (sequence s + 1) d [] Hpop).
    unfold PushOntoQueue; simpl. unfold insert, fn_insert.
    rewrite decide_True by reflexivity.
    rewrite decide_False by discriminate.
    rewrite Hempty. reflexivity.
Qed.

Lemma default_preempts_bulk_witness :
  fst (PopFromQueue bulkThenDefault 2000 "msgs")
  = (Token chan1, Some (Plain "msg:31")).
Proof.
  apply (proj1 (proj2 (default_preempts_bulk bulkThenDefault 2000 "msgs"))
           chan1 1 (Plain "msg:31") []);
    reflexivity.
Defined.

(** *** Compound payloads *)

(** A compound payload at the head of the default tier of a destination
    without rate limit, a later push to the same tier, and four pops. *)
Definition chan2 : token := mkToken "msgs" "chan2" 0.

Definition abc : payload := Array [Plain "a"; Plain "b"; Plain "c"].



(** [interleave l r m]: [m] is made of the elements of [l] and of [r], each
    list in its order. *)
Inductive interleave {A : Type} : list A -> list A -> list A -> Prop :=
| interleave_nil : interleave [] [] []
| interleave_left x l r m : interleave l r m -> interleave (x :: l) r (x :: m)
| interleave_right x l r m : interleave l r m -> interleave l (x :: r) (x :: m).


Lemma interleave_nil_r {A : Type} (l : list A) : interleave l [] l.
Proof. induction l; constructor; assumption. Qed.











(** A plain payload is queued, then the compound payload is pushed to the
    same tier, then three pops succeed. *)
Definition abcBehind : list op :=
  [Push 500 "msgs" "chan2" 0 (Plain "msg:0") DefaultPriority;
   Push 501 "msgs" "chan2" 0 abc DefaultPriority;
   Pop 2000 "msgs"; Pop 2001 "msgs"; Pop 2002 "msgs"].

(** By the steps of the spec too, the three successful pops that follow the
    push of [a,b,c] need not return a, b, c: they return the payload queued
    before it, then a and b. *)
Lemma compound_not_next_when_queued_behind :
  delivered chan2 (snd (run empty abcBehind))
  = [Plain "msg:0"; Plain "a"; Plain "b"]
  /\ delivered chan2 (snd (run empty abcBehind))
     <> [Plain "a"; Plain "b"; Plain "c"].
Proof. split; [reflexivity | discriminate]. Qed.

(** *** The run of queue/queue_test.go *)

Definition msg (i : nat) : payload := Plain ("msg:" ++ fmt_d (Z.of_nat i))%string.

(** [TestLua] up to its first pop after the compound push: twenty bulk
    pushes at rate 10, ten pops at a second boundary, two more pops, a bulk
    push, a second later a round of the dethrottler and a default push, six
    pops, the compound push (its JSON objects written as plain payloads) and
    one pop. *)
Definition TestLua_start : list op :=
  List.map (fun i => Push 500 "msgs" "chan1" 10 (msg i) BulkPriority) (seq 0 20)
  ++ repeat (Pop 2000 "msgs") 12
  ++ [Push 2100 "msgs" "chan1" 10 (msg 30) BulkPriority;
      Tick 3000 "msgs";
      Push 3001 "msgs" "chan1" 10 (msg 31) DefaultPriority]
  ++ repeat (Pop 3002 "msgs") 6
  ++ [Push 3003 "msgs" "chan1" 10 (Array [msg 32; msg 33]) DefaultPriority;
      Pop 3004 "msgs"].

(** The model hands out what the test asserts: msg:0 to msg:9, then,
    once the throttle has cleared, msg:31 before msg:10 to msg:14, then
    msg:32. *)
Example TestLua_start_delivered :
  delivered chan1 (snd (run empty TestLua_start))
  = List.map msg (seq 0 10) ++ [msg 31] ++ List.map msg (seq 10 5) ++ [msg 32].
Proof. vm_compute. reflexivity. Qed.

(** After the eleventh pop the destination is throttled and not active,
    and the push that follows leaves it so, as the test asserts. *)
Example TestLua_throttled :
  let s := fst (run empty (firstn 33 TestLua_start)) in
  throttled s "msgs" = [(3, chan1)] /\ active s "msgs" = [].
Proof. vm_compute. split; reflexivity. Qed.

(** Two seconds later the test asserts msg:15 to msg:19 and msg:30 for its
    next pops and msg:33 only seconds after them (queue_test.go, lines 127
    to 159); the steps of the spec hand out msg:33 first, the remainder
    being at the head of the default tier. *)
Example TestLua_remainder_first :
  delivered chan1
    (snd (run (fst (run empty TestLua_start))
              [Tick 4000 "msgs"; Tick 5000 "msgs"; Pop 5100 "msgs"; Pop 5101 "msgs"]))
  = [msg 33; msg 15].
Proof. vm_compute. reflexivity. Qed.

(** What [TestLua] does and asserts from its compound push on
    (queue_test.go, lines 119 to 168), in order: a push for chan1 at rate
    10, a sleep, a pop for which it asserts a payload, and its loop of pops
    that ends with the assertion that the queue is empty and the value too.
    The JSON objects of the compound payload are written as plain
    payloads. *)
Inductive asserted : Type :=
| Pushed (x : payload) (p : priority)
| Slept (ms : Z)
| Returned (x : payload)
| NothingLeft.

Definition TestLua_compound : list asserted :=
  [Pushed (Array [msg 32; msg 33]) DefaultPriority;
   Returned (msg 32);
   Slept 2000]
  ++ List.map (fun i => Returned (msg i)) (seq 15 5)
  ++ [Returned (msg 30);
      NothingLeft;
      Slept 6000;
      Returned (msg 33);
      NothingLeft].

(** The payloads of the pops that returned one, in order. *)
Definition returned (test : list asserted) : list payload :=
  flat_map (fun e => match e with Returned x => [x] | _ => [] end) test.


(** What the test asserts agrees with C4 as amended: the parts of the
    compound payload are returned in their order, among other payloads. *)
Example TestLua_compound_parts_in_order :
  interleave [msg 32; msg 33]
             [msg 15; msg 16; msg 17; msg 18; msg 19; msg 30]
             (returned TestLua_compound)
  /\ List.Forall (fun x => ~ In x [msg 32; msg 33])
                 [msg 15; msg 16; msg 17; msg 18; msg 19; msg 30].
Proof.
  split.
  - vm_compute. repeat constructor.
  - vm_compute. repeat (constructor; [simpl; intuition discriminate |]).
    constructor.
Qed.

(** *** The rate ceiling *)

(** The clock readings of the pops of a run. *)
Definition pop_times (ops : list op) : list Z :=
  flat_map (fun o => match o with Pop now _ => [now] | _ => [] end) ops.

(** A window of one second starting at [w]. *)
Definition in_window (w u : Z) : bool := (w <=? u)%Z && (u <? w + 1000)%Z.

(** A hand-off happens in a pop, at that pop's clock reading, for a
    destination that is under its rate limit, and adds one transaction. *)
Lemma step_handoff s o t :
  transactions (fst (step s o)) t = transactions s t ++ times t (snd (step s o))
  /\ (times t (snd (step s o)) = []
      \/ exists now q,
           o = Pop now q
           /\ times t (snd (step s o)) = [now]
           /\ limited s now t = false).
Proof.
  destruct o as [now q c r x p | now q | now q | q w]; simpl;
    try (unfold times; simpl; rewrite app_nil_r; split; [reflexivity | left; reflexivity]).
  destruct (PopFromQueue_outcome s now q)
    as [w s' Hw Ht Hx Hq | t' p score x rest s' He Hl Hk Hd Ht Hx Hq].
  - replace (match w with
             | Token t0 => (s', [])
             | _ => (s', [])
             end) with (s', @nil handoff) by (destruct w; reflexivity).
    simpl. rewrite Hx. unfold times; simpl. rewrite app_nil_r.
    split; [reflexivity | left; reflexivity].
  - simpl. rewrite Hx. unfold times, insert, fn_insert; simpl.
    destruct (decide (t' = t)) as [-> | Hne].
    + rewrite bool_decide_eq_true_2 by reflexivity.
      split; [reflexivity |]. right. exists now, q. auto.
    + rewrite (bool_decide_eq_false_2 _ Hne). simpl. rewrite app_nil_r.
      split; [reflexivity | left; reflexivity].
Qed.

Lemma run_app ops1 : forall s ops2,
  run s (ops1 ++ ops2)
  = (fst (run (fst (run s ops1)) ops2),
     snd (run s ops1) ++ snd (run (fst (run s ops1)) ops2)).
Proof.
  induction ops1 as [| o ops1 IH]; intros s ops2.
  - simpl. destruct (run s ops2); reflexivity.
  - rewrite <- app_comm_cons, !run_cons, IH. simpl.
    rewrite app_assoc. reflexivity.
Qed.

Lemma run_one s o : run s [o] = (fst (step s o), snd (step s o)).
Proof. simpl. destruct (step s o) as [s1 h]. rewrite app_nil_r. reflexivity. Qed.

Lemma run_times_transactions ops : forall s t,
  transactions (fst (run s ops)) t = transactions s t ++ times t (snd (run s ops)).
Proof.
  induction ops as [| o ops IH]; intros s t.
  - simpl. unfold times; simpl. rewrite app_nil_r. reflexivity.
  - rewrite run_cons. simpl.
    rewrite (IH _ t), (proj1 (step_handoff s o t)), times_app, app_assoc.
    reflexivity.
Qed.

Lemma run_times_pops ops : forall s t u,
  In u (times t (snd (run s ops))) -> In u (pop_times ops).
Proof.
  induction ops as [| o ops IH]; intros s t u Hu.
  - destruct Hu.
  - rewrite run_cons in Hu. simpl in Hu. rewrite times_app in Hu.
    unfold pop_times; simpl. apply in_or_app. apply in_app_or in Hu.
    destruct Hu as [Hu | Hu]; [left | right; exact (IH _ _ _ Hu)].
    destruct (proj2 (step_handoff s o t)) as [Hnil | (now & q & -> & Hone & _)].
    + rewrite Hnil in Hu. destruct Hu.
    + rewrite Hone in Hu. exact Hu.
Qed.

Lemma filter_length_le {A : Type} (f g : A -> bool) (l : list A) :
  (forall x, In x l -> f x = true -> g x = true) ->
  (length (List.filter f l) <= length (List.filter g l))%nat.
Proof.
  induction l as [| x l IH]; intros Himp; simpl; [lia |].
  assert (IH' := IH (fun y Hy => Himp y (or_intror Hy))).
  destruct (f x) eqn:Hf.
  - rewrite (Himp x (or_introl eq_refl) Hf). simpl. lia.
  - destruct (g x); simpl; lia.
Qed.

Lemma zrem_not_member t l : zmember t (zrem t l) = false.
Proof.
  unfold zmember, zrem. induction l as [| [score t'] l IH]; simpl; [reflexivity |].
  destruct (decide (t' = t)) as [-> | Hne].
  - rewrite bool_decide_eq_true_2 by reflexivity. simpl. exact IH.
  - rewrite (bool_decide_eq_false_2 _ Hne). simpl.
    rewrite (bool_decide_eq_false_2 _ Hne). simpl. exact IH.
Qed.

Lemma zinsert_In {A : Type} (score : Z) (x : A) l : In (score, x) (zinsert score x l).
Proof.
  induction l as [| [score' y] l IH]; simpl; [left; reflexivity |].
  destruct (score <? score')%Z; [left; reflexivity | right; exact IH].
Qed.

(** A destination of rate 2 with three payloads, popped three times within
    the same second. *)
Definition chan3 : token := mkToken "msgs" "chan3" 2.

Definition threeAtRate2 : list op :=
  [Push 500 "msgs" "chan3" 2 (Plain "msg:0") DefaultPriority;
   Push 501 "msgs" "chan3" 2 (Plain "msg:1") DefaultPriority;
   Push 502 "msgs" "chan3" 2 (Plain "msg:2") DefaultPriority;
   Pop 2000 "msgs"; Pop 2001 "msgs"; Pop 2002 "msgs"].

(** C3: for a destination with rate limit R > 0, in every run from any
    store in which the clock readings of the pops do not decrease, at most
    R pops return a payload for the destination within any window of one
    second; and a pop that finds the destination with at least R
    transactions in the last 1000 ms returns [Retry] without a payload,
    takes the token out of [active] and puts it in [throttled] with score
    now + 1, leaving tiers and transactions as they are. *)
Theorem rate_ceiling t :
  0 < tok_rate t ->
  (forall s ops w,
     StronglySorted Z.le (pop_times ops) ->
     Z.of_nat (length (List.filter (in_window w) (times t (snd (run s ops)))))
     <= tok_rate t)
  /\ (forall s now q,
        eligible s now q = Some t ->
        tok_rate t <= Z.of_nat (length (recent now (transactions s t))) ->
        exists s',
          PopFromQueue s now q = (Retry, None, s')
          /\ zmember t (active s' q) = false
          /\ In (seconds now + 1, t) (throttled s' q)
          /\ tier s' = tier s
          /\ transactions s' = transactions s).
Proof.
  intros Hrate. split.
  - intros s ops. induction ops as [| o ops IH] using rev_ind; intros w Hsorted.
    + simpl. lia.
    + unfold pop_times in Hsorted. rewrite flat_map_app in Hsorted.
      apply StronglySorted_app in Hsorted.
      destruct Hsorted as (Hle & Hsorted & _).
      specialize (IH w Hsorted).
      rewrite run_app. cbn [snd]. rewrite run_one. cbn [snd fst].
      rewrite times_app, List.filter_app, length_app.
      destruct (proj2 (step_handoff (fst (run s ops)) o t))
        as [Hnil | (now & q & -> & Hone & Hlim)].
      * rewrite Hnil. simpl. lia.
      * rewrite Hone. simpl. destruct (in_window w now) eqn:Hin; simpl; [| lia].
        unfold limited in Hlim.
        rewrite (proj2 (Z.ltb_lt _ _) Hrate) in Hlim. simpl in Hlim.
        apply Z.leb_gt in Hlim.
        rewrite run_times_transactions in Hlim.
        unfold recent in Hlim. rewrite List.filter_app, length_app in Hlim.
        assert (Hsub :
          (length (List.filter (in_window w) (times t (snd (run s ops))))
           <= length (List.filter
                        (fun ts => (now - 1000 <=? ts)%Z && (ts <=? now)%Z)
                        (times t (snd (run s ops)))))%nat).
        { apply filter_length_le. intros u Hu Hwin.
          assert (Hpop : In u (pop_times ops)) by exact (run_times_pops _ _ _ _ Hu).
          assert (Hun : u <= now).
          { apply (Hle u now).
            - apply list_elem_of_In. exact Hpop.
            - simpl. apply list_elem_of_In. left. reflexivity. }
          unfold in_window in Hwin, Hin.
          apply andb_true_iff in Hwin. destruct Hwin as [Hw1 Hw2].
          apply andb_true_iff in Hin. destruct Hin as [Hn1 Hn2].
          apply Z.leb_le in Hw1. apply Z.ltb_lt in Hn2.
          apply andb_true_iff. split; [apply Z.leb_le | apply Z.leb_le]; lia. }
        lia.
  - intros s now q He Hcount. eexists.
    unfold PopFromQueue. rewrite He. unfold limited.
    rewrite (proj2 (Z.ltb_lt _ _) Hrate), (proj2 (Z.leb_le _ _) Hcount). simpl.
    split; [reflexivity |]. simpl. unfold insert, fn_insert.
    rewrite !decide_True by reflexivity.
    split; [apply zrem_not_member |].
    split; [apply zinsert_In |]. split; reflexivity.
Qed.

Lemma rate_ceiling_witness :
  times chan3 (snd (run empty threeAtRate2)) = [2000; 2001]
  /\ Z.of_nat (length (List.filter (in_window 2000)
                                   (times chan3 (snd (run empty threeAtRate2)))))
     <= 2.
Proof.
  split; [reflexivity |].
  apply (proj1 (rate_ceiling chan3 ltac:(reflexivity)) empty threeAtRate2 2000).
  repeat constructor; simpl; lia.
Defined.

End Queue.
